(** * Real-time audio capture and incremental transcription

    A shallow embedding of the session-oriented live-audio pipeline of the
    NHS paperwork agent:

    - [AudioBuffer]  : the ring buffer of
      [src/services/realtime_audio_service.py];
    - [Wav]          : the WAV container written by
      [_create_temp_wav_from_buffer] and [transcribe_audio_buffer];
    - [Basic]        : [BasicAudioSession], [BasicRealtimeAudioService] and
      [BasicRealtimeTranscriptionManager] of
      [src/services/basic_realtime_audio.py], with the HTTP handler
      [cleanup_audio_session] of [src/api/main.py];
    - [Realtime]     : [RealtimeAudioService] of
      [src/services/realtime_audio_service.py].

    Python objects mutated in place are modelled by explicit state passing;
    the clock ([time.time()], [datetime.now()]) is an explicit argument
    [now]; the speech-to-text collaborator is a function of the number of
    calls made so far and of the request, whose answer is either a value or
    a raised exception. *)

From Stdlib Require Import ZArith List Lia QArith Qround Ascii String.
From stdpp Require Import gmap strings list.

Local Open Scope nat_scope.

(** ** Python values *)

(** The outcome of a Python call: a returned value or a raised exception. *)
Inductive exn : Type :=
| OverflowError
| ValueError
| KeyError
| ZeroDivisionError
| ApiError
| HTTPException (status_code : nat).

Inductive outcome (A : Type) : Type :=
| Ret (a : A)
| Raise (e : exn).
Arguments Ret {A} a.
Arguments Raise {A} e.

(** Readings of the wall clock, in seconds. *)
Definition Time : Type := Q.

(** A Python [str] is a sequence of Unicode code points. *)
Definition char : Type := N.
Definition str : Type := list char.

(** [str.isspace] on one code point (CPython's [_PyUnicode_IsWhitespace]). *)
Definition isspace (c : char) : bool :=
  ((9 <=? c) && (c <=? 13) || (28 <=? c) && (c <=? 32)
   || (c =? 133) || (c =? 160) || (c =? 5760)
   || (8192 <=? c) && (c <=? 8202)
   || (c =? 8232) || (c =? 8233) || (c =? 8239) || (c =? 8287)
   || (c =? 12288))%N.

Fixpoint lstrip (s : str) : str :=
  match s with
  | [] => []
  | c :: s' => if isspace c then lstrip s' else s
  end.

Definition rstrip (s : str) : str := rev (lstrip (rev s)).

(** [s.strip()] *)
Definition strip (s : str) : str := rstrip (lstrip s).

Definition SPACE : char := 32%N.

(** [sep.join(parts)] *)
Fixpoint join (sep : str) (parts : list str) : str :=
  match parts with
  | [] => []
  | [p] => p
  | p :: rest => p ++ sep ++ join sep rest
  end.

(** The code points of an ASCII literal. *)
Definition lit (s : string) : str :=
  map N_of_ascii (list_ascii_of_string s).

(** Python slices on sequences, for non-negative bounds. *)
Definition slice {A} (l : list A) (i j : nat) : list A := take (j - i) (drop i l).

(** [l[-n:]]: the last [n] elements; [l[-0:]] is [l[0:]], the whole list. *)
Definition slice_last {A} (n : nat) (l : list A) : list A :=
  if n =? 0 then l else drop (length l - n) l.

(** [l[i:j] = x] *)
Definition slice_assign {A} (l : list A) (i j : nat) (x : list A) : list A :=
  take i l ++ x ++ drop j l.

(** [int(sample_rate * duration)] for a duration in seconds; a negative
    product selects no sample, as the slices of [read_last_seconds] do. *)
Definition to_samples (sample_rate : Z) (duration : Q) : nat :=
  Z.to_nat (Qfloor (inject_Z sample_rate * duration)).

(** ** The ring buffer *)

Module AudioBuffer.
Section Samples.
(** Samples are moved, never computed on. *)
Context {A : Type}.

Record t : Type := mk {
sample_rate : Z;
buffer_size : nat;
buffer : list A;
write_index : nat;
is_full : bool
}.

(** [AudioBuffer(sample_rate, buffer_duration)] *)
Definition init (zero : A) (sample_rate : Z) (buffer_duration : Q) : t :=
let buffer_size := to_samples sample_rate buffer_duration in
{| sample_rate := sample_rate;
   buffer_size := buffer_size;
   buffer := replicate buffer_size zero;
   write_index := 0;
   is_full := false |}.

Definition write (b : t) (audio_data : list A) : t :=
let data_length := length audio_data in
if buffer_size b <=? data_length then
  {| sample_rate := sample_rate b;
     buffer_size := buffer_size b;
     buffer := slice_last (buffer_size b) audio_data;
     write_index := 0;
     is_full := true |}
else
  let end_index := write_index b + data_length in
  if end_index <=? buffer_size b then
    {| sample_rate := sample_rate b;
       buffer_size := buffer_size b;
       buffer := slice_assign (buffer b) (write_index b) end_index audio_data;
       write_index := end_index mod buffer_size b;
       is_full := is_full b |}
  else
    let first_chunk_size := buffer_size b - write_index b in
    let buffer1 :=
      slice_assign (buffer b) (write_index b) (length (buffer b))
                   (take first_chunk_size audio_data) in
    let buffer2 :=
      slice_assign buffer1 0 (data_length - first_chunk_size)
                   (drop first_chunk_size audio_data) in
    {| sample_rate := sample_rate b;
       buffer_size := buffer_size b;
       buffer := buffer2;
       write_index := data_length - first_chunk_size;
       is_full := true |}.

Definition read_last_seconds (b : t) (duration : Q) : list A :=
let samples := to_samples (sample_rate b) duration in
let samples := samples `min` buffer_size b in
if negb (is_full b) && (write_index b <? samples) then
  take (write_index b) (buffer b)
else if samples <=? write_index b then
  slice (buffer b) (write_index b - samples) (write_index b)
else
  drop (buffer_size b - (samples - write_index b)) (buffer b)
    ++ take (write_index b) (buffer b).

(** A sequence of [write] calls. *)
Definition writes (b : t) (chunks : list (list A)) : t :=
foldl write b chunks.

(** Everything written, oldest first. *)
Definition written (chunks : list (list A)) : list A := concat chunks.

End Samples.
Arguments t : clear implicits.
End AudioBuffer.

(** ** Exceptions as values *)

#[global] Instance outcome_ret : MRet outcome := fun _ a => Ret a.
#[global] Instance outcome_bind : MBind outcome :=
  fun _ _ f m => match m with Ret a => f a | Raise e => Raise e end.

(** ** The WAV container handed to the transcription collaborator *)

Module Wav.

Definition byte : Type := Z.
Definition bytes : Type := list byte.

(** The bytes of an ASCII literal such as [b'RIFF']. *)
Definition ascii_bytes (s : string) : bytes :=
  map (fun a => Z.of_N (N_of_ascii a)) (list_ascii_of_string s).

Fixpoint le_digits (length : nat) (n : Z) : bytes :=
  match length with
  | O => []
  | S k => (n mod 256)%Z :: le_digits k (n / 256)%Z
  end.

(** [n.to_bytes(length, 'little')] *)
Definition to_bytes (n : Z) (length : nat) : outcome bytes :=
  if ((0 <=? n) && (n <? 256 ^ Z.of_nat length))%Z
  then Ret (le_digits length n)
  else Raise OverflowError.

(** [int.from_bytes(b, 'little')], the reader's side of a header field. *)
Fixpoint from_bytes (b : bytes) : Z :=
  match b with
  | [] => 0
  | x :: rest => x + 256 * from_bytes rest
  end%Z.

(** The writes of [_create_temp_wav_from_buffer] (lines 189-207) and of
    [transcribe_audio_buffer] (lines 148-166), which are the same
    statements; the value is the content of the temporary file. *)
Definition write_wav (audio_buffer : bytes) : outcome bytes :=
  let sample_rate := 16000%Z in
  let bits_per_sample := 16%Z in
  let channels := 1%Z in
  let temp_file := ascii_bytes "RIFF" in
  x ← to_bytes (Z.of_nat (length audio_buffer) + 36) 4;
  let temp_file := temp_file ++ x in
  let temp_file := temp_file ++ ascii_bytes "WAVE" in
  let temp_file := temp_file ++ ascii_bytes "fmt " in
  x ← to_bytes 16 4;
  let temp_file := temp_file ++ x in
  x ← to_bytes 1 2;
  let temp_file := temp_file ++ x in
  x ← to_bytes channels 2;
  let temp_file := temp_file ++ x in
  x ← to_bytes sample_rate 4;
  let temp_file := temp_file ++ x in
  x ← to_bytes (sample_rate * channels * bits_per_sample / 8) 4;
  let temp_file := temp_file ++ x in
  x ← to_bytes (channels * bits_per_sample / 8) 2;
  let temp_file := temp_file ++ x in
  x ← to_bytes bits_per_sample 2;
  let temp_file := temp_file ++ x in
  let temp_file := temp_file ++ ascii_bytes "data" in
  x ← to_bytes (Z.of_nat (length audio_buffer)) 4;
  let temp_file := temp_file ++ x in
  let temp_file := temp_file ++ audio_buffer in
  Ret temp_file.

(** [_create_temp_wav_from_buffer]: [None] when anything raised. *)
Definition _create_temp_wav_from_buffer (audio_buffer : bytes) : option bytes :=
  match write_wav audio_buffer with
  | Ret temp_file => Some temp_file
  | Raise _ => None
  end.

(** [RealtimeAudioTranscriber.transcribe_audio_buffer]
    ([src/services/realtime_websocket_service.py]): [client] is [None]
    when no API key was configured; the second component lists the files
    sent to the collaborator. *)
Definition transcribe_audio_buffer
    (client : option (bytes -> outcome str)) (audio_buffer : bytes)
  : option str * list bytes :=
  match client, audio_buffer with
  | None, _ | _, [] => (None, [])
  | Some create, _ :: _ =>
      match write_wav audio_buffer with
      | Raise _ => (None, [])
      | Ret temp_file =>
          match create temp_file with
          | Raise _ => (None, [temp_file])
          | Ret [] => (None, [temp_file])
          | Ret (c :: transcript) => (Some (strip (c :: transcript)), [temp_file])
          end
      end
  end.

(** The header fields of a canonical 44-byte RIFF/WAVE header. *)
Definition ChunkID (f : bytes) : bytes := slice f 0 4.
Definition ChunkSize (f : bytes) : Z := from_bytes (slice f 4 8).
Definition Format (f : bytes) : bytes := slice f 8 12.
Definition Subchunk1ID (f : bytes) : bytes := slice f 12 16.
Definition Subchunk1Size (f : bytes) : Z := from_bytes (slice f 16 20).
Definition AudioFormat (f : bytes) : Z := from_bytes (slice f 20 22).
Definition NumChannels (f : bytes) : Z := from_bytes (slice f 22 24).
Definition SampleRate (f : bytes) : Z := from_bytes (slice f 24 28).
Definition ByteRate (f : bytes) : Z := from_bytes (slice f 28 32).
Definition BlockAlign (f : bytes) : Z := from_bytes (slice f 32 34).
Definition BitsPerSample (f : bytes) : Z := from_bytes (slice f 34 36).
Definition Subchunk2ID (f : bytes) : bytes := slice f 36 40.
Definition Subchunk2Size (f : bytes) : Z := from_bytes (slice f 40 44).
Definition Data (f : bytes) : bytes := drop 44 f.

End Wav.

(** ** The basic service (wired to the HTTP and WebSocket interfaces) *)

Module Basic.

Record Segment : Type := {
  text : str;
  timestamp : Time;
  confidence : Q;
  segment_session_id : string
}.

(** What the collaborator returns: [transcript.text] and, when present,
    [transcript.confidence]. *)
Record Transcript : Type := {
  transcript_text : str;
  transcript_confidence : option Q
}.

Record BasicAudioSession : Type := {
  session_id : string;
  created_at : Time;
  is_recording : bool;
  recording_start_time : option Time;
  recording_end_time : option Time;
  transcription_segments : list Segment;
  full_transcription : str;
  transcription_queue : list Segment;
  audio_buffer : Wav.bytes;
  last_transcription_time : option Time
}.

(** [BasicAudioSession(session_id)] *)
Definition new_session (session_id : string) (now : Time) : BasicAudioSession :=
  {| session_id := session_id;
     created_at := now;
     is_recording := false;
     recording_start_time := None;
     recording_end_time := None;
     transcription_segments := [];
     full_transcription := [];
     transcription_queue := [];
     audio_buffer := [];
     last_transcription_time := None |}.

Definition session_start_recording (s : BasicAudioSession) (now : Time)
  : BasicAudioSession :=
  {| session_id := session_id s;
     created_at := created_at s;
     is_recording := true;
     recording_start_time := Some now;
     recording_end_time := recording_end_time s;
     transcription_segments := transcription_segments s;
     full_transcription := full_transcription s;
     transcription_queue := transcription_queue s;
     audio_buffer := audio_buffer s;
     last_transcription_time := last_transcription_time s |}.

Definition session_stop_recording (s : BasicAudioSession) (now : Time)
  : BasicAudioSession :=
  {| session_id := session_id s;
     created_at := created_at s;
     is_recording := false;
     recording_start_time := recording_start_time s;
     recording_end_time := Some now;
     transcription_segments := transcription_segments s;
     full_transcription := full_transcription s;
     transcription_queue := transcription_queue s;
     audio_buffer := audio_buffer s;
     last_transcription_time := last_transcription_time s |}.

Definition add_transcription_segment
    (s : BasicAudioSession) (text : str) (confidence : Q) (now : Time)
  : BasicAudioSession :=
  let segment :=
    {| text := strip text;
       timestamp := now;
       confidence := confidence;
       segment_session_id := session_id s |} in
  {| session_id := session_id s;
     created_at := created_at s;
     is_recording := is_recording s;
     recording_start_time := recording_start_time s;
     recording_end_time := recording_end_time s;
     transcription_segments := transcription_segments s ++ [segment];
     full_transcription := full_transcription s ++ [SPACE] ++ strip text;
     transcription_queue := transcription_queue s ++ [segment];
     audio_buffer := audio_buffer s;
     last_transcription_time := Some now |}.

Definition set_audio_buffer (s : BasicAudioSession) (b : Wav.bytes)
  : BasicAudioSession :=
  {| session_id := session_id s;
     created_at := created_at s;
     is_recording := is_recording s;
     recording_start_time := recording_start_time s;
     recording_end_time := recording_end_time s;
     transcription_segments := transcription_segments s;
     full_transcription := full_transcription s;
     transcription_queue := transcription_queue s;
     audio_buffer := b;
     last_transcription_time := last_transcription_time s |}.

Definition add_audio_data (s : BasicAudioSession) (audio_data : Wav.bytes)
  : BasicAudioSession :=
  set_audio_buffer s (audio_buffer s ++ audio_data).

Definition get_audio_buffer_size (s : BasicAudioSession) : nat :=
  length (audio_buffer s).

Definition clear_audio_buffer (s : BasicAudioSession) : BasicAudioSession :=
  set_audio_buffer s [].

(** A float that Python treats as true: not [None], not [0.0]. *)
Definition truthy (t : option Time) : option Time :=
  match t with
  | Some x => if Qeq_bool x 0 then None else Some x
  | None => None
  end.

Definition get_recording_duration (s : BasicAudioSession) (now : Time) : Q :=
  match truthy (recording_start_time s) with
  | None => 0
  | Some start =>
      let end_time := default now (truthy (recording_end_time s)) in
      end_time - start
  end%Q.

Record Status : Type := {
  status_session_id : string;
  status_is_recording : bool;
  status_created_at : Time;
  status_recording_duration : Q;
  status_segment_count : nat;
  status_full_transcription : str;
  status_audio_buffer_size : nat;
  status_last_transcription : option Time
}.

Definition get_status (s : BasicAudioSession) (now : Time) : Status :=
  {| status_session_id := session_id s;
     status_is_recording := is_recording s;
     status_created_at := created_at s;
     status_recording_duration := get_recording_duration s now;
     status_segment_count := length (transcription_segments s);
     status_full_transcription := strip (full_transcription s);
     status_audio_buffer_size := length (audio_buffer s);
     status_last_transcription := last_transcription_time s |}.

(** The loop of [get_live_transcription] over the session's [Queue]:
    [get_nowait] while not [empty]. *)
Fixpoint drain (queue new_segments : list Segment)
  : list Segment * list Segment :=
  match queue with
  | [] => (new_segments, [])
  | segment :: queue' => drain queue' (new_segments ++ [segment])
  end.

Definition set_transcription_queue (s : BasicAudioSession) (q : list Segment)
  : BasicAudioSession :=
  {| session_id := session_id s;
     created_at := created_at s;
     is_recording := is_recording s;
     recording_start_time := recording_start_time s;
     recording_end_time := recording_end_time s;
     transcription_segments := transcription_segments s;
     full_transcription := full_transcription s;
     transcription_queue := q;
     audio_buffer := audio_buffer s;
     last_transcription_time := last_transcription_time s |}.

Record LiveTranscription : Type := {
  live_session_id : string;
  live_is_recording : bool;
  new_segments : list Segment;
  live_full_transcription : str;
  live_segment_count : nat
}.

(** The body of [get_live_transcription] once the session is found. *)
Definition poll (s : BasicAudioSession) : LiveTranscription * BasicAudioSession :=
  let '(new, queue') := drain (transcription_queue s) [] in
  ({| live_session_id := session_id s;
      live_is_recording := is_recording s;
      new_segments := new;
      live_full_transcription := strip (full_transcription s);
      live_segment_count := length (transcription_segments s) |},
   set_transcription_queue s queue').

(** *** BasicRealtimeAudioService *)

(** [client_log] records the requests made through [self.client], oldest
    first. *)
Record Service : Type := {
  sessions : gmap string BasicAudioSession;
  client_log : list Wav.bytes
}.

Definition new_service : Service := {| sessions := ∅; client_log := [] |}.

Definition set_session (svc : Service) (id : string) (s : BasicAudioSession)
  : Service :=
  {| sessions := <[id := s]> (sessions svc); client_log := client_log svc |}.

(** A mutation of the session object that [sessions[id]] refers to. *)
Definition modify_session
    (svc : Service) (id : string) (f : BasicAudioSession -> BasicAudioSession)
  : Service :=
  match sessions svc !! id with
  | Some s => set_session svc id (f s)
  | None => svc
  end.

Inductive TranscribeResult : Type :=
| TranscribeSessionNotFound
| TranscribeSuccess (text : str) (confidence : Q) (timestamp : Time)
| TranscribeNoSpeech
| TranscribeError (e : exn).

Inductive ProcessResult : Type :=
| ProcessSessionNotFound
| Processed (transcription_result : TranscribeResult)
| ProcessingFailed (e : exn)
| Buffering (buffer_size : nat) (estimated_duration : Q).

Section Client.
(** [self.client.audio.transcriptions.create]: the answer to the
    [n]-th request. *)
Variable client : nat -> Wav.bytes -> outcome Transcript.

(** [session_id] is [None] when the caller passes none; [uuid] is the
    value [uuid.uuid4()] would draw. *)
Definition create_session
    (svc : Service) (session_id : option string) (uuid : string) (now : Time)
  : string * Service :=
  let session_id := default uuid session_id in
  (session_id, set_session svc session_id (new_session session_id now)).

Definition start_recording (svc : Service) (session_id : string) (now : Time)
  : bool * Service :=
  match sessions svc !! session_id with
  | None => (false, svc)
  | Some s => (true, set_session svc session_id (session_start_recording s now))
  end.

Definition stop_recording (svc : Service) (session_id : string) (now : Time)
  : bool * Service :=
  match sessions svc !! session_id with
  | None => (false, svc)
  | Some s => (true, set_session svc session_id (session_stop_recording s now))
  end.

(** [audio_file] is the content of the file at [audio_file_path]. *)
Definition transcribe_audio_file
    (svc : Service) (session_id : string) (audio_file : Wav.bytes) (now : Time)
  : outcome TranscribeResult * Service :=
  match sessions svc !! session_id with
  | None => (Ret TranscribeSessionNotFound, svc)
  | Some session =>
      let svc1 :=
        {| sessions := sessions svc;
           client_log := client_log svc ++ [audio_file] |} in
      match client (length (client_log svc)) audio_file with
      | Raise e => (Ret (TranscribeError e), svc1)
      | Ret transcript =>
          match strip (transcript_text transcript) with
          | [] => (Ret TranscribeNoSpeech, svc1)
          | _ :: _ =>
              let confidence :=
                default (9 # 10)%Q (transcript_confidence transcript) in
              (Ret (TranscribeSuccess (strip (transcript_text transcript))
                                      confidence now),
               set_session svc1 session_id
                 (add_transcription_segment session
                    (strip (transcript_text transcript)) confidence now))
          end
      end
  end.

Definition process_audio_data
    (svc : Service) (session_id : string) (audio_data : Wav.bytes) (now : Time)
  : outcome ProcessResult * Service :=
  match sessions svc !! session_id with
  | None => (Ret ProcessSessionNotFound, svc)
  | Some session =>
      let session := add_audio_data session audio_data in
      let svc := set_session svc session_id session in
      let buffer_size := get_audio_buffer_size session in
      let estimated_duration := (Z.of_nat buffer_size # 32000)%Q in
      let buffering := (Ret (Buffering buffer_size estimated_duration), svc) in
      if Qle_bool 3 estimated_duration then
        match Wav._create_temp_wav_from_buffer (audio_buffer session) with
        | Some temp_file =>
            match transcribe_audio_file svc session_id temp_file now with
            | (Raise e, svc) => (Ret (ProcessingFailed e), svc)
            | (Ret transcription_result, svc) =>
                let svc := modify_session svc session_id clear_audio_buffer in
                (Ret (Processed transcription_result), svc)
            end
        | None => buffering
        end
      else buffering
  end.

Definition get_session_status (svc : Service) (session_id : string) (now : Time)
  : option Status :=
  match sessions svc !! session_id with
  | None => None
  | Some s => Some (get_status s now)
  end.

Definition get_live_transcription (svc : Service) (session_id : string)
  : option LiveTranscription * Service :=
  match sessions svc !! session_id with
  | None => (None, svc)
  | Some session =>
      let '(r, session) := poll session in
      (Some r, set_session svc session_id session)
  end.

Definition get_final_transcription (svc : Service) (session_id : string)
  : option str :=
  match sessions svc !! session_id with
  | None => None
  | Some s => Some (strip (full_transcription s))
  end.

Definition cleanup_session (svc : Service) (session_id : string)
  : bool * Service :=
  match sessions svc !! session_id with
  | Some _ =>
      (true, {| sessions := delete session_id (sessions svc);
                client_log := client_log svc |})
  | None => (false, svc)
  end.

End Client.

(** *** BasicRealtimeTranscriptionManager *)

Record Manager : Type := {
  audio_service : Service;
  active_sessions : gset string
}.

Definition new_manager : Manager :=
  {| audio_service := new_service; active_sessions := ∅ |}.

Inductive StartResponse : Type :=
| RecordingStarted (session_id : string) (timestamp : Time)
| StartFailed.

Inductive StopResponse : Type :=
| RecordingStopped (session_id : string) (final_transcription : option str)
                   (timestamp : Time)
| StopFailed.

Definition manager_create_session (m : Manager) (uuid : string) (now : Time)
  : string * Manager :=
  let '(session_id, svc) := create_session (audio_service m) None uuid now in
  (session_id,
   {| audio_service := svc;
      active_sessions := active_sessions m ∪ {[session_id]} |}).

Definition manager_start_recording (m : Manager) (session_id : string) (now : Time)
  : StartResponse * Manager :=
  let '(success, svc) := start_recording (audio_service m) session_id now in
  let m := {| audio_service := svc; active_sessions := active_sessions m |} in
  if success then (RecordingStarted session_id now, m) else (StartFailed, m).

Definition manager_stop_recording (m : Manager) (session_id : string) (now : Time)
  : StopResponse * Manager :=
  let '(success, svc) := stop_recording (audio_service m) session_id now in
  let m := {| audio_service := svc; active_sessions := active_sessions m |} in
  if success then
    (RecordingStopped session_id (get_final_transcription svc session_id) now, m)
  else (StopFailed, m).

Definition manager_cleanup_session (m : Manager) (session_id : string)
  : bool * Manager :=
  let active :=
    if decide (session_id ∈ active_sessions m)
    then active_sessions m ∖ {[session_id]}
    else active_sessions m in
  let '(r, svc) := cleanup_session (audio_service m) session_id in
  (r, {| audio_service := svc; active_sessions := active |}).

(** *** [DELETE /audio/session/{session_id}] ([src/api/main.py]) *)

Inductive CleanupStatus : Type := cleaned_up | not_found.

Record CleanupResponse : Type := {
  cleanup_session_id : string;
  cleanup_status : CleanupStatus;
  cleanup_timestamp : Time
}.

(** [realtime_transcription_manager] is the module-level manager, [None]
    when the service could not be set up. *)
Definition cleanup_audio_session
    (realtime_transcription_manager : option Manager)
    (session_id : string) (now : Time)
  : outcome CleanupResponse * option Manager :=
  match realtime_transcription_manager with
  | None => (Raise (HTTPException 500), None)
  | Some m =>
      let '(success, m) := manager_cleanup_session m session_id in
      (Ret {| cleanup_session_id := session_id;
              cleanup_status := if success then cleaned_up else not_found;
              cleanup_timestamp := now |},
       Some m)
  end.

(** *** The other calls of the manager *)

Definition manager_process_audio_data
    (client : nat -> Wav.bytes -> outcome Transcript)
    (m : Manager) (session_id : string) (audio_data : Wav.bytes) (now : Time)
  : outcome ProcessResult * Manager :=
  let '(r, svc) :=
    process_audio_data client (audio_service m) session_id audio_data now in
  (r, {| audio_service := svc; active_sessions := active_sessions m |}).

Definition manager_transcribe_uploaded_audio
    (client : nat -> Wav.bytes -> outcome Transcript)
    (m : Manager) (session_id : string) (audio_file : Wav.bytes) (now : Time)
  : outcome TranscribeResult * Manager :=
  let '(r, svc) :=
    transcribe_audio_file client (audio_service m) session_id audio_file now in
  (r, {| audio_service := svc; active_sessions := active_sessions m |}).

Definition manager_get_transcription_updates (m : Manager) (session_id : string)
  : option LiveTranscription * Manager :=
  let '(r, svc) := get_live_transcription (audio_service m) session_id in
  (r, {| audio_service := svc; active_sessions := active_sessions m |}).

Definition manager_get_session_info (m : Manager) (session_id : string)
    (now : Time) : option Status :=
  get_session_status (audio_service m) session_id now.

(** [list(self.active_sessions)], in the order the set enumerates. *)
Definition get_active_sessions (m : Manager) : list string :=
  elements (active_sessions m).

End Basic.

(** ** The ring-buffer service *)

Module Realtime.

(** A float32 sample, as the 32-bit pattern [np.frombuffer] reads. *)
Definition Sample : Type := Z.

(** [np.frombuffer(audio_data, dtype=np.float32)] *)
Fixpoint frombuffer (audio_data : Wav.bytes) : outcome (list Sample) :=
  match audio_data with
  | [] => Ret []
  | b0 :: b1 :: b2 :: b3 :: rest =>
      samples ← frombuffer rest;
      Ret (Wav.from_bytes [b0; b1; b2; b3] :: samples)
  | _ => Raise ValueError
  end.

Record Segment : Type := {
  text : str;
  timestamp : Time;
  confidence : Q;
  duration : Q
}.

Record Transcript : Type := {
  transcript_text : str;
  transcript_confidence : option Q
}.

(** The two requests made to the collaborator, with the samples that
    [sf.write] put in the temporary file. *)
Inductive Request : Type :=
| verbose_json (audio_data : list Sample)
| text_format (audio_data : list Sample).

(** A session dictionary; the keys ["recording_start_time"] and
    ["final_transcription"] are absent until first set. *)
Record Session : Type := {
  created_at : Time;
  is_recording : bool;
  audio_buffer : AudioBuffer.t Sample;
  transcription_queue : list Segment;
  full_transcription : str;
  transcription_segments : list Segment;
  last_transcription_time : Time;
  recording_start_time : option Time;
  final_transcription : option str
}.

Record Service : Type := {
  sessions : gmap string Session;
  client_log : list Request;
  sample_rate : Z;
  chunk_duration : Q;
  buffer_duration : Q
}.

(** [RealtimeAudioService(openai_api_key)] *)
Definition new_service : Service :=
  {| sessions := ∅;
     client_log := [];
     sample_rate := 16000%Z;
     chunk_duration := 3;
     buffer_duration := 30 |}.

Definition set_sessions (svc : Service) (m : gmap string Session) : Service :=
  {| sessions := m;
     client_log := client_log svc;
     sample_rate := sample_rate svc;
     chunk_duration := chunk_duration svc;
     buffer_duration := buffer_duration svc |}.

Definition set_session (svc : Service) (id : string) (s : Session) : Service :=
  set_sessions svc (<[id := s]> (sessions svc)).

(** A mutation of the session object that [sessions[id]] refers to. *)
Definition modify_session (svc : Service) (id : string) (f : Session -> Session)
  : Service :=
  match sessions svc !! id with
  | Some s => set_session svc id (f s)
  | None => svc
  end.

Definition log_request (svc : Service) (r : Request) : Service :=
  {| sessions := sessions svc;
     client_log := client_log svc ++ [r];
     sample_rate := sample_rate svc;
     chunk_duration := chunk_duration svc;
     buffer_duration := buffer_duration svc |}.

Definition set_is_recording (s : Session) (b : bool) : Session :=
  {| created_at := created_at s;
     is_recording := b;
     audio_buffer := audio_buffer s;
     transcription_queue := transcription_queue s;
     full_transcription := full_transcription s;
     transcription_segments := transcription_segments s;
     last_transcription_time := last_transcription_time s;
     recording_start_time := recording_start_time s;
     final_transcription := final_transcription s |}.

Definition set_recording_start_time (s : Session) (t : Time) : Session :=
  {| created_at := created_at s;
     is_recording := is_recording s;
     audio_buffer := audio_buffer s;
     transcription_queue := transcription_queue s;
     full_transcription := full_transcription s;
     transcription_segments := transcription_segments s;
     last_transcription_time := last_transcription_time s;
     recording_start_time := Some t;
     final_transcription := final_transcription s |}.

Definition set_audio_buffer (s : Session) (b : AudioBuffer.t Sample) : Session :=
  {| created_at := created_at s;
     is_recording := is_recording s;
     audio_buffer := b;
     transcription_queue := transcription_queue s;
     full_transcription := full_transcription s;
     transcription_segments := transcription_segments s;
     last_transcription_time := last_transcription_time s;
     recording_start_time := recording_start_time s;
     final_transcription := final_transcription s |}.

Definition set_last_transcription_time (s : Session) (t : Time) : Session :=
  {| created_at := created_at s;
     is_recording := is_recording s;
     audio_buffer := audio_buffer s;
     transcription_queue := transcription_queue s;
     full_transcription := full_transcription s;
     transcription_segments := transcription_segments s;
     last_transcription_time := t;
     recording_start_time := recording_start_time s;
     final_transcription := final_transcription s |}.

Definition set_final_transcription (s : Session) (t : str) : Session :=
  {| created_at := created_at s;
     is_recording := is_recording s;
     audio_buffer := audio_buffer s;
     transcription_queue := transcription_queue s;
     full_transcription := full_transcription s;
     transcription_segments := transcription_segments s;
     last_transcription_time := last_transcription_time s;
     recording_start_time := recording_start_time s;
     final_transcription := Some t |}.

Definition add_segment (s : Session) (segment : Segment) : Session :=
  {| created_at := created_at s;
     is_recording := is_recording s;
     audio_buffer := audio_buffer s;
     transcription_queue := transcription_queue s ++ [segment];
     full_transcription := full_transcription s ++ [SPACE] ++ text segment;
     transcription_segments := transcription_segments s ++ [segment];
     last_transcription_time := last_transcription_time s;
     recording_start_time := recording_start_time s;
     final_transcription := final_transcription s |}.

(** [len(audio_data) < self.sample_rate * 0.5] *)
Definition too_short (svc : Service) (audio_data : list Sample) : bool :=
  negb (Qle_bool (inject_Z (sample_rate svc) * (1 # 2))
                 (inject_Z (Z.of_nat (length audio_data)))).

Inductive ChunkResult : Type :=
| ChunkSessionNotFound
| ChunkNotRecording
| ChunkSuccess (buffer_level : Q) (timestamp : Time)
| ChunkError (e : exn).

Section Client.
Variable client : nat -> Request -> outcome Transcript.

Definition create_session
    (svc : Service) (session_id : option string) (uuid : string) (now : Time)
  : string * Service :=
  let session_id := default uuid session_id in
  (session_id,
   set_session svc session_id
     {| created_at := now;
        is_recording := false;
        audio_buffer :=
          AudioBuffer.init 0%Z (sample_rate svc) (buffer_duration svc);
        transcription_queue := [];
        full_transcription := [];
        transcription_segments := [];
        last_transcription_time := 0%Q;
        recording_start_time := None;
        final_transcription := None |}).

Definition start_recording (svc : Service) (session_id : string) (now : Time)
  : bool * Service :=
  match sessions svc !! session_id with
  | None => (false, svc)
  | Some session =>
      let session := set_is_recording session true in
      let session := set_recording_start_time session now in
      (true, set_session svc session_id session)
  end.

(** The body of the [try] of [_transcribe_audio_chunk]. *)
Definition transcribe_audio_chunk_body
    (svc : Service) (session_id : string) (session : Session) (now : Time)
  : outcome unit * Service :=
  let audio_data :=
    AudioBuffer.read_last_seconds (audio_buffer session) (chunk_duration svc) in
  if too_short svc audio_data then (Ret (), svc)
  else
    let svc1 := log_request svc (verbose_json audio_data) in
    match client (length (client_log svc)) (verbose_json audio_data) with
    | Raise e => (Raise e, svc1)
    | Ret transcript =>
        match strip (transcript_text transcript) with
        | [] => (Ret (), svc1)
        | _ :: _ =>
            let segment :=
              {| text := strip (transcript_text transcript);
                 timestamp := now;
                 confidence :=
                   default (9 # 10)%Q (transcript_confidence transcript);
                 duration :=
                   (inject_Z (Z.of_nat (length audio_data))
                    / inject_Z (sample_rate svc))%Q |} in
            (Ret (), set_session svc1 session_id (add_segment session segment))
        end
    end.

(** [_transcribe_audio_chunk]: the session is looked up before the
    [try]; whatever the body raises is logged and dropped. *)
Definition _transcribe_audio_chunk
    (svc : Service) (session_id : string) (now : Time)
  : outcome unit * Service :=
  match sessions svc !! session_id with
  | None => (Raise KeyError, svc)
  | Some session =>
      let '(_, svc) := transcribe_audio_chunk_body svc session_id session now in
      (Ret (), svc)
  end.

(** The body of the [try] of [_process_final_audio_chunk]. *)
Definition process_final_audio_chunk_body
    (svc : Service) (session_id : string) (session : Session)
  : outcome unit * Service :=
  let audio_data :=
    AudioBuffer.read_last_seconds (audio_buffer session) (buffer_duration svc) in
  if too_short svc audio_data then (Ret (), svc)
  else
    let svc1 := log_request svc (text_format audio_data) in
    match client (length (client_log svc)) (text_format audio_data) with
    | Raise e => (Raise e, svc1)
    | Ret transcript =>
        match strip (transcript_text transcript) with
        | [] => (Ret (), svc1)
        | _ :: _ =>
            (Ret (),
             set_session svc1 session_id
               (set_final_transcription session
                  (strip (transcript_text transcript))))
        end
    end.

Definition _process_final_audio_chunk (svc : Service) (session_id : string)
  : outcome unit * Service :=
  match sessions svc !! session_id with
  | None => (Raise KeyError, svc)
  | Some session =>
      let '(_, svc) := process_final_audio_chunk_body svc session_id session in
      (Ret (), svc)
  end.

Definition stop_recording (svc : Service) (session_id : string)
  : outcome bool * Service :=
  match sessions svc !! session_id with
  | None => (Ret false, svc)
  | Some session =>
      let session := set_is_recording session false in
      let svc := set_session svc session_id session in
      match _process_final_audio_chunk svc session_id with
      | (Raise e, svc) => (Raise e, svc)
      | (Ret _, svc) => (Ret true, svc)
      end
  end.

Definition _get_buffer_level (svc : Service) (session_id : string) : outcome Q :=
  match sessions svc !! session_id with
  | None => Ret 0%Q
  | Some session =>
      let buffer := audio_buffer session in
      if AudioBuffer.is_full buffer then Ret 1%Q
      else if AudioBuffer.buffer_size buffer =? 0 then Raise ZeroDivisionError
      else Ret (inject_Z (Z.of_nat (AudioBuffer.write_index buffer))
                / inject_Z (Z.of_nat (AudioBuffer.buffer_size buffer)))%Q
  end.

(** The body of the [try] of [process_audio_chunk]. *)
Definition process_audio_chunk_body
    (svc : Service) (session_id : string) (session : Session)
    (audio_data : Wav.bytes) (now : Time)
  : outcome ChunkResult * Service :=
  match frombuffer audio_data with
  | Raise e => (Raise e, svc)
  | Ret audio_array =>
      let session :=
        set_audio_buffer session
          (AudioBuffer.write (audio_buffer session) audio_array) in
      let svc := set_session svc session_id session in
      let current_time := now in
      let due :=
        Qle_bool (chunk_duration svc)
                 (current_time - last_transcription_time session)%Q in
      match (if due then _transcribe_audio_chunk svc session_id current_time
             else (Ret (), svc)) with
      | (Raise e, svc) => (Raise e, svc)
      | (Ret _, svc) =>
          let svc :=
            if due then
              modify_session svc session_id
                (fun session => set_last_transcription_time session current_time)
            else svc in
          match _get_buffer_level svc session_id with
          | Raise e => (Raise e, svc)
          | Ret buffer_level =>
              (Ret (ChunkSuccess buffer_level current_time), svc)
          end
      end
  end.

Definition process_audio_chunk
    (svc : Service) (session_id : string) (audio_data : Wav.bytes) (now : Time)
  : outcome ChunkResult * Service :=
  match sessions svc !! session_id with
  | None => (Ret ChunkSessionNotFound, svc)
  | Some session =>
      if negb (is_recording session) then (Ret ChunkNotRecording, svc)
      else
        match process_audio_chunk_body svc session_id session audio_data now with
        | (Raise e, svc) => (Ret (ChunkError e), svc)
        | (Ret r, svc) => (Ret r, svc)
        end
  end.

Definition get_final_transcription (svc : Service) (session_id : string)
  : option str :=
  match sessions svc !! session_id with
  | None => None
  | Some session =>
      Some (default (strip (full_transcription session))
                    (final_transcription session))
  end.

End Client.

(** *** RealtimeTranscriptionManager.stop_recording *)

Inductive StopResponse : Type :=
| RecordingStopped (session_id : string) (final_transcription : option str)
                   (timestamp : Time)
| StopFailed.

Definition manager_stop_recording
    (client : nat -> Request -> outcome Transcript)
    (svc : Service) (session_id : string) (now : Time)
  : outcome StopResponse * Service :=
  match stop_recording client svc session_id with
  | (Raise e, svc) => (Raise e, svc)
  | (Ret success, svc) =>
      if success then
        (Ret (RecordingStopped session_id
                (get_final_transcription svc session_id) now), svc)
      else (Ret StopFailed, svc)
  end.

(** *** Polling, status and cleanup *)

(** The loop of [get_live_transcription] over the session's [Queue]. *)
Fixpoint drain (queue new_segments : list Segment)
  : list Segment * list Segment :=
  match queue with
  | [] => (new_segments, [])
  | segment :: queue' => drain queue' (new_segments ++ [segment])
  end.

Definition set_transcription_queue (s : Session) (q : list Segment) : Session :=
  {| created_at := created_at s;
     is_recording := is_recording s;
     audio_buffer := audio_buffer s;
     transcription_queue := q;
     full_transcription := full_transcription s;
     transcription_segments := transcription_segments s;
     last_transcription_time := last_transcription_time s;
     recording_start_time := recording_start_time s;
     final_transcription := final_transcription s |}.

Record LiveTranscription : Type := {
  live_session_id : string;
  live_is_recording : bool;
  new_segments : list Segment;
  live_full_transcription : str;
  live_segment_count : nat;
  live_buffer_level : Q
}.

(** The entries of the answer are evaluated in order: the queue is drained
    before [_get_buffer_level] is called. *)
Definition get_live_transcription (svc : Service) (session_id : string)
  : outcome (option LiveTranscription) * Service :=
  match sessions svc !! session_id with
  | None => (Ret None, svc)
  | Some session =>
      let '(new, queue') := drain (transcription_queue session) [] in
      let svc :=
        set_session svc session_id (set_transcription_queue session queue') in
      match _get_buffer_level svc session_id with
      | Raise e => (Raise e, svc)
      | Ret buffer_level =>
          (Ret (Some {| live_session_id := session_id;
                        live_is_recording := is_recording session;
                        new_segments := new;
                        live_full_transcription :=
                          strip (full_transcription session);
                        live_segment_count :=
                          length (transcription_segments session);
                        live_buffer_level := buffer_level |}),
           svc)
      end
  end.

(** No code sets the key ["recording_end_time"], so
    [session.get("recording_end_time", time.time())] is the clock. *)
Definition _get_recording_duration (svc : Service) (session_id : string)
    (now : Time) : Q :=
  match sessions svc !! session_id with
  | None => 0%Q
  | Some session =>
      match Basic.truthy (recording_start_time session) with
      | Some start_time =>
          if is_recording session then (now - start_time)%Q
          else (now - start_time)%Q
      | None => 0%Q
      end
  end.

Record Status : Type := {
  status_session_id : string;
  status_is_recording : bool;
  status_created_at : Time;
  status_full_transcription : str;
  status_segment_count : nat;
  status_recording_duration : Q;
  status_buffer_level : Q
}.

Definition get_session_status (svc : Service) (session_id : string) (now : Time)
  : outcome (option Status) :=
  match sessions svc !! session_id with
  | None => Ret None
  | Some session =>
      match _get_buffer_level svc session_id with
      | Raise e => Raise e
      | Ret buffer_level =>
          Ret (Some {| status_session_id := session_id;
                       status_is_recording := is_recording session;
                       status_created_at := created_at session;
                       status_full_transcription :=
                         strip (full_transcription session);
                       status_segment_count :=
                         length (transcription_segments session);
                       status_recording_duration :=
                         _get_recording_duration svc session_id now;
                       status_buffer_level := buffer_level |})
      end
  end.

Definition cleanup_session (svc : Service) (session_id : string)
  : bool * Service :=
  match sessions svc !! session_id with
  | Some _ => (true, set_sessions svc (delete session_id (sessions svc)))
  | None => (false, svc)
  end.

(** *** Calls on the ring-buffer service *)

Inductive Call : Type :=
| CreateSession (session_id : option string) (uuid : string)
| StartRecording (session_id : string)
| StopRecording (session_id : string)
| ProcessAudioChunk (session_id : string) (audio_data : Wav.bytes)
| GetLiveTranscription (session_id : string)
| GetSessionStatus (session_id : string)
| GetFinalTranscription (session_id : string)
| CleanupSession (session_id : string).

(** The service after one call made at time [now]. *)
Definition call (client : nat -> Request -> outcome Transcript)
    (svc : Service) (c : Time * Call) : Service :=
  let '(now, c) := c in
  match c with
  | CreateSession session_id uuid => snd (create_session svc session_id uuid now)
  | StartRecording session_id => snd (start_recording svc session_id now)
  | StopRecording session_id => snd (stop_recording client svc session_id)
  | ProcessAudioChunk session_id audio_data =>
      snd (process_audio_chunk client svc session_id audio_data now)
  | GetLiveTranscription session_id => snd (get_live_transcription svc session_id)
  | GetSessionStatus _ => svc
  | GetFinalTranscription _ => svc
  | CleanupSession session_id => snd (cleanup_session svc session_id)
  end.

(** The service after a sequence of calls, first call first. *)
Definition run (client : nat -> Request -> outcome Transcript)
    (svc : Service) (calls : list (Time * Call)) : Service :=
  foldl (call client) svc calls.

End Realtime.

(** ** The WebSocket transcriber *)

Module Websocket.

(** What an inbound message asks for: the value under ["type"], compared
    with the four known types; anything else, or no value, is [other]. *)
Inductive MessageType : Type :=
| audio_chunk
| start_recording
| stop_recording
| get_transcription
| other.

Inductive ErrorText : Type :=
| UnknownMessageType
| InvalidJsonFormat
| ProcessingError
| AudioChunkError (e : exn).

(** The messages pushed to the client. *)
Inductive Message : Type :=
| transcription_update (transcription : str) (timestamp : Time)
                       (audio_duration : Q)
| chunk_received (buffer_size : nat) (estimated_duration : Q)
| recording_started (session_id : option string)
| final_transcription (transcription : str) (timestamp : Time)
| recording_stopped (session_id : option string)
| current_transcription (transcription : str)
| no_audio_available
| error (message : ErrorText).

(** [client] is [None] when no API key was configured. *)
Record RealtimeAudioTranscriber : Type := {
  client : option (Wav.bytes -> outcome str);
  audio_buffer : Wav.bytes;
  session_id : option string
}.

(** [RealtimeAudioTranscriber(openai_api_key)] *)
Definition new_transcriber (client : option (Wav.bytes -> outcome str))
  : RealtimeAudioTranscriber :=
  {| client := client; audio_buffer := []; session_id := None |}.

Definition set_audio_buffer (t : RealtimeAudioTranscriber) (b : Wav.bytes)
  : RealtimeAudioTranscriber :=
  {| client := client t; audio_buffer := b; session_id := session_id t |}.

(** [self.min_audio_length] *)
Definition min_audio_length : Q := 2.

(** [handle_audio_chunk]: [audio_data] is the outcome of
    [base64.b64decode(data["audio_data"])]; the messages are those sent, in
    order. *)
Definition handle_audio_chunk (t : RealtimeAudioTranscriber)
    (audio_data : outcome Wav.bytes) (now : Time)
  : list Message * RealtimeAudioTranscriber :=
  match audio_data with
  | Raise e => ([error (AudioChunkError e)], t)
  | Ret audio_data =>
      let t := set_audio_buffer t (audio_buffer t ++ audio_data) in
      let estimated_duration := (Z.of_nat (length (audio_buffer t)) # 32000)%Q in
      if Qle_bool min_audio_length estimated_duration then
        let transcription :=
          fst (Wav.transcribe_audio_buffer (client t) (audio_buffer t)) in
        let update :=
          match transcription with
          | Some (c :: transcription) =>
              [transcription_update (c :: transcription) now estimated_duration]
          | _ => []
          end in
        let t := set_audio_buffer t [] in
        (update ++ [chunk_received (length (audio_buffer t)) estimated_duration],
         t)
      else
        ([chunk_received (length (audio_buffer t)) estimated_duration], t)
  end.

Definition start_recording_session (t : RealtimeAudioTranscriber)
  : list Message * RealtimeAudioTranscriber :=
  ([recording_started (session_id t)], set_audio_buffer t []).

Definition stop_recording_session (t : RealtimeAudioTranscriber) (now : Time)
  : list Message * RealtimeAudioTranscriber :=
  let final :=
    match audio_buffer t with
    | [] => []
    | _ :: _ =>
        match fst (Wav.transcribe_audio_buffer (client t) (audio_buffer t)) with
        | Some (c :: transcription) =>
            [final_transcription (c :: transcription) now]
        | _ => []
        end
    end in
  (final ++ [recording_stopped (session_id t)], set_audio_buffer t []).

Definition get_current_transcription (t : RealtimeAudioTranscriber)
  : list Message * RealtimeAudioTranscriber :=
  match audio_buffer t with
  | [] => ([no_audio_available], t)
  | _ :: _ =>
      match fst (Wav.transcribe_audio_buffer (client t) (audio_buffer t)) with
      | Some (c :: transcription) =>
          ([current_transcription (c :: transcription)], t)
      | _ => ([], t)
      end
  end.

(** An inbound text message as [json.loads] leaves it: not JSON, JSON that
    is not an object, or an object with its type and its decoded audio. *)
Inductive Inbound : Type :=
| InvalidJson
| NotAnObject
| Object (message_type : MessageType) (audio_data : outcome Wav.bytes).

Definition process_websocket_message (t : RealtimeAudioTranscriber)
    (message : Inbound) (now : Time)
  : list Message * RealtimeAudioTranscriber :=
  match message with
  | InvalidJson => ([error InvalidJsonFormat], t)
  | NotAnObject => ([error ProcessingError], t)
  | Object audio_chunk audio_data => handle_audio_chunk t audio_data now
  | Object start_recording _ => start_recording_session t
  | Object stop_recording _ => stop_recording_session t now
  | Object get_transcription _ => get_current_transcription t
  | Object other _ => ([error UnknownMessageType], t)
  end.

(** The transcriber after the messages of a connection, each with the time
    it is handled at, and everything sent meanwhile. *)
Fixpoint run (t : RealtimeAudioTranscriber) (messages : list (Time * Inbound))
  : list Message * RealtimeAudioTranscriber :=
  match messages with
  | [] => ([], t)
  | (now, message) :: messages =>
      let '(sent, t) := process_websocket_message t message now in
      let '(sent', t) := run t messages in
      (sent ++ sent', t)
  end.

(** *** RealtimeAudioManager *)

Record Session : Type := {
  created : Time;
  transcriber : RealtimeAudioTranscriber;
  accumulated_transcription : str
}.

(** [stamp] is [datetime.now().strftime("%Y%m%d_%H%M%S_%f")], the clock to
    the microsecond; [client] is what the environment configures. *)
Definition create_session (active_sessions : gmap string Session)
    (client : option (Wav.bytes -> outcome str)) (stamp : string) (now : Time)
  : string * gmap string Session :=
  (stamp,
   <[stamp := {| created := now;
                 transcriber := new_transcriber client;
                 accumulated_transcription := [] |}]> active_sessions).

Definition get_session (active_sessions : gmap string Session)
    (session_id : string) : option Session :=
  active_sessions !! session_id.

Definition close_session (active_sessions : gmap string Session)
    (session_id : string) : gmap string Session :=
  match active_sessions !! session_id with
  | Some _ => delete session_id active_sessions
  | None => active_sessions
  end.

Definition get_active_sessions_count (active_sessions : gmap string Session)
  : nat :=
  size active_sessions.

End Websocket.

(** ** The HTTP and WebSocket interfaces ([src/api/main.py]) *)

Module Api.

(** [realtime_transcription_manager] is the module-level manager of the
    basic service, [None] when no API key is configured. Each handler
    raises [HTTPException(500)] without a manager, and turns any exception
    of the manager into one. *)

Definition create_audio_session (manager : option Basic.Manager)
    (uuid : string) (now : Time)
  : outcome (string * Time) * option Basic.Manager :=
  match manager with
  | None => (Raise (HTTPException 500), None)
  | Some m =>
      let '(session_id, m) := Basic.manager_create_session m uuid now in
      (Ret (session_id, now), Some m)
  end.

Definition start_recording (manager : option Basic.Manager)
    (session_id : string) (now : Time)
  : outcome Basic.StartResponse * option Basic.Manager :=
  match manager with
  | None => (Raise (HTTPException 500), None)
  | Some m =>
      let '(result, m) := Basic.manager_start_recording m session_id now in
      (Ret result, Some m)
  end.

Definition stop_recording (manager : option Basic.Manager)
    (session_id : string) (now : Time)
  : outcome Basic.StopResponse * option Basic.Manager :=
  match manager with
  | None => (Raise (HTTPException 500), None)
  | Some m =>
      let '(result, m) := Basic.manager_stop_recording m session_id now in
      (Ret result, Some m)
  end.

(** [None] in the answer is the dictionary [{"error": "Session not found"}]. *)
Definition get_session_status (manager : option Basic.Manager)
    (session_id : string) (now : Time)
  : outcome (option Basic.Status) :=
  match manager with
  | None => Raise (HTTPException 500)
  | Some m => Ret (Basic.manager_get_session_info m session_id now)
  end.

Definition get_transcription_updates (manager : option Basic.Manager)
    (session_id : string)
  : outcome (option Basic.LiveTranscription) * option Basic.Manager :=
  match manager with
  | None => (Raise (HTTPException 500), None)
  | Some m =>
      let '(result, m) := Basic.manager_get_transcription_updates m session_id in
      (Ret result, Some m)
  end.

(** *** The WebSocket endpoint *)

(** A JSON control message, with the string values under its keys. *)
Record Control : Type := {
  action : option string;
  type_ : option string;
  audio_data : option string
}.

(** What [websocket.receive()] returns: binary data, or text that is not
    JSON, is JSON but no object, or is a control message; or a message
    with neither. *)
Inductive Frame : Type :=
| BytesFrame (audio_bytes : Wav.bytes)
| InvalidJsonFrame
| NotAnObjectFrame
| ControlFrame (control_data : Control)
| OtherFrame.

Inductive ErrorText : Type :=
| ServiceNotAvailable
| InvalidJsonInControlMessage
| ErrorProcessingAudioChunk (e : exn)
| UnknownAction (action : option string)
| ExceptionText.

Inductive Outbound : Type :=
| connection_established (session_id : string) (timestamp : Time)
| audio_processed (result : Basic.ProcessResult)
| transcription_update (data : Basic.LiveTranscription)
| recording_started (result : Basic.StartResponse)
| recording_stopped (result : Basic.StopResponse)
| session_status (data : option Basic.Status)
| error (message : ErrorText).

(** [a or b] on optional strings: [a] unless it is absent or empty. *)
Definition or_else (a b : option string) : option string :=
  match a with
  | Some EmptyString | None => b
  | Some _ => a
  end.

Section Handler.
Variable client : nat -> Wav.bytes -> outcome Basic.Transcript.
(** [base64.b64decode] *)
Variable b64decode : string -> outcome Wav.bytes.

(** The audio is processed, the result is sent, and the session is polled:
    a [transcription_update] follows if the poll found new segments.
    [on_error] words the exception of the processing. *)
Definition process_and_push (m : Basic.Manager) (session_id : string)
    (audio : Wav.bytes) (now : Time) (on_error : exn -> ErrorText)
  : list Outbound * Basic.Manager :=
  match Basic.manager_process_audio_data client m session_id audio now with
  | (Raise e, m) => ([error (on_error e)], m)
  | (Ret result, m) =>
      let '(transcription_update_, m) :=
        Basic.manager_get_transcription_updates m session_id in
      ([audio_processed result]
         ++ match transcription_update_ with
            | Some data =>
                match Basic.new_segments data with
                | [] => []
                | _ :: _ => [transcription_update data]
                end
            | None => []
            end,
       m)
  end.

(** One turn of the receive loop. *)
Definition handle_frame (m : Basic.Manager) (session_id : string)
    (message : Frame) (now : Time)
  : list Outbound * Basic.Manager :=
  match message with
  | BytesFrame audio_bytes =>
      process_and_push m session_id audio_bytes now (fun _ => ExceptionText)
  | InvalidJsonFrame => ([error InvalidJsonInControlMessage], m)
  | NotAnObjectFrame => ([error ExceptionText], m)
  | ControlFrame control_data =>
      let action := or_else (action control_data) (type_ control_data) in
      if decide (action = Some "start_recording"%string) then
        let '(result, m) := Basic.manager_start_recording m session_id now in
        ([recording_started result], m)
      else if decide (action = Some "stop_recording"%string) then
        let '(result, m) := Basic.manager_stop_recording m session_id now in
        ([recording_stopped result], m)
      else if decide (action = Some "get_status"%string) then
        ([session_status (Basic.manager_get_session_info m session_id now)], m)
      else if decide (action = Some "audio_chunk"%string) then
        match audio_data control_data with
        | None | Some EmptyString => ([], m)
        | Some audio_data =>
            match b64decode audio_data with
            | Raise e => ([error (ErrorProcessingAudioChunk e)], m)
            | Ret decoded_audio =>
                process_and_push m session_id decoded_audio now
                                 ErrorProcessingAudioChunk
            end
        end
      else ([error (UnknownAction action)], m)
  | OtherFrame => ([], m)
  end.

(** The receive loop over the frames that arrive before the connection
    closes, each with the time it is handled at. *)
Fixpoint receive_loop (m : Basic.Manager) (session_id : string)
    (frames : list (Time * Frame)) : list Outbound * Basic.Manager :=
  match frames with
  | [] => ([], m)
  | (now, message) :: frames =>
      let '(sent, m) := handle_frame m session_id message now in
      let '(sent', m) := receive_loop m session_id frames in
      (sent ++ sent', m)
  end.

(** [websocket_audio_stream]: everything sent on the connection, and the
    manager once the [finally] clause has cleaned the session up. *)
Definition websocket_audio_stream (manager : option Basic.Manager)
    (session_id : string) (opened : Time) (frames : list (Time * Frame))
  : list Outbound * option Basic.Manager :=
  match manager with
  | None => ([error ServiceNotAvailable], None)
  | Some m =>
      let '(sent, m) := receive_loop m session_id frames in
      (connection_established session_id opened :: sent,
       Some (snd (Basic.manager_cleanup_session m session_id)))
  end.

End Handler.

End Api.

(** ** Invariants and traces used by the properties *)

(** The ring buffer [b] holds the history [h] of written samples: read from
    the write cursor round, its cells are the last [buffer_size] samples of
    the initial zeros followed by [h]. *)
Definition ring_inv {A} (zero : A) (b : AudioBuffer.t A) (h : list A) : Prop :=
  length (AudioBuffer.buffer b) = AudioBuffer.buffer_size b
  /\ AudioBuffer.write_index b < AudioBuffer.buffer_size b
  /\ drop (AudioBuffer.write_index b) (AudioBuffer.buffer b)
       ++ take (AudioBuffer.write_index b) (AudioBuffer.buffer b)
     = slice_last (AudioBuffer.buffer_size b)
         (replicate (AudioBuffer.buffer_size b) zero ++ h)
  /\ (AudioBuffer.is_full b = true -> AudioBuffer.buffer_size b <= length h)
  /\ (AudioBuffer.is_full b = false -> AudioBuffer.write_index b <= length h).

(** *** Calls on the basic service *)

(** One call on [BasicRealtimeAudioService], as the manager and the HTTP and
    WebSocket handlers make them. *)
Inductive Call : Type :=
| CreateSession (session_id : option string) (uuid : string)
| StartRecording (session_id : string)
| StopRecording (session_id : string)
| ProcessAudioData (session_id : string) (audio_data : Wav.bytes)
| TranscribeAudioFile (session_id : string) (audio_file : Wav.bytes)
| GetSessionStatus (session_id : string)
| GetLiveTranscription (session_id : string)
| GetFinalTranscription (session_id : string)
| CleanupSession (session_id : string).

(** The service after one call made at time [now]. *)
Definition call (client : nat -> Wav.bytes -> outcome Basic.Transcript)
    (svc : Basic.Service) (c : Time * Call) : Basic.Service :=
  let '(now, c) := c in
  match c with
  | CreateSession session_id uuid =>
      snd (Basic.create_session svc session_id uuid now)
  | StartRecording session_id => snd (Basic.start_recording svc session_id now)
  | StopRecording session_id => snd (Basic.stop_recording svc session_id now)
  | ProcessAudioData session_id audio_data =>
      snd (Basic.process_audio_data client svc session_id audio_data now)
  | TranscribeAudioFile session_id audio_file =>
      snd (Basic.transcribe_audio_file client svc session_id audio_file now)
  | GetSessionStatus _ => svc
  | GetLiveTranscription session_id =>
      snd (Basic.get_live_transcription svc session_id)
  | GetFinalTranscription _ => svc
  | CleanupSession session_id => snd (Basic.cleanup_session svc session_id)
  end.

(** The service after a sequence of calls, first call first. *)
Definition run (client : nat -> Wav.bytes -> outcome Basic.Transcript)
    (svc : Basic.Service) (calls : list (Time * Call)) : Basic.Service :=
  foldl (call client) svc calls.

(** *** Calls on the basic manager *)

Inductive ManagerCall : Type :=
| MCreateSession (uuid : string)
| MStartRecording (session_id : string)
| MStopRecording (session_id : string)
| MProcessAudioData (session_id : string) (audio_data : Wav.bytes)
| MTranscribeUploadedAudio (session_id : string) (audio_file : Wav.bytes)
| MGetTranscriptionUpdates (session_id : string)
| MGetSessionInfo (session_id : string)
| MCleanupSession (session_id : string).

(** The manager after one call made at time [now]. *)
Definition manager_call (client : nat -> Wav.bytes -> outcome Basic.Transcript)
    (m : Basic.Manager) (c : Time * ManagerCall) : Basic.Manager :=
  let '(now, c) := c in
  match c with
  | MCreateSession uuid => snd (Basic.manager_create_session m uuid now)
  | MStartRecording session_id =>
      snd (Basic.manager_start_recording m session_id now)
  | MStopRecording session_id =>
      snd (Basic.manager_stop_recording m session_id now)
  | MProcessAudioData session_id audio_data =>
      snd (Basic.manager_process_audio_data client m session_id audio_data now)
  | MTranscribeUploadedAudio session_id audio_file =>
      snd (Basic.manager_transcribe_uploaded_audio client m session_id
             audio_file now)
  | MGetTranscriptionUpdates session_id =>
      snd (Basic.manager_get_transcription_updates m session_id)
  | MGetSessionInfo _ => m
  | MCleanupSession session_id => snd (Basic.manager_cleanup_session m session_id)
  end.

Definition manager_run (client : nat -> Wav.bytes -> outcome Basic.Transcript)
    (m : Basic.Manager) (calls : list (Time * ManagerCall)) : Basic.Manager :=
  foldl (manager_call client) m calls.

(** The session a call on the basic service is about. *)
Definition target (c : Call) : string :=
  match c with
  | CreateSession session_id uuid => default uuid session_id
  | StartRecording session_id
  | StopRecording session_id
  | ProcessAudioData session_id _
  | TranscribeAudioFile session_id _
  | GetSessionStatus session_id
  | GetLiveTranscription session_id
  | GetFinalTranscription session_id
  | CleanupSession session_id => session_id
  end.

(** *** Appends and polls on one session *)







(** *** Transcript texts *)

(** A non-empty text whose first character is not whitespace. *)
Definition clean_head (t : str) : Prop :=
  match t with
  | [] => False
  | c :: _ => isspace c = false
  end.

(** A non-empty text with no whitespace at either end. *)
Definition solid (t : str) : Prop := clean_head t /\ clean_head (rev t).

(** The way [add_transcription_segment] accumulates texts: each one
    preceded by a space. *)
Definition spaced (texts : list str) : str :=
  concat (map (fun t => SPACE :: t) texts).

(** The transcript of a session is derived from its segment log. *)
Definition session_inv (s : Basic.BasicAudioSession) : Prop :=
  Basic.full_transcription s
  = spaced (map Basic.text (Basic.transcription_segments s))
  /\ Forall solid (map Basic.text (Basic.transcription_segments s)).

(** Every session of the service has its transcript derived from its log. *)
Definition service_inv (svc : Basic.Service) : Prop :=
  map_Forall (fun _ s => session_inv s) (Basic.sessions svc).

(** No session of the service has any transcript. *)
Definition no_transcript (svc : Basic.Service) : Prop :=
  map_Forall (fun _ s => Basic.transcription_segments s = []
                         /\ Basic.full_transcription s = [])
             (Basic.sessions svc).

(** The collaborator raises on every call. *)
Definition always_fails {Req Resp} (client : nat -> Req -> outcome Resp) : Prop :=
  forall n request, exists e, client n request = Raise e.

(** *** Reachable sessions *)

(** A session of the basic service stored under [sid]: it carries that id,
    its delivery queue holds the latest entries of its segment log, and
    every logged segment names the session and has a non-empty text with
    no whitespace at either end. *)
Definition well_formed (sid : string) (s : Basic.BasicAudioSession) : Prop :=
  Basic.session_id s = sid
  /\ (exists delivered,
        Basic.transcription_segments s = delivered ++ Basic.transcription_queue s)
  /\ Forall (fun segment => Basic.segment_session_id segment = sid
                            /\ solid (Basic.text segment))
            (Basic.transcription_segments s).

(** A session of the ring-buffer service: its transcript is derived from
    its segment log and its queue holds the latest entries of the log. *)
Definition realtime_session_inv (s : Realtime.Session) : Prop :=
  Realtime.full_transcription s
  = spaced (map Realtime.text (Realtime.transcription_segments s))
  /\ Forall solid (map Realtime.text (Realtime.transcription_segments s))
  /\ exists delivered,
      Realtime.transcription_segments s
      = delivered ++ Realtime.transcription_queue s.

(** The ring buffer of a session holds some history of samples. *)
Definition realtime_buffer_inv (s : Realtime.Session) : Prop :=
  exists h, ring_inv 0%Z (Realtime.audio_buffer s) h.

(** The configuration set by [RealtimeAudioService.__init__]. *)
Definition default_config (svc : Realtime.Service) : Prop :=
  Realtime.sample_rate svc = 16000%Z
  /\ Realtime.chunk_duration svc = 3%Q
  /\ Realtime.buffer_duration svc = 30%Q.

(** The service keeps its default configuration and all its sessions
    satisfy [P]. *)
Definition sessions_satisfy (P : Realtime.Session -> Prop)
    (svc : Realtime.Service) : Prop :=
  default_config svc /\ map_Forall (fun _ => P) (Realtime.sessions svc).

(** A session of the ring-buffer service that has no transcript at all. *)
Definition realtime_silent (s : Realtime.Session) : Prop :=
  Realtime.transcription_segments s = []
  /\ Realtime.full_transcription s = []
  /\ Realtime.transcription_queue s = []
  /\ Realtime.final_transcription s = None.

(** The segments delivered by the [transcription_update] messages among
    the messages sent on a connection, in the order sent. *)
Definition pushed (sent : list Api.Outbound) : list Basic.Segment :=
  flat_map (fun o => match o with
                     | Api.transcription_update data => Basic.new_segments data
                     | _ => []
                     end) sent.

(** A reply that says the session is unknown. *)
Definition session_not_found (o : Api.Outbound) : Prop :=
  match o with
  | Api.audio_processed result => result = Basic.ProcessSessionNotFound
  | Api.recording_started result => result = Basic.StartFailed
  | Api.recording_stopped result => result = Basic.StopFailed
  | Api.session_status data => data = None
  | Api.error _ => True
  | Api.connection_established _ _ | Api.transcription_update _ => False
  end.

(** * Properties *)

(** ** Python sequences *)

Lemma slice_last_length {A} n (l : list A) :
  0 < n -> n <= length l -> length (slice_last n l) = n.
Proof.
  intros Hpos Hn. unfold slice_last. destruct (Nat.eqb_spec n 0) as [->|Hz].
  - lia.
  - rewrite length_drop. lia.
Qed.

Lemma slice_last_app_ge {A} n (h d : list A) :
  0 < n -> n <= length d -> slice_last n (h ++ d) = slice_last n d.
Proof.
  intros Hpos Hn. unfold slice_last.
  destruct (Nat.eqb_spec n 0) as [->|_]; [lia|].
  rewrite length_app, drop_app_ge by lia. f_equal. lia.
Qed.

Lemma slice_last_snoc {A} n (x d : list A) :
  0 < n -> n <= length x -> length d <= n ->
  slice_last n (x ++ d) = drop (length d) (slice_last n x) ++ d.
Proof.
  intros Hpos Hx Hd. unfold slice_last.
  destruct (Nat.eqb_spec n 0) as [->|_]; [lia|].
  rewrite length_app, drop_app_le by lia.
  rewrite drop_drop. do 2 f_equal. lia.
Qed.

(** Writing [d] at cursor [wi] without wrapping, seen from the cursor. *)
Lemma rotate_fit {A} (buf d : list A) wi :
  wi + length d <= length buf ->
  let buf' := slice_assign buf wi (wi + length d) d in
  let wi' := (wi + length d) mod length buf in
  length buf' = length buf
  /\ drop wi' buf' ++ take wi' buf'
     = drop (length d) (drop wi buf ++ take wi buf) ++ d.
Proof.
  intros Hfit. unfold slice_assign. simpl.
  assert (Htk : length (take wi buf) = wi) by (rewrite length_take; lia).
  split.
  { rewrite !length_app, Htk, length_drop. lia. }
  rewrite (drop_app_le (drop wi buf)) by (rewrite length_drop; lia).
  rewrite drop_drop.
  destruct (decide (wi + length d = length buf)) as [Heq|Hne].
  - rewrite Heq, Nat.Div0.mod_same, drop_0, take_0, drop_all. simpl.
    rewrite !app_nil_r. reflexivity.
  - rewrite Nat.mod_small by lia.
    rewrite (assoc_L (++) (take wi buf) d).
    assert (Hl : length (take wi buf ++ d) = wi + length d)
      by (rewrite length_app; lia).
    rewrite drop_app_ge, take_app_ge by lia.
    rewrite Hl, Nat.sub_diag, drop_0, take_0, app_nil_r.
    rewrite (assoc_L (++)). reflexivity.
Qed.

(** Writing [d] at cursor [wi] across the end of the buffer, seen from the
    new cursor. *)
Lemma rotate_wrap {A} (buf d : list A) wi :
  wi < length buf -> length d < length buf -> length buf < wi + length d ->
  let first := length buf - wi in
  let buf1 := slice_assign buf wi (length buf) (take first d) in
  let buf2 := slice_assign buf1 0 (length d - first) (drop first d) in
  let wi' := length d - first in
  length buf2 = length buf
  /\ drop wi' buf2 ++ take wi' buf2
     = drop (length d) (drop wi buf ++ take wi buf) ++ d.
Proof.
  intros Hwi Hd Hwrap. unfold slice_assign. simpl.
  rewrite drop_all, app_nil_r.
  set (first := length buf - wi).
  assert (Htk : length (take wi buf) = wi) by (rewrite length_take; lia).
  assert (Hdd : length (drop first d) = length d - first)
    by (rewrite length_drop; lia).
  assert (Hb1 : length (take wi buf ++ take first d) = length buf)
    by (rewrite length_app, Htk, length_take; lia).
  split.
  { rewrite length_app, Hdd, length_drop, Hb1. lia. }
  rewrite (drop_app_ge (drop wi buf)) by (rewrite length_drop; lia).
  rewrite length_drop. fold first.
  rewrite drop_app_ge, take_app_ge by lia.
  rewrite Hdd, Nat.sub_diag, drop_0, take_0, app_nil_r.
  rewrite drop_app_le by lia.
  rewrite <- !(assoc_L (++)), take_drop. reflexivity.
Qed.

(** ** The ring buffer *)

Section RingBuffer.
Context {A : Type} (zero : A).
Implicit Types (b : AudioBuffer.t A) (h d : list A).

Lemma ring_inv_init sr dur :
  0 < to_samples sr dur -> ring_inv zero (AudioBuffer.init zero sr dur) [].
Proof.
  intros Hpos. unfold ring_inv, AudioBuffer.init; simpl.
  rewrite length_replicate, app_nil_r.
  repeat split; try lia; try discriminate.
  unfold slice_last. destruct (Nat.eqb_spec (to_samples sr dur) 0); [lia|].
  rewrite ?app_nil_r, length_replicate, Nat.sub_diag. reflexivity.
Qed.

Lemma write_buffer_size b d :
  AudioBuffer.buffer_size (AudioBuffer.write b d) = AudioBuffer.buffer_size b.
Proof. unfold AudioBuffer.write. repeat case_match; reflexivity. Qed.

Lemma write_sample_rate b d :
  AudioBuffer.sample_rate (AudioBuffer.write b d) = AudioBuffer.sample_rate b.
Proof. unfold AudioBuffer.write. repeat case_match; reflexivity. Qed.

Lemma ring_inv_write b h d :
  ring_inv zero b h -> ring_inv zero (AudioBuffer.write b d) (h ++ d).
Proof.
  intros (Hlen & Hwi & Hrot & Hfull & Hnot).
  assert (Hx : AudioBuffer.buffer_size b
               <= length (replicate (AudioBuffer.buffer_size b) zero ++ h))
    by (rewrite length_app, length_replicate; lia).
  unfold ring_inv. rewrite write_buffer_size.
  rewrite (assoc_L (++) (replicate _ zero)).
  unfold AudioBuffer.write.
  destruct (Nat.leb_spec (AudioBuffer.buffer_size b) (length d))
    as [Hbig|Hsmall]; simpl.
  - (* the data covers the whole buffer *)
    rewrite drop_0, app_nil_r, length_app.
    split; [apply slice_last_length; lia|].
    split; [lia|].
    split; [symmetry; apply slice_last_app_ge; lia|].
    split; [lia|discriminate].
  - rewrite slice_last_snoc, <- Hrot by lia.
    destruct (Nat.leb_spec (AudioBuffer.write_index b + length d)
                           (AudioBuffer.buffer_size b)) as [Hfit|Hwrap]; simpl.
    + (* the data fits without wrapping *)
      destruct (rotate_fit (AudioBuffer.buffer b) d (AudioBuffer.write_index b))
        as [Hl Hr]; [lia|].
      rewrite <- Hlen.
      split; [exact Hl|].
      split; [apply Nat.mod_upper_bound; lia|].
      split; [exact Hr|].
      rewrite length_app.
      split; [intros Hf; specialize (Hfull Hf); lia|].
      intros Hf. specialize (Hnot Hf).
      pose proof (Nat.Div0.mod_le (AudioBuffer.write_index b + length d)
                    (length (AudioBuffer.buffer b))). lia.
    + (* the data wraps around *)
      destruct (rotate_wrap (AudioBuffer.buffer b) d (AudioBuffer.write_index b))
        as [Hl Hr]; [lia..|].
      rewrite <- Hlen.
      split; [exact Hl|].
      split; [lia|].
      split; [exact Hr|].
      rewrite length_app.
      split; [|discriminate].
      intros _.
      destruct (AudioBuffer.is_full b) eqn:Hf.
      * specialize (Hfull eq_refl). lia.
      * specialize (Hnot eq_refl). lia.
Qed.

Lemma ring_inv_writes chunks b h :
  ring_inv zero b h ->
  ring_inv zero (AudioBuffer.writes b chunks) (h ++ AudioBuffer.written chunks).
Proof.
  unfold AudioBuffer.writes, AudioBuffer.written.
  revert b h. induction chunks as [|d chunks IH]; intros b h Hinv; simpl.
  - rewrite app_nil_r. exact Hinv.
  - rewrite (assoc_L (++)). apply IH, ring_inv_write, Hinv.
Qed.

(** Reading the whole capacity of a buffer marked full gives the most
    recently written [buffer_size] samples, oldest first. *)
Lemma read_full_capacity b h duration :
  ring_inv zero b h ->
  AudioBuffer.is_full b = true ->
  AudioBuffer.buffer_size b
    <= to_samples (AudioBuffer.sample_rate b) duration ->
  AudioBuffer.read_last_seconds b duration
  = slice_last (AudioBuffer.buffer_size b) h.
Proof.
  intros (Hlen & Hwi & Hrot & Hfull & _) Hf Hdur.
  specialize (Hfull Hf).
  unfold AudioBuffer.read_last_seconds.
  rewrite Hf, Nat.min_r by lia. simpl.
  destruct (Nat.leb_spec (AudioBuffer.buffer_size b) (AudioBuffer.write_index b));
    [lia|].
  replace (AudioBuffer.buffer_size b
           - (AudioBuffer.buffer_size b - AudioBuffer.write_index b))
    with (AudioBuffer.write_index b) by lia.
  rewrite Hrot. apply slice_last_app_ge; lia.
Qed.

(** A buffer not marked full gives back at most its cursor's worth of
    samples, fewer than the capacity. *)
Lemma read_not_full_short b h duration :
  ring_inv zero b h ->
  AudioBuffer.is_full b = false ->
  length (AudioBuffer.read_last_seconds b duration) < AudioBuffer.buffer_size b.
Proof.
  intros (Hlen & Hwi & _) Hf.
  unfold AudioBuffer.read_last_seconds. rewrite Hf. simpl.
  set (samples := to_samples _ _ `min` _).
  assert (samples <= AudioBuffer.buffer_size b) by (unfold samples; lia).
  destruct (Nat.ltb_spec (AudioBuffer.write_index b) samples); simpl.
  - rewrite length_take. lia.
  - destruct (Nat.leb_spec samples (AudioBuffer.write_index b)); [|lia].
    unfold slice. rewrite length_take, length_drop. lia.
Qed.


Lemma writes_buffer_size chunks b :
  AudioBuffer.buffer_size (AudioBuffer.writes b chunks)
  = AudioBuffer.buffer_size b.
Proof.
  unfold AudioBuffer.writes. revert b.
  induction chunks as [|d chunks IH]; intros b; simpl; [reflexivity|].
  rewrite IH. apply write_buffer_size.
Qed.

Lemma writes_sample_rate chunks b :
  AudioBuffer.sample_rate (AudioBuffer.writes b chunks)
  = AudioBuffer.sample_rate b.
Proof.
  unfold AudioBuffer.writes. revert b.
  induction chunks as [|d chunks IH]; intros b; simpl; [reflexivity|].
  rewrite IH. apply write_sample_rate.
Qed.

(** The duration [capacity / sample_rate], taken as an exact rational,
    selects the whole capacity; a float quotient can round to one sample
    fewer. *)
Lemma to_samples_capacity (sr : Z) (capacity : nat) :
  (0 < sr)%Z ->
  to_samples sr (inject_Z (Z.of_nat capacity) / inject_Z sr) = capacity.
Proof.
  intros Hsr. unfold to_samples.
  assert (Heq : (inject_Z sr * (inject_Z (Z.of_nat capacity) / inject_Z sr)
                 == inject_Z (Z.of_nat capacity))%Q).
  { field. intros H0. unfold Qeq in H0. simpl in H0. lia. }
  rewrite (Qfloor_comp _ _ Heq), Qfloor_Z. apply Nat2Z.id.
Qed.

(** After any sequence of writes that leaves the buffer marked full,
    reading [capacity / sample_rate] seconds, an exact rational, gives the
    last [capacity] samples written, oldest first. *)
Lemma read_capacity_when_full sr dur chunks :
  (0 < sr)%Z ->
  let b0 := AudioBuffer.init zero sr dur in
  let b := AudioBuffer.writes b0 chunks in
  0 < AudioBuffer.buffer_size b0 ->
  AudioBuffer.is_full b = true ->
  AudioBuffer.read_last_seconds b
    (inject_Z (Z.of_nat (AudioBuffer.buffer_size b0)) / inject_Z sr)
  = slice_last (AudioBuffer.buffer_size b0) (AudioBuffer.written chunks).
Proof.
  intros Hsr b0 b Hpos Hf.
  pose proof (ring_inv_writes chunks b0 [] (ring_inv_init sr dur Hpos)) as Hinv.
  simpl in Hinv. fold b in Hinv.
  assert (Hbs : AudioBuffer.buffer_size b = AudioBuffer.buffer_size b0)
    by apply writes_buffer_size.
  assert (Hsr' : AudioBuffer.sample_rate b = sr)
    by apply writes_sample_rate.
  rewrite <- Hbs. apply read_full_capacity with (h := AudioBuffer.written chunks).
  - exact Hinv.
  - exact Hf.
  - rewrite Hsr', to_samples_capacity by exact Hsr. lia.
Qed.

(** At any capacity: a write that ends exactly on the capacity boundary of
    a buffer not yet marked full leaves it unmarked, and after one more
    write the read gives that last write alone. *)
Lemma read_after_boundary_write b d1 d2 duration :
  length (AudioBuffer.buffer b) = AudioBuffer.buffer_size b ->
  AudioBuffer.is_full b = false ->
  AudioBuffer.write_index b + length d1 = AudioBuffer.buffer_size b ->
  length d1 < AudioBuffer.buffer_size b ->
  length d2 < AudioBuffer.buffer_size b ->
  AudioBuffer.buffer_size b <= to_samples (AudioBuffer.sample_rate b) duration ->
  AudioBuffer.is_full (AudioBuffer.write (AudioBuffer.write b d1) d2) = false
  /\ AudioBuffer.read_last_seconds
       (AudioBuffer.write (AudioBuffer.write b d1) d2) duration = d2.
Proof.
  intros Hlen Hf Hend Hd1 Hd2 Hdur.
  assert (Hw1 : AudioBuffer.write_index (AudioBuffer.write b d1) = 0
                /\ AudioBuffer.is_full (AudioBuffer.write b d1) = false).
  { unfold AudioBuffer.write.
    destruct (Nat.leb_spec (AudioBuffer.buffer_size b) (length d1)); [lia|].
    destruct (Nat.leb_spec (AudioBuffer.write_index b + length d1)
                           (AudioBuffer.buffer_size b)); [|lia].
    simpl. rewrite Hend, Nat.Div0.mod_same. split; [reflexivity|exact Hf]. }
  destruct Hw1 as [Hwi1 Hf1].
  pose proof (write_buffer_size b d1) as Hbs1.
  pose proof (write_sample_rate b d1) as Hsr1.
  set (b1 := AudioBuffer.write b d1) in *.
  unfold AudioBuffer.read_last_seconds, AudioBuffer.write.
  rewrite Hbs1, Hwi1, Hf1.
  destruct (Nat.leb_spec (AudioBuffer.buffer_size b) (length d2)); [lia|].
  destruct (Nat.leb_spec (0 + length d2) (AudioBuffer.buffer_size b)); [|lia].
  cbn [AudioBuffer.is_full AudioBuffer.write_index AudioBuffer.buffer
       AudioBuffer.buffer_size AudioBuffer.sample_rate negb andb].
  split; [reflexivity|].
  rewrite Hsr1, Nat.add_0_l, Nat.mod_small, Nat.min_r by lia.
  destruct (Nat.ltb_spec (length d2) (AudioBuffer.buffer_size b)); [|lia].
  unfold slice_assign. rewrite take_0. cbn [app].
  rewrite take_app_length. reflexivity.
Qed.

End RingBuffer.

(** C1 (the code departs from the claim). A capacity of 4 samples, written
    with [1,2], then [3,4] (which ends exactly at the capacity boundary),
    then [5]: five samples were written, the last four are [2,3,4,5], and
    [read_last_seconds(capacity / sample_rate)] returns [5] alone, because
    the write that ended on the boundary moved the cursor to 0 without
    marking the buffer full. *)
Theorem read_last_seconds_after_boundary_write :
  let b0 := AudioBuffer.init 0%Z 4 1 in
  let chunks := [[1; 2]; [3; 4]; [5]]%Z in
  let b := AudioBuffer.writes b0 chunks in
  AudioBuffer.buffer_size b0 = 4
  /\ length (AudioBuffer.written chunks) = 5
  /\ slice_last 4 (AudioBuffer.written chunks) = [2; 3; 4; 5]%Z
  /\ AudioBuffer.is_full b = false
  /\ AudioBuffer.read_last_seconds b (inject_Z 4 / inject_Z 4) = [5]%Z.
Proof. vm_compute. repeat split. Qed.

(** ** The WAV container *)

Lemma from_bytes_le_digits (k : nat) (n : Z) :
  (0 <= n < 256 ^ Z.of_nat k)%Z -> Wav.from_bytes (Wav.le_digits k n) = n.
Proof.
  revert n. induction k as [|k IH]; intros n Hn.
  - simpl in *. lia.
  - rewrite Nat2Z.inj_succ, Z.pow_succ_r in Hn by lia.
    cbn [Wav.le_digits Wav.from_bytes].
    rewrite IH.
    + pose proof (Z.div_mod n 256). lia.
    + split; [apply Z.div_pos; lia|].
      apply Z.div_lt_upper_bound; lia.
Qed.

Lemma to_bytes_in_range (n : Z) (k : nat) :
  (0 <= n < 256 ^ Z.of_nat k)%Z -> Wav.to_bytes n k = Ret (Wav.le_digits k n).
Proof.
  intros [H0 H1]. unfold Wav.to_bytes.
  destruct (Z.leb_spec 0 n); [|lia].
  destruct (Z.ltb_spec n (256 ^ Z.of_nat k)); [|lia]. reflexivity.
Qed.

Lemma to_bytes_out_of_range (n : Z) (k : nat) :
  (256 ^ Z.of_nat k <= n)%Z -> Wav.to_bytes n k = Raise OverflowError.
Proof.
  intros H1. unfold Wav.to_bytes.
  destruct (Z.ltb_spec n (256 ^ Z.of_nat k)); [lia|].
  rewrite andb_false_r. reflexivity.
Qed.

(** The 44 header bytes written for a payload of [n] bytes. *)
Lemma write_wav_in_range (audio_buffer : Wav.bytes) :
  let n := Z.of_nat (length audio_buffer) in
  (n + 36 < 2 ^ 32)%Z ->
  Wav.write_wav audio_buffer
  = Ret (Wav.ascii_bytes "RIFF" ++ Wav.le_digits 4 (n + 36)
         ++ Wav.ascii_bytes "WAVE" ++ Wav.ascii_bytes "fmt "
         ++ [16; 0; 0; 0; 1; 0; 1; 0; 128; 62; 0; 0; 0; 125; 0; 0; 2; 0; 16; 0]%Z
         ++ Wav.ascii_bytes "data" ++ Wav.le_digits 4 n ++ audio_buffer).
Proof.
  intros n Hn. unfold Wav.write_wav. fold n.
  assert (Hpos : (0 <= n)%Z) by (unfold n; lia).
  rewrite (to_bytes_in_range (n + 36) 4) by (change (256 ^ Z.of_nat 4)%Z with (2 ^ 32)%Z; lia).
  rewrite (to_bytes_in_range n 4) by (change (256 ^ Z.of_nat 4)%Z with (2 ^ 32)%Z; lia).
  cbn [mbind outcome_bind].
  change (Wav.to_bytes 16 4) with (Ret [16; 0; 0; 0]%Z).
  change (Wav.to_bytes 1 2) with (Ret [1; 0]%Z).
  change (Wav.to_bytes 16000 4) with (Ret [128; 62; 0; 0]%Z).
  change (Wav.to_bytes (16000 * 1 * 16 / 8) 4) with (Ret [0; 125; 0; 0]%Z).
  change (Wav.to_bytes (1 * 16 / 8) 2) with (Ret [2; 0]%Z).
  change (Wav.to_bytes 16 2) with (Ret [16; 0]%Z).
  cbn [mbind outcome_bind].
  rewrite <- !(assoc_L (++)). reflexivity.
Qed.

Lemma write_wav_overflow (audio_buffer : Wav.bytes) :
  (2 ^ 32 <= Z.of_nat (length audio_buffer) + 36)%Z ->
  Wav.write_wav audio_buffer = Raise OverflowError.
Proof.
  intros Hn. unfold Wav.write_wav.
  rewrite (to_bytes_out_of_range (Z.of_nat (length audio_buffer) + 36) 4)
    by (change (256 ^ Z.of_nat 4)%Z with (2 ^ 32)%Z; lia).
  reflexivity.
Qed.

(** A container is produced exactly for payloads the 32-bit size fields
    can describe. *)
Lemma create_temp_wav_is_Some (audio_buffer : Wav.bytes) :
  is_Some (Wav._create_temp_wav_from_buffer audio_buffer)
  <-> (Z.of_nat (length audio_buffer) + 36 < 2 ^ 32)%Z.
Proof.
  unfold Wav._create_temp_wav_from_buffer.
  destruct (Z.lt_ge_cases (Z.of_nat (length audio_buffer) + 36) (2 ^ 32)) as [H|H].
  - rewrite write_wav_in_range by exact H. split; [intros _; exact H|eauto].
  - rewrite write_wav_overflow by exact H.
    split; [intros [x Hx]; discriminate|lia].
Qed.

(** C8. Every container written for a payload of [n] bytes is a canonical
    16 kHz, mono, 16-bit PCM WAV: "RIFF", ChunkSize [n + 36], "WAVE", a
    16-byte PCM "fmt " chunk with one channel, sample rate 16000, byte rate
    32000, block align 2 and 16 bits per sample, then "data", Subchunk2Size
    [n] and the payload itself. *)
Theorem wav_header_matches_payload (audio_buffer temp_file : Wav.bytes) :
  Wav._create_temp_wav_from_buffer audio_buffer = Some temp_file ->
  let n := Z.of_nat (length audio_buffer) in
  Wav.ChunkID temp_file = Wav.ascii_bytes "RIFF"
  /\ Wav.ChunkSize temp_file = (n + 36)%Z
  /\ Wav.Format temp_file = Wav.ascii_bytes "WAVE"
  /\ Wav.Subchunk1ID temp_file = Wav.ascii_bytes "fmt "
  /\ Wav.Subchunk1Size temp_file = 16%Z
  /\ Wav.AudioFormat temp_file = 1%Z
  /\ Wav.NumChannels temp_file = 1%Z
  /\ Wav.SampleRate temp_file = 16000%Z
  /\ Wav.ByteRate temp_file = (16000 * 1 * 16 / 8)%Z
  /\ Wav.ByteRate temp_file = 32000%Z
  /\ Wav.BlockAlign temp_file = 2%Z
  /\ Wav.BitsPerSample temp_file = 16%Z
  /\ Wav.Subchunk2ID temp_file = Wav.ascii_bytes "data"
  /\ Wav.Subchunk2Size temp_file = n
  /\ Wav.Data temp_file = audio_buffer
  /\ Z.of_nat (length temp_file) = (n + 44)%Z.
Proof.
  intros Hf n.
  assert (Hn : (n + 36 < 2 ^ 32)%Z)
    by (apply create_temp_wav_is_Some; rewrite Hf; eauto).
  unfold Wav._create_temp_wav_from_buffer in Hf.
  rewrite write_wav_in_range in Hf by exact Hn.
  injection Hf as <-. fold n.
  assert (Hpos : (0 <= n)%Z) by (unfold n; lia).
  assert (H36 : Wav.from_bytes (Wav.le_digits 4 (n + 36)) = (n + 36)%Z)
    by (apply from_bytes_le_digits; change (256 ^ Z.of_nat 4)%Z with (2 ^ 32)%Z; lia).
  assert (H0 : Wav.from_bytes (Wav.le_digits 4 n) = n)
    by (apply from_bytes_le_digits; change (256 ^ Z.of_nat 4)%Z with (2 ^ 32)%Z; lia).
  cbn [Wav.le_digits] in *.
  repeat split; try reflexivity; try assumption.
  cbn [app Wav.ascii_bytes list_ascii_of_string map length].
  lia.
Qed.

(** The theorem at a two-byte payload. *)
Lemma wav_header_matches_payload_witness :
  Wav.ChunkSize [82; 73; 70; 70; 38; 0; 0; 0; 87; 65; 86; 69; 102; 109; 116; 32;
                 16; 0; 0; 0; 1; 0; 1; 0; 128; 62; 0; 0; 0; 125; 0; 0; 2; 0; 16; 0;
                 100; 97; 116; 97; 2; 0; 0; 0; 7; 9]%Z = 38%Z.
Proof.
  refine (proj1 (proj2 (wav_header_matches_payload [7; 9]%Z _ _))).
  reflexivity.
Defined.

(** The WebSocket transcriber sends the collaborator nothing but the
    container that [_create_temp_wav_from_buffer] writes for its buffer. *)
Lemma transcribe_audio_buffer_sends_wav client (audio_buffer temp_file : Wav.bytes) :
  In temp_file (snd (Wav.transcribe_audio_buffer client audio_buffer)) ->
  Wav._create_temp_wav_from_buffer audio_buffer = Some temp_file.
Proof.
  unfold Wav.transcribe_audio_buffer, Wav._create_temp_wav_from_buffer.
  destruct client as [create|]; [|intros []].
  destruct audio_buffer as [|b audio_buffer]; [intros []|].
  destruct (Wav.write_wav (b :: audio_buffer)) as [f|e]; [|intros []].
  destruct (create f) as [[|c transcript]|e]; intros [<-|[]]; reflexivity.
Qed.

(** ** Stripping and joining texts *)

Lemma isspace_SPACE : isspace SPACE = true.
Proof. reflexivity. Qed.

Lemma lstrip_clean_head (t : str) : clean_head t -> lstrip t = t.
Proof. destruct t as [|c t]; simpl; [tauto|]. intros ->. reflexivity. Qed.

Lemma lstrip_nil_or_clean (s : str) : lstrip s = [] \/ clean_head (lstrip s).
Proof.
  induction s as [|c s IH]; simpl; [left; reflexivity|].
  destruct (isspace c) eqn:Hc; [exact IH|].
  right. simpl. exact Hc.
Qed.

Lemma lstrip_suffix (s : str) : exists w, s = w ++ lstrip s.
Proof.
  induction s as [|c s [w IH]]; simpl.
  - exists []. reflexivity.
  - destruct (isspace c).
    + exists (c :: w). simpl. f_equal. exact IH.
    + exists []. reflexivity.
Qed.

Lemma clean_head_app (t u : str) : clean_head t -> clean_head (t ++ u).
Proof. destruct t; simpl; tauto. Qed.

Lemma clean_head_prefix (t u : str) :
  t <> [] -> clean_head (t ++ u) -> clean_head t.
Proof. destruct t; simpl; tauto. Qed.

Lemma strip_solid (s : str) : strip s <> [] -> solid (strip s).
Proof.
  unfold strip, rstrip, solid.
  set (u := lstrip s). set (v := lstrip (rev u)).
  intros Hne. rewrite rev_involutive. split.
  - destruct (lstrip_suffix (rev u)) as [w Hw]. fold v in Hw.
    assert (Hu : u = rev v ++ rev w)
      by (rewrite <- rev_app_distr, <- Hw, rev_involutive; reflexivity).
    apply clean_head_prefix with (u := rev w); [exact Hne|].
    rewrite <- Hu. destruct (lstrip_nil_or_clean s) as [H0|Hc]; [|exact Hc].
    fold u in H0. rewrite H0 in Hu. symmetry in Hu.
    apply app_eq_nil in Hu as [Hv _]. contradiction.
  - destruct (lstrip_nil_or_clean (rev u)) as [H0|Hc]; [|exact Hc].
    fold v in H0. rewrite H0 in Hne. contradiction.
Qed.

Lemma solid_strip (t : str) : solid t -> strip t = t.
Proof.
  intros [Hh Hl]. unfold strip, rstrip.
  rewrite (lstrip_clean_head t Hh), (lstrip_clean_head _ Hl).
  apply rev_involutive.
Qed.

Lemma strip_idempotent (s : str) : strip (strip s) = strip s.
Proof.
  destruct (strip s) eqn:Hs; [reflexivity|].
  rewrite <- Hs. apply solid_strip, strip_solid. rewrite Hs. discriminate.
Qed.

Lemma spaced_snoc (texts : list str) (t : str) :
  spaced (texts ++ [t]) = spaced texts ++ [SPACE] ++ t.
Proof.
  unfold spaced. rewrite map_app, concat_app. simpl.
  rewrite app_nil_r. reflexivity.
Qed.

Lemma spaced_join (texts : list str) :
  texts <> [] -> spaced texts = SPACE :: join [SPACE] texts.
Proof.
  induction texts as [|t [|t' rest] IH]; intros Hne; [contradiction| |].
  - unfold spaced. simpl. rewrite app_nil_r. reflexivity.
  - change (spaced (t :: t' :: rest)) with (SPACE :: t ++ spaced (t' :: rest)).
    rewrite IH by discriminate. reflexivity.
Qed.

Lemma join_solid (texts : list str) :
  texts <> [] -> Forall solid texts -> solid (join [SPACE] texts).
Proof.
  induction texts as [|t [|t' rest] IH]; intros Hne Hall; [contradiction| |].
  - inversion Hall; assumption.
  - inversion Hall as [|? ? [Hh Hl] Hrest]; subst.
    destruct (IH ltac:(discriminate) Hrest) as [_ IHl].
    change (join [SPACE] (t :: t' :: rest))
      with (t ++ [SPACE] ++ join [SPACE] (t' :: rest)).
    split.
    + apply clean_head_app, Hh.
    + rewrite !rev_app_distr, <- (assoc_L (++)). apply clean_head_app, IHl.
Qed.

(** Stripping the accumulated transcript gives the texts joined by single
    spaces. *)
Lemma strip_spaced (texts : list str) :
  Forall solid texts -> strip (spaced texts) = join [SPACE] texts.
Proof.
  intros Hall. destruct texts as [|t rest]; [reflexivity|].
  rewrite spaced_join by discriminate.
  pose proof (join_solid (t :: rest) ltac:(discriminate) Hall) as Hs.
  unfold strip at 1. cbn [lstrip]. rewrite isspace_SPACE.
  apply (solid_strip _ Hs).
Qed.

(** ** The transcript is derived from the segment log *)

Lemma session_inv_new sid now : session_inv (Basic.new_session sid now).
Proof. split; [reflexivity|constructor]. Qed.

Lemma session_inv_add (s : Basic.BasicAudioSession) text confidence now :
  strip text <> [] ->
  session_inv s ->
  session_inv (Basic.add_transcription_segment s text confidence now).
Proof.
  intros Hne [Hfull Hall]. unfold session_inv; simpl.
  rewrite !map_app. cbn [map Basic.text].
  rewrite spaced_snoc, Hfull. split; [reflexivity|].
  apply Forall_app. split; [exact Hall|].
  constructor; [apply strip_solid, Hne|constructor].
Qed.

Lemma session_inv_observed (s : Basic.BasicAudioSession) now :
  session_inv s ->
  Basic.status_full_transcription (Basic.get_status s now)
  = join [SPACE] (map Basic.text (Basic.transcription_segments s))
  /\ Basic.live_full_transcription (fst (Basic.poll s))
     = join [SPACE] (map Basic.text (Basic.transcription_segments s)).
Proof.
  intros [Hfull Hall]. unfold Basic.poll.
  destruct (Basic.drain _ _) as [new queue']. simpl.
  rewrite Hfull, strip_spaced by exact Hall. split; reflexivity.
Qed.

Lemma service_inv_new : service_inv Basic.new_service.
Proof. apply map_Forall_empty. Qed.

Lemma service_inv_lookup svc sid s :
  service_inv svc -> Basic.sessions svc !! sid = Some s -> session_inv s.
Proof. intros Hinv Hs. exact (map_Forall_lookup_1 _ _ _ _ Hinv Hs). Qed.

Lemma service_inv_set_session svc sid s :
  session_inv s -> service_inv svc -> service_inv (Basic.set_session svc sid s).
Proof. intros Hs Hinv. apply map_Forall_insert_2; assumption. Qed.

Lemma service_inv_modify svc sid f :
  (forall s, session_inv s -> session_inv (f s)) ->
  service_inv svc -> service_inv (Basic.modify_session svc sid f).
Proof.
  intros Hf Hinv. unfold Basic.modify_session.
  destruct (Basic.sessions svc !! sid) as [s|] eqn:Hs; [|exact Hinv].
  apply service_inv_set_session; [|exact Hinv].
  apply Hf, (service_inv_lookup svc sid s Hinv Hs).
Qed.

Section BasicService.
Variable client : nat -> Wav.bytes -> outcome Basic.Transcript.

Lemma transcribe_audio_file_inv svc sid audio_file now :
  service_inv svc ->
  service_inv (snd (Basic.transcribe_audio_file client svc sid audio_file now)).
Proof.
  intros Hinv. unfold Basic.transcribe_audio_file.
  destruct (Basic.sessions svc !! sid) as [s|] eqn:Hs; [|exact Hinv].
  destruct (client _ _) as [transcript|e]; [|exact Hinv].
  destruct (strip (Basic.transcript_text transcript)) as [|c t] eqn:Ht;
    [exact Hinv|].
  cbn [snd]. apply service_inv_set_session; [|exact Hinv].
  apply session_inv_add.
  - rewrite <- Ht, strip_idempotent, Ht. discriminate.
  - exact (service_inv_lookup svc sid s Hinv Hs).
Qed.

Lemma process_audio_data_inv svc sid audio_data now :
  service_inv svc ->
  service_inv (snd (Basic.process_audio_data client svc sid audio_data now)).
Proof.
  intros Hinv. unfold Basic.process_audio_data.
  destruct (Basic.sessions svc !! sid) as [s|] eqn:Hs; [|exact Hinv].
  assert (Hinv1 : service_inv
                    (Basic.set_session svc sid (Basic.add_audio_data s audio_data))).
  { apply service_inv_set_session; [|exact Hinv].
    exact (service_inv_lookup svc sid s Hinv Hs). }
  destruct (Qle_bool _ _); [|exact Hinv1].
  destruct (Wav._create_temp_wav_from_buffer _) as [temp_file|]; [|exact Hinv1].
  pose proof (transcribe_audio_file_inv _ sid temp_file now Hinv1) as Hinv2.
  destruct (Basic.transcribe_audio_file _ _ _ _ _) as [[r|e] svc2];
    cbn [snd] in *; [|exact Hinv2].
  apply service_inv_modify; [|exact Hinv2].
  intros s' Hs'. exact Hs'.
Qed.

Lemma call_inv svc c : service_inv svc -> service_inv (call client svc c).
Proof.
  intros Hinv. destruct c as [now [sid uuid|sid|sid|sid data|sid file|sid|sid|sid|sid]];
    cbn [call].
  - apply service_inv_set_session; [apply session_inv_new|exact Hinv].
  - unfold Basic.start_recording.
    destruct (Basic.sessions svc !! sid) as [s|] eqn:Hs; [|exact Hinv].
    apply service_inv_set_session; [|exact Hinv].
    exact (service_inv_lookup svc sid s Hinv Hs).
  - unfold Basic.stop_recording.
    destruct (Basic.sessions svc !! sid) as [s|] eqn:Hs; [|exact Hinv].
    apply service_inv_set_session; [|exact Hinv].
    exact (service_inv_lookup svc sid s Hinv Hs).
  - apply process_audio_data_inv, Hinv.
  - apply transcribe_audio_file_inv, Hinv.
  - exact Hinv.
  - unfold Basic.get_live_transcription.
    destruct (Basic.sessions svc !! sid) as [s|] eqn:Hs; [|exact Hinv].
    unfold Basic.poll. destruct (Basic.drain _ _) as [new queue'].
    apply service_inv_set_session; [|exact Hinv].
    exact (service_inv_lookup svc sid s Hinv Hs).
  - exact Hinv.
  - unfold Basic.cleanup_session.
    destruct (Basic.sessions svc !! sid) as [s|] eqn:Hs; [|exact Hinv].
    apply map_Forall_delete, Hinv.
Qed.

Lemma run_inv calls svc : service_inv svc -> service_inv (run client svc calls).
Proof.
  unfold run. revert svc.
  induction calls as [|c calls IH]; intros svc Hinv; simpl; [exact Hinv|].
  apply IH, call_inv, Hinv.
Qed.

(** C4. In every state the service reaches from its creation, through any
    sequence of calls and whatever the collaborator answers, each
    session's reported full transcription (the stripped accumulated
    transcript, as the status query and the transcription poll return it)
    is the texts of its segment log joined with single spaces. *)
Theorem full_transcription_is_joined_log calls sid s now :
  Basic.sessions (run client Basic.new_service calls) !! sid = Some s ->
  Basic.status_full_transcription (Basic.get_status s now)
  = join [SPACE] (map Basic.text (Basic.transcription_segments s))
  /\ Basic.live_full_transcription (fst (Basic.poll s))
     = join [SPACE] (map Basic.text (Basic.transcription_segments s)).
Proof.
  intros Hs. apply session_inv_observed.
  exact (service_inv_lookup _ sid s (run_inv calls _ service_inv_new) Hs).
Qed.

End BasicService.

(** The theorem on a session that received two transcripts. *)
Lemma full_transcription_is_joined_log_witness :
  let client := fun (n : nat) (_ : Wav.bytes) =>
    Ret {| Basic.transcript_text :=
             if n =? 0 then lit " hello " else lit "world ";
           Basic.transcript_confidence := None |} in
  let calls :=
    [(0%Q, CreateSession (Some "s") "u");
     (1%Q, TranscribeAudioFile "s" [82; 73]%Z);
     (2%Q, GetLiveTranscription "s");
     (3%Q, TranscribeAudioFile "s" [70; 70]%Z)] in
  match Basic.sessions (run client Basic.new_service calls) !! "s" with
  | Some s =>
      Basic.status_full_transcription (Basic.get_status s 4%Q)
      = join [SPACE] (map Basic.text (Basic.transcription_segments s))
  | None => False
  end.
Proof.
  intros client0 calls.
  destruct (Basic.sessions (run client0 Basic.new_service calls) !! "s")
    as [s|] eqn:Hs.
  - exact (proj1 (full_transcription_is_joined_log client0 calls "s" s 4%Q Hs)).
  - vm_compute in Hs. discriminate Hs.
Defined.

(** ** Polling drains the delivery queue *)

Lemma drain_spec (queue new : list Basic.Segment) :
  Basic.drain queue new = (new ++ queue, []).
Proof.
  revert new. induction queue as [|x queue IH]; intros new; simpl.
  - rewrite app_nil_r. reflexivity.
  - rewrite IH, <- (assoc_L (++)). reflexivity.
Qed.

Lemma poll_new_segments (s : Basic.BasicAudioSession) :
  Basic.new_segments (fst (Basic.poll s)) = Basic.transcription_queue s
  /\ Basic.transcription_queue (snd (Basic.poll s)) = []
  /\ Basic.transcription_segments (snd (Basic.poll s))
     = Basic.transcription_segments s.
Proof. unfold Basic.poll. rewrite drain_spec. repeat split. Qed.




(** ** Starting and stopping *)

(** C3 (the claim fails on the code). On a freshly created session, [stop]
    before any [start] succeeds and changes the session (it records an end
    time), and the manager answers [recording_stopped]; two [start]s in a
    row both succeed and the manager answers [recording_started] to the
    second. *)
Lemma stop_before_start_is_accepted :
  let svc0 := snd (Basic.create_session Basic.new_service (Some "s") "u" 0%Q) in
  let m0 := {| Basic.audio_service := svc0; Basic.active_sessions := {["s"]} |} in
  fst (Basic.stop_recording svc0 "s" 1%Q) = true
  /\ snd (Basic.stop_recording svc0 "s" 1%Q) <> svc0
  /\ fst (Basic.manager_stop_recording m0 "s" 1%Q)
     = Basic.RecordingStopped "s" (Some []) 1%Q
  /\ fst (Basic.start_recording (snd (Basic.start_recording svc0 "s" 1%Q)) "s" 2%Q)
     = true
  /\ fst (Basic.manager_start_recording
            (snd (Basic.manager_start_recording m0 "s" 1%Q)) "s" 2%Q)
     = Basic.RecordingStarted "s" 2%Q.
Proof.
  intros svc0 m0. repeat split; try (vm_compute; reflexivity).
  intros H.
  apply (f_equal (fun svc => Basic.recording_end_time <$> Basic.sessions svc !! "s"))
    in H.
  vm_compute in H. discriminate H.
Qed.

(** C3, amended. [start] and [stop] are accepted in every state of an
    existing session: [stop] returns [True], clears the recording flag and
    records the end time even if the session never recorded; [start]
    returns [True], sets the flag and records the start time, and so does a
    second [start] in a row. Only an unknown session id is refused, with
    [False] and no change to the service. *)
Theorem start_stop_accepted_in_every_state svc sid now1 now2 :
  match Basic.sessions svc !! sid with
  | Some s =>
      (exists s',
          Basic.stop_recording svc sid now1 = (true, Basic.set_session svc sid s')
          /\ Basic.is_recording s' = false
          /\ Basic.recording_end_time s' = Some now1)
      /\ (exists s1 s2,
             Basic.start_recording svc sid now1
             = (true, Basic.set_session svc sid s1)
             /\ Basic.is_recording s1 = true
             /\ Basic.recording_start_time s1 = Some now1
             /\ Basic.start_recording (Basic.set_session svc sid s1) sid now2
                = (true, Basic.set_session (Basic.set_session svc sid s1) sid s2)
             /\ Basic.is_recording s2 = true
             /\ Basic.recording_start_time s2 = Some now2)
  | None =>
      Basic.stop_recording svc sid now1 = (false, svc)
      /\ Basic.start_recording svc sid now1 = (false, svc)
  end.
Proof.
  unfold Basic.stop_recording, Basic.start_recording.
  destruct (Basic.sessions svc !! sid) as [s|] eqn:Hs; [|split; reflexivity].
  split.
  - eexists. repeat split.
  - exists (Basic.session_start_recording s now1),
           (Basic.session_start_recording (Basic.session_start_recording s now1) now2).
    cbn [Basic.set_session Basic.sessions].
    rewrite lookup_insert_eq. repeat split.
Qed.

(** C10. On the basic service, [stop_recording] on an existing session
    returns [True] and changes nothing but that session's recording flag
    and end time: its segment log, full transcription, audio buffer,
    delivery queue and other fields, the other sessions, and the record of
    requests made to the collaborator are as before; no transcription
    request is made and the buffered audio stays in the buffer. *)
Theorem stop_recording_frame svc sid s now :
  Basic.sessions svc !! sid = Some s ->
  let svc' := snd (Basic.stop_recording svc sid now) in
  fst (Basic.stop_recording svc sid now) = true
  /\ Basic.client_log svc' = Basic.client_log svc
  /\ (forall other, other <> sid ->
        Basic.sessions svc' !! other = Basic.sessions svc !! other)
  /\ exists s',
      Basic.sessions svc' !! sid = Some s'
      /\ Basic.is_recording s' = false
      /\ Basic.recording_end_time s' = Some now
      /\ Basic.transcription_segments s' = Basic.transcription_segments s
      /\ Basic.full_transcription s' = Basic.full_transcription s
      /\ Basic.audio_buffer s' = Basic.audio_buffer s
      /\ Basic.transcription_queue s' = Basic.transcription_queue s
      /\ Basic.session_id s' = Basic.session_id s
      /\ Basic.created_at s' = Basic.created_at s
      /\ Basic.recording_start_time s' = Basic.recording_start_time s
      /\ Basic.last_transcription_time s' = Basic.last_transcription_time s.
Proof.
  intros Hs. unfold Basic.stop_recording. rewrite Hs. simpl.
  split; [reflexivity|]. split; [reflexivity|]. split.
  - intros other Hne. apply lookup_insert_ne. congruence.
  - exists (Basic.session_stop_recording s now).
    rewrite lookup_insert_eq. repeat split.
Qed.

(** The theorem on a recording session that holds buffered audio. *)
Lemma stop_recording_frame_witness :
  let s :=
    Basic.add_audio_data
      (Basic.session_start_recording (Basic.new_session "s" 0%Q) 1%Q) [1; 2]%Z in
  let svc := Basic.set_session Basic.new_service "s" s in
  Basic.client_log (snd (Basic.stop_recording svc "s" 2%Q)) = []
  /\ exists s',
      Basic.sessions (snd (Basic.stop_recording svc "s" 2%Q)) !! "s" = Some s'
      /\ Basic.is_recording s' = false
      /\ Basic.audio_buffer s' = [1; 2]%Z.
Proof.
  intros s svc.
  destruct (stop_recording_frame svc "s" s 2%Q) as (_ & Hlog & _ & s' & H).
  { vm_compute. reflexivity. }
  split; [exact Hlog|].
  exists s'. destruct H as (H1 & H2 & _ & _ & _ & H3 & _).
  repeat split; assumption.
Defined.

(** ** Session cleanup *)

(** C9. Deleting a session twice through [DELETE /audio/session/{id}]
    raises nothing: the first call answers [cleaned_up] when the session
    exists (and [not_found] otherwise) and removes it, the second answers
    [not_found] and changes nothing; on the service, removing an absent id
    returns [False] and leaves the service as it was. *)
Theorem delete_session_twice (m : Basic.Manager) sid now1 now2 :
  let r1 := Basic.cleanup_audio_session (Some m) sid now1 in
  let r2 := Basic.cleanup_audio_session (snd r1) sid now2 in
  fst r1 = Ret {| Basic.cleanup_session_id := sid;
                  Basic.cleanup_status :=
                    match Basic.sessions (Basic.audio_service m) !! sid with
                    | Some _ => Basic.cleaned_up
                    | None => Basic.not_found
                    end;
                  Basic.cleanup_timestamp := now1 |}
  /\ fst r2 = Ret {| Basic.cleanup_session_id := sid;
                     Basic.cleanup_status := Basic.not_found;
                     Basic.cleanup_timestamp := now2 |}
  /\ snd r2 = snd r1
  /\ (exists m1,
         snd r1 = Some m1
         /\ Basic.sessions (Basic.audio_service m1) !! sid = None
         /\ (sid ∉ Basic.active_sessions m1)
         /\ (forall other, other <> sid ->
               Basic.sessions (Basic.audio_service m1) !! other
               = Basic.sessions (Basic.audio_service m) !! other))
  /\ match Basic.sessions (Basic.audio_service m) !! sid with
     | Some _ => fst (Basic.cleanup_session (Basic.audio_service m) sid) = true
     | None =>
         Basic.cleanup_session (Basic.audio_service m) sid
         = (false, Basic.audio_service m)
     end.
Proof.
  intros r1 r2. subst r2 r1.
  unfold Basic.cleanup_audio_session, Basic.manager_cleanup_session,
    Basic.cleanup_session.
  set (active1 := if decide (sid ∈ Basic.active_sessions m)
                  then Basic.active_sessions m ∖ {[sid]}
                  else Basic.active_sessions m).
  assert (Hactive : sid ∉ active1)
    by (unfold active1; destruct (decide (sid ∈ Basic.active_sessions m));
        [rewrite elem_of_difference, elem_of_singleton; tauto | assumption]).
  destruct (Basic.sessions (Basic.audio_service m) !! sid) as [s|] eqn:Hs;
    cbn [fst snd Basic.audio_service Basic.active_sessions Basic.sessions].
  - rewrite lookup_delete_eq. cbn [fst snd].
    destruct (decide (sid ∈ active1)) as [Hin|_]; [contradiction|].
    repeat split. eexists. split; [reflexivity|].
    cbn [Basic.audio_service Basic.active_sessions Basic.sessions].
    split; [apply lookup_delete_eq|]. split; [exact Hactive|].
    intros other Hne. apply lookup_delete_ne. congruence.
  - rewrite Hs. cbn [fst snd].
    destruct (decide (sid ∈ active1)) as [Hin|_]; [contradiction|].
    repeat split. eexists. split; [reflexivity|].
    cbn [Basic.audio_service Basic.active_sessions Basic.sessions].
    split; [exact Hs|]. split; [exact Hactive|]. reflexivity.
Qed.

(** ** A collaborator that always fails *)

(** The three-second test of [process_audio_data], in bytes. *)
Lemma three_seconds_gate (n : nat) :
  Qle_bool 3 (Z.of_nat n # 32000) = (96000 <=? Z.of_nat n)%Z.
Proof. unfold Qle_bool. cbn [Qnum Qden]. rewrite Z.mul_1_r. reflexivity. Qed.

Section FailingCollaborator.
Variable client : nat -> Wav.bytes -> outcome Basic.Transcript.
Hypothesis client_fails : always_fails client.

Lemma transcribe_audio_file_fails svc sid audio_file now :
  Basic.sessions (snd (Basic.transcribe_audio_file client svc sid audio_file now))
  = Basic.sessions svc
  /\ (fst (Basic.transcribe_audio_file client svc sid audio_file now)
      = Ret Basic.TranscribeSessionNotFound
      \/ exists e,
          fst (Basic.transcribe_audio_file client svc sid audio_file now)
          = Ret (Basic.TranscribeError e)).
Proof.
  unfold Basic.transcribe_audio_file.
  destruct (Basic.sessions svc !! sid) as [s|]; [|split; [reflexivity|left; reflexivity]].
  destruct (client_fails (length (Basic.client_log svc)) audio_file) as [e ->].
  split; [reflexivity|right; exists e; reflexivity].
Qed.

Lemma no_transcript_set_session svc sid s :
  Basic.transcription_segments s = [] ->
  Basic.full_transcription s = [] ->
  no_transcript svc -> no_transcript (Basic.set_session svc sid s).
Proof. intros H1 H2 Hinv. apply map_Forall_insert_2; [split|]; assumption. Qed.

Lemma no_transcript_modify svc sid f :
  (forall s, Basic.transcription_segments (f s) = Basic.transcription_segments s) ->
  (forall s, Basic.full_transcription (f s) = Basic.full_transcription s) ->
  no_transcript svc -> no_transcript (Basic.modify_session svc sid f).
Proof.
  intros Hf1 Hf2 Hinv. unfold Basic.modify_session.
  destruct (Basic.sessions svc !! sid) as [s|] eqn:Hs; [|exact Hinv].
  destruct (map_Forall_lookup_1 _ _ _ _ Hinv Hs) as [H1 H2].
  apply no_transcript_set_session; [rewrite Hf1|rewrite Hf2|]; assumption.
Qed.

Lemma no_transcript_same_sessions svc svc' :
  Basic.sessions svc' = Basic.sessions svc -> no_transcript svc -> no_transcript svc'.
Proof. unfold no_transcript. intros ->. tauto. Qed.

Lemma process_audio_data_no_transcript svc sid audio_data now :
  no_transcript svc ->
  no_transcript (snd (Basic.process_audio_data client svc sid audio_data now)).
Proof.
  intros Hinv. unfold Basic.process_audio_data.
  destruct (Basic.sessions svc !! sid) as [s|] eqn:Hs; [|exact Hinv].
  destruct (map_Forall_lookup_1 _ _ _ _ Hinv Hs) as [H1 H2].
  assert (Hinv1 : no_transcript
                    (Basic.set_session svc sid (Basic.add_audio_data s audio_data)))
    by (apply no_transcript_set_session; assumption).
  destruct (Qle_bool _ _); [|exact Hinv1].
  destruct (Wav._create_temp_wav_from_buffer _) as [temp_file|]; [|exact Hinv1].
  destruct (transcribe_audio_file_fails
              (Basic.set_session svc sid (Basic.add_audio_data s audio_data))
              sid temp_file now) as [Hsame _].
  destruct (Basic.transcribe_audio_file _ _ _ _ _) as [[r|e] svc2];
    cbn [fst snd] in *.
  - apply no_transcript_modify; [reflexivity..|].
    exact (no_transcript_same_sessions _ _ Hsame Hinv1).
  - exact (no_transcript_same_sessions _ _ Hsame Hinv1).
Qed.

Lemma call_no_transcript svc c : no_transcript svc -> no_transcript (call client svc c).
Proof.
  intros Hinv.
  destruct c as [now [sid uuid|sid|sid|sid data|sid file|sid|sid|sid|sid]];
    cbn [call].
  - apply no_transcript_set_session; [reflexivity..|exact Hinv].
  - unfold Basic.start_recording.
    destruct (Basic.sessions svc !! sid) as [s|] eqn:Hs; [|exact Hinv].
    destruct (map_Forall_lookup_1 _ _ _ _ Hinv Hs) as [H1 H2].
    apply no_transcript_set_session; assumption.
  - unfold Basic.stop_recording.
    destruct (Basic.sessions svc !! sid) as [s|] eqn:Hs; [|exact Hinv].
    destruct (map_Forall_lookup_1 _ _ _ _ Hinv Hs) as [H1 H2].
    apply no_transcript_set_session; assumption.
  - apply process_audio_data_no_transcript, Hinv.
  - destruct (transcribe_audio_file_fails svc sid file now) as [Hsame _].
    exact (no_transcript_same_sessions _ _ Hsame Hinv).
  - exact Hinv.
  - unfold Basic.get_live_transcription.
    destruct (Basic.sessions svc !! sid) as [s|] eqn:Hs; [|exact Hinv].
    destruct (map_Forall_lookup_1 _ _ _ _ Hinv Hs) as [H1 H2].
    unfold Basic.poll. destruct (Basic.drain _ _) as [new queue'].
    apply no_transcript_set_session; assumption.
  - exact Hinv.
  - unfold Basic.cleanup_session.
    destruct (Basic.sessions svc !! sid) as [s|] eqn:Hs; [|exact Hinv].
    apply map_Forall_delete, Hinv.
Qed.

Lemma run_no_transcript calls svc :
  no_transcript svc -> no_transcript (run client svc calls).
Proof.
  unfold run. revert svc.
  induction calls as [|c calls IH]; intros svc Hinv; simpl; [exact Hinv|].
  apply IH, call_no_transcript, Hinv.
Qed.

(** Audio ingestion under a failing collaborator: the call returns a value;
    below three seconds of buffered audio the session holds the audio and
    no request is made; from there on the one request fails and the buffer
    is flushed with it. *)
Lemma process_audio_data_absorbs_failure svc sid s audio_data now :
  Basic.sessions svc !! sid = Some s ->
  let buffered := Basic.audio_buffer s ++ audio_data in
  exists r svc' s',
    Basic.process_audio_data client svc sid audio_data now = (Ret r, svc')
    /\ Basic.sessions svc' !! sid = Some s'
    /\ Basic.is_recording s' = Basic.is_recording s
    /\ Basic.transcription_segments s' = Basic.transcription_segments s
    /\ Basic.full_transcription s' = Basic.full_transcription s
    /\ ((Z.of_nat (length buffered) < 96000)%Z
        \/ Wav._create_temp_wav_from_buffer buffered = None ->
        r = Basic.Buffering (length buffered)
              (Z.of_nat (length buffered) # 32000)
        /\ Basic.audio_buffer s' = buffered
        /\ Basic.client_log svc' = Basic.client_log svc)
    /\ (forall temp_file,
          (96000 <= Z.of_nat (length buffered))%Z ->
          Wav._create_temp_wav_from_buffer buffered = Some temp_file ->
          exists e,
            client (length (Basic.client_log svc)) temp_file = Raise e
            /\ r = Basic.Processed (Basic.TranscribeError e)
            /\ Basic.audio_buffer s' = []
            /\ Basic.client_log svc' = Basic.client_log svc ++ [temp_file]).
Proof.
  intros Hs buffered. unfold Basic.process_audio_data. rewrite Hs.
  set (s1 := Basic.add_audio_data s audio_data).
  change (Basic.audio_buffer s1) with buffered.
  change (Basic.get_audio_buffer_size s1) with (length buffered).
  rewrite three_seconds_gate.
  destruct (Z.leb_spec 96000 (Z.of_nat (length buffered))) as [Hge|Hlt].
  2: { eexists _, _, s1. split; [reflexivity|].
       split; [apply lookup_insert_eq|]. do 3 (split; [reflexivity|]).
       split; [intros _; repeat split|intros temp_file Hge; lia]. }
  destruct (Wav._create_temp_wav_from_buffer buffered) as [temp_file|] eqn:Hwav.
  2: { eexists _, _, s1. split; [reflexivity|].
       split; [apply lookup_insert_eq|]. do 3 (split; [reflexivity|]).
       split; [intros _; repeat split|intros temp_file _; discriminate]. }
  unfold Basic.transcribe_audio_file.
  cbn [Basic.set_session Basic.sessions Basic.client_log].
  rewrite lookup_insert_eq.
  destruct (client_fails (length (Basic.client_log svc)) temp_file) as [e He].
  rewrite He.
  unfold Basic.modify_session. cbn [Basic.sessions]. rewrite lookup_insert_eq.
  eexists _, _, (Basic.clear_audio_buffer s1). split; [reflexivity|].
  split; [apply lookup_insert_eq|]. do 3 (split; [reflexivity|]).
  split.
  - intros [Hlt|Hnone]; [lia|discriminate].
  - intros temp_file' _ [= <-]. exists e. repeat split. exact He.
Qed.

(** C5. When the collaborator fails on every call, in every state the
    service reaches: audio ingestion returns a value (no exception reaches
    the caller) and the session keeps its recording state and its empty
    transcript; while fewer than 96000 bytes (three seconds) are buffered
    the audio is accepted and appended to the buffer and no request is
    made; from 96000 bytes on the one request made fails, the failure is
    returned as the result of the call and the buffer is flushed as it is
    after a request that succeeds; and after [stop] the session's segment
    count is 0 and its final transcription is the empty string, which is
    what the [recording_stopped] response carries. *)
Theorem failing_collaborator_is_absorbed calls sid s audio_data now active :
  let svc := run client Basic.new_service calls in
  Basic.sessions svc !! sid = Some s ->
  (let buffered := Basic.audio_buffer s ++ audio_data in
   exists r svc' s',
      Basic.process_audio_data client svc sid audio_data now = (Ret r, svc')
      /\ Basic.sessions svc' !! sid = Some s'
      /\ Basic.is_recording s' = Basic.is_recording s
      /\ Basic.transcription_segments s' = []
      /\ Basic.full_transcription s' = []
      /\ ((Z.of_nat (length buffered) < 96000)%Z
          \/ Wav._create_temp_wav_from_buffer buffered = None ->
          r = Basic.Buffering (length buffered)
                (Z.of_nat (length buffered) # 32000)
          /\ Basic.audio_buffer s' = buffered
          /\ Basic.client_log svc' = Basic.client_log svc)
      /\ (forall temp_file,
            (96000 <= Z.of_nat (length buffered))%Z ->
            Wav._create_temp_wav_from_buffer buffered = Some temp_file ->
            exists e,
              client (length (Basic.client_log svc)) temp_file = Raise e
              /\ r = Basic.Processed (Basic.TranscribeError e)
              /\ Basic.audio_buffer s' = []
              /\ Basic.client_log svc' = Basic.client_log svc ++ [temp_file]))
  /\ (let svc2 := snd (Basic.stop_recording svc sid now) in
      fst (Basic.stop_recording svc sid now) = true
      /\ Basic.status_segment_count <$> Basic.get_session_status svc2 sid now
         = Some 0
      /\ Basic.get_final_transcription svc2 sid = Some []
      /\ fst (Basic.manager_stop_recording
                {| Basic.audio_service := svc; Basic.active_sessions := active |}
                sid now)
         = Basic.RecordingStopped sid (Some []) now).
Proof.
  intros svc Hs.
  pose proof (run_no_transcript calls Basic.new_service (map_Forall_empty _)) as Hinv.
  fold svc in Hinv.
  destruct (map_Forall_lookup_1 _ _ _ _ Hinv Hs) as [Hsegs Hfull].
  split.
  - intros buffered.
    destruct (process_audio_data_absorbs_failure svc sid s audio_data now Hs)
      as (r & svc' & s' & Hr & Hs' & Hrec & Hsegs' & Hfull' & Hbuf & Hflush).
    exists r, svc', s'. rewrite Hsegs', Hfull', Hsegs, Hfull.
    split; [exact Hr|]. split; [exact Hs'|]. split; [exact Hrec|].
    split; [reflexivity|]. split; [reflexivity|].
    split; [exact Hbuf|exact Hflush].
  - unfold Basic.manager_stop_recording, Basic.stop_recording,
      Basic.get_session_status, Basic.get_final_transcription.
    cbn [Basic.audio_service]. rewrite !Hs.
    cbn [fst snd Basic.set_session Basic.sessions].
    rewrite !lookup_insert_eq. cbn. rewrite Hsegs, Hfull. repeat split.
Qed.

End FailingCollaborator.

(** The theorem on a recording session that holds 95998 bytes of audio and
    is sent two more: the collaborator is asked, fails, and the failure is
    the result of the call; after [stop] the final transcription is
    empty. *)
Lemma failing_collaborator_is_absorbed_witness :
  let client := fun (_ : nat) (_ : Wav.bytes) => @Raise Basic.Transcript ApiError in
  let calls :=
    [(0%Q, CreateSession (Some "s") "u"); (1%Q, StartRecording "s");
     (2%Q, ProcessAudioData "s" (replicate (Z.to_nat 95998) 0%Z))] in
  let svc := run client Basic.new_service calls in
  fst (Basic.process_audio_data client svc "s" [1; 2]%Z 3%Q)
  = Ret (Basic.Processed (Basic.TranscribeError ApiError))
  /\ Basic.get_final_transcription (snd (Basic.stop_recording svc "s" 3%Q)) "s"
     = Some [].
Proof.
  intros client calls svc.
  assert (Hfail : always_fails client)
    by (intros n request; exists ApiError; reflexivity).
  assert (Hsize :
    (fun s => Z.of_nat (length (Basic.audio_buffer s)))
      <$> Basic.sessions svc !! "s" = Some 95998%Z)
    by (vm_compute; reflexivity).
  destruct (Basic.sessions svc !! "s") as [s|] eqn:Hs; [|discriminate Hsize].
  injection Hsize as Hsize.
  assert (Hlen : Z.of_nat (length (Basic.audio_buffer s ++ [1; 2]%Z)) = 96000%Z)
    by (rewrite length_app, Nat2Z.inj_add, Hsize; reflexivity).
  destruct (failing_collaborator_is_absorbed client Hfail calls "s" s
              [1; 2]%Z 3%Q ∅ Hs)
    as [(r & svc' & s' & Hr & _ & _ & _ & _ & _ & Hflush) (_ & _ & Hfinal & _)].
  split; [|exact Hfinal].
  destruct (proj2 (create_temp_wav_is_Some (Basic.audio_buffer s ++ [1; 2]%Z)))
    as [temp_file Hwav]; [rewrite Hlen; reflexivity|].
  destruct (Hflush temp_file) as (e & He & -> & _);
    [rewrite Hlen; discriminate|exact Hwav|].
  unfold svc. rewrite Hr. cbn [fst]. unfold client in He. congruence.
Defined.

(** ** Appending audio outside a recording *)

(** C6 (the code departs from the claim). On the basic service, a session
    that was created and never started is not recording, yet
    [process_audio_data] accepts two bytes of audio: it answers
    [buffering] with a buffer size of 2 and the session's buffer holds the
    two bytes, where the claim requires an error and an unmodified
    buffer. *)
Theorem process_audio_data_accepted_while_idle
    (client : nat -> Wav.bytes -> outcome Basic.Transcript) :
  let svc0 := snd (Basic.create_session Basic.new_service (Some "s") "u" 0%Q) in
  let r := Basic.process_audio_data client svc0 "s" [1; 2]%Z 1%Q in
  Basic.is_recording <$> Basic.sessions svc0 !! "s" = Some false
  /\ Basic.audio_buffer <$> Basic.sessions svc0 !! "s" = Some []
  /\ fst r = Ret (Basic.Buffering 2 (2 # 32000))
  /\ Basic.audio_buffer <$> Basic.sessions (snd r) !! "s" = Some [1; 2]%Z
  /\ Basic.is_recording <$> Basic.sessions (snd r) !! "s" = Some false.
Proof. intros svc0 r. repeat split; vm_compute; reflexivity. Qed.

Section RealtimeService.
Variable client : nat -> Realtime.Request -> outcome Realtime.Transcript.

(** The ring-buffer service refuses audio for a session that is not
    recording and leaves the service as it was. *)
Lemma process_audio_chunk_refused_when_not_recording svc sid s audio_data now :
  Realtime.sessions svc !! sid = Some s ->
  Realtime.is_recording s = false ->
  Realtime.process_audio_chunk client svc sid audio_data now
  = (Ret Realtime.ChunkNotRecording, svc).
Proof.
  intros Hs Hrec. unfold Realtime.process_audio_chunk. rewrite Hs, Hrec.
  reflexivity.
Qed.

(** [_transcribe_audio_chunk] on an existing session returns normally and
    leaves the session's buffer and recording flag as they are. *)
Lemma transcribe_audio_chunk_session svc sid s now :
  Realtime.sessions svc !! sid = Some s ->
  exists svc' s',
    Realtime._transcribe_audio_chunk client svc sid now = (Ret (), svc')
    /\ Realtime.sessions svc' !! sid = Some s'
    /\ Realtime.audio_buffer s' = Realtime.audio_buffer s
    /\ Realtime.is_recording s' = Realtime.is_recording s
    /\ Realtime.final_transcription s' = Realtime.final_transcription s
    /\ (always_fails client ->
        Realtime.transcription_segments s' = Realtime.transcription_segments s
        /\ Realtime.full_transcription s' = Realtime.full_transcription s).
Proof.
  intros Hs. unfold Realtime._transcribe_audio_chunk. rewrite Hs.
  unfold Realtime.transcribe_audio_chunk_body.
  destruct (Realtime.too_short _ _).
  { exists svc, s. split; [reflexivity|]. split; [exact Hs|]. repeat split. }
  destruct (client _ _) as [transcript|e] eqn:Hc.
  - destruct (strip (Realtime.transcript_text transcript)) as [|c t].
    + eexists _, s. split; [reflexivity|]. split; [exact Hs|]. repeat split.
    + eexists _, _. split; [reflexivity|].
      cbn [Realtime.set_session Realtime.set_sessions Realtime.sessions
           Realtime.log_request].
      split; [apply lookup_insert_eq|].
      do 3 (split; [reflexivity|]).
      intros Hf.
      match type of Hc with
      | client ?n ?request = _ => destruct (Hf n request) as [e He]
      end.
      rewrite He in Hc. discriminate Hc.
  - eexists _, s. split; [reflexivity|]. split; [exact Hs|]. repeat split.
Qed.

(** Audio sent to a recording session is written to its ring buffer, and
    the call returns a value whatever the collaborator does. *)
Lemma process_audio_chunk_while_recording svc sid s audio_data now :
  Realtime.sessions svc !! sid = Some s ->
  Realtime.is_recording s = true ->
  exists r svc',
    Realtime.process_audio_chunk client svc sid audio_data now = (Ret r, svc')
    /\ match Realtime.frombuffer audio_data with
       | Raise e => r = Realtime.ChunkError e /\ svc' = svc
       | Ret audio_array =>
           exists s',
             Realtime.sessions svc' !! sid = Some s'
             /\ Realtime.audio_buffer s'
                = AudioBuffer.write (Realtime.audio_buffer s) audio_array
             /\ Realtime.is_recording s' = true
             /\ (always_fails client ->
                 Realtime.transcription_segments s'
                 = Realtime.transcription_segments s)
       end.
Proof.
  intros Hs Hrec. unfold Realtime.process_audio_chunk. rewrite Hs, Hrec.
  cbn [negb]. unfold Realtime.process_audio_chunk_body.
  destruct (Realtime.frombuffer audio_data) as [audio_array|e].
  2: { eexists _, _. split; [reflexivity|]. split; reflexivity. }
  set (s1 := Realtime.set_audio_buffer s _).
  set (svc1 := Realtime.set_session svc sid s1).
  assert (Hs1 : Realtime.sessions svc1 !! sid = Some s1) by apply lookup_insert_eq.
  destruct (Qle_bool _ _).
  - destruct (transcribe_audio_chunk_session svc1 sid s1 now Hs1)
      as (svc2 & s2 & -> & Hs2 & Hbuf & Hrec2 & _ & Hfail).
    set (svc3 := Realtime.modify_session svc2 sid _).
    assert (Hs3 : Realtime.sessions svc3 !! sid
                  = Some (Realtime.set_last_transcription_time s2 now)).
    { unfold svc3, Realtime.modify_session. rewrite Hs2. apply lookup_insert_eq. }
    assert (Hfinal : exists s',
               Realtime.sessions svc3 !! sid = Some s'
               /\ Realtime.audio_buffer s'
                  = AudioBuffer.write (Realtime.audio_buffer s) audio_array
               /\ Realtime.is_recording s' = true
               /\ (always_fails client ->
                   Realtime.transcription_segments s'
                   = Realtime.transcription_segments s)).
    { eexists. split; [exact Hs3|].
      cbn [Realtime.set_last_transcription_time Realtime.audio_buffer
           Realtime.is_recording Realtime.transcription_segments].
      rewrite Hbuf, Hrec2. repeat split; [exact Hrec|].
      intros Hf. apply (Hfail Hf). }
    destruct (Realtime._get_buffer_level svc3 sid);
      eexists _, _; (split; [reflexivity|exact Hfinal]).
  - destruct (Realtime._get_buffer_level svc1 sid);
      eexists _, _; (split; [reflexivity|]);
      exists s1; repeat split; try exact Hs1; exact Hrec.
Qed.

End RealtimeService.

(** ** The final pass of the ring-buffer service *)

(** What [stop_recording] leaves in the session: the session with its
    recording flag cleared and, when the final request over the window
    answered with non-blank text, that text as final transcription. *)
Lemma final_pass_session
    (client : nat -> Realtime.Request -> outcome Realtime.Transcript)
    svc sid s :
  Realtime.sessions svc !! sid = Some s ->
  let audio_data :=
    AudioBuffer.read_last_seconds (Realtime.audio_buffer s)
                                  (Realtime.buffer_duration svc) in
  let stopped := Realtime.set_is_recording s false in
  exists svc' s',
    Realtime.stop_recording client svc sid = (Ret true, svc')
    /\ Realtime.sessions svc' !! sid = Some s'
    /\ (forall other, other <> sid ->
          Realtime.sessions svc' !! other = Realtime.sessions svc !! other)
    /\ if Realtime.too_short svc audio_data then
         Realtime.client_log svc' = Realtime.client_log svc /\ s' = stopped
       else
         Realtime.client_log svc'
         = Realtime.client_log svc ++ [Realtime.text_format audio_data]
         /\ s' = match client (length (Realtime.client_log svc))
                              (Realtime.text_format audio_data) with
                 | Ret transcript =>
                     match strip (Realtime.transcript_text transcript) with
                     | [] => stopped
                     | _ :: _ =>
                         Realtime.set_final_transcription stopped
                           (strip (Realtime.transcript_text transcript))
                     end
                 | Raise _ => stopped
                 end.
Proof.
  intros Hs audio_data stopped.
  unfold Realtime.stop_recording. rewrite Hs. fold stopped.
  unfold Realtime._process_final_audio_chunk.
  cbn [Realtime.set_session Realtime.set_sessions Realtime.sessions].
  rewrite lookup_insert_eq.
  unfold Realtime.process_final_audio_chunk_body.
  change (Realtime.audio_buffer stopped) with (Realtime.audio_buffer s).
  change (Realtime.buffer_duration (Realtime.set_session svc sid stopped))
    with (Realtime.buffer_duration svc).
  change (Realtime.client_log (Realtime.set_session svc sid stopped))
    with (Realtime.client_log svc).
  fold audio_data.
  change (Realtime.too_short (Realtime.set_session svc sid stopped) audio_data)
    with (Realtime.too_short svc audio_data).
  assert (Hother : forall (x : Realtime.Session) other, other <> sid ->
            <[sid := x]> (Realtime.sessions svc) !! other
            = Realtime.sessions svc !! other)
    by (intros x other Hne; apply lookup_insert_ne; congruence).
  destruct (Realtime.too_short svc audio_data).
  { eexists _, _. split; [reflexivity|]. cbn [Realtime.sessions Realtime.client_log].
    split; [apply lookup_insert_eq|]. split; [apply Hother|]. split; reflexivity. }
  destruct (client _ _) as [transcript|e].
  - destruct (strip (Realtime.transcript_text transcript)) as [|c t].
    + eexists _, _. split; [reflexivity|].
      cbn [Realtime.sessions Realtime.client_log Realtime.log_request].
      split; [apply lookup_insert_eq|]. split; [apply Hother|]. split; reflexivity.
    + eexists _, _. split; [reflexivity|].
      cbn [Realtime.set_session Realtime.set_sessions Realtime.sessions
           Realtime.client_log Realtime.log_request].
      split; [apply lookup_insert_eq|]. split.
      * intros other Hne. rewrite lookup_insert_ne by congruence.
        apply Hother, Hne.
      * split; reflexivity.
  - eexists _, _. split; [reflexivity|].
    cbn [Realtime.sessions Realtime.client_log Realtime.log_request].
    split; [apply lookup_insert_eq|]. split; [apply Hother|]. split; reflexivity.
Qed.




(** * Further properties *)

(** ** The ring buffer, before and after it fills *)

Section RingBufferReads.
Context {A : Type} (zero : A).
Implicit Types (b : AudioBuffer.t A) (h d : list A).

(** While fewer samples than the capacity have been written the buffer is
    a plain prefix store. *)
Lemma partial_fill_write b h d :
  length (AudioBuffer.buffer b) = AudioBuffer.buffer_size b ->
  AudioBuffer.is_full b = false ->
  AudioBuffer.write_index b = length h ->
  take (length h) (AudioBuffer.buffer b) = h ->
  length h + length d < AudioBuffer.buffer_size b ->
  let b' := AudioBuffer.write b d in
  length (AudioBuffer.buffer b') = AudioBuffer.buffer_size b'
  /\ AudioBuffer.is_full b' = false
  /\ AudioBuffer.write_index b' = length (h ++ d)
  /\ take (length (h ++ d)) (AudioBuffer.buffer b') = h ++ d.
Proof.
  intros Hlen Hf Hwi Hpre Hsum. unfold AudioBuffer.write.
  destruct (Nat.leb_spec (AudioBuffer.buffer_size b) (length d)); [lia|].
  destruct (Nat.leb_spec (AudioBuffer.write_index b + length d)
                         (AudioBuffer.buffer_size b)); [|lia].
  cbn [AudioBuffer.buffer AudioBuffer.buffer_size AudioBuffer.is_full
       AudioBuffer.write_index].
  rewrite Hwi, length_app, Nat.mod_small by lia.
  unfold slice_assign. rewrite Hpre.
  split.
  { rewrite !length_app, length_drop. lia. }
  split; [exact Hf|]. split; [reflexivity|].
  rewrite (assoc_L (++)).
  rewrite <- (length_app h d). apply take_app_length.
Qed.

Lemma partial_fill_writes chunks b h :
  length (AudioBuffer.buffer b) = AudioBuffer.buffer_size b ->
  AudioBuffer.is_full b = false ->
  AudioBuffer.write_index b = length h ->
  take (length h) (AudioBuffer.buffer b) = h ->
  length h + length (AudioBuffer.written chunks) < AudioBuffer.buffer_size b ->
  let b' := AudioBuffer.writes b chunks in
  let h' := h ++ AudioBuffer.written chunks in
  length (AudioBuffer.buffer b') = AudioBuffer.buffer_size b'
  /\ AudioBuffer.is_full b' = false
  /\ AudioBuffer.write_index b' = length h'
  /\ take (length h') (AudioBuffer.buffer b') = h'.
Proof.
  unfold AudioBuffer.writes, AudioBuffer.written.
  revert b h. induction chunks as [|d chunks IH];
    intros b h Hlen Hf Hwi Hpre Hsum; simpl in *.
  - rewrite app_nil_r. repeat split; assumption.
  - rewrite length_app in Hsum.
    destruct (partial_fill_write b h d Hlen Hf Hwi Hpre ltac:(lia))
      as (Hlen' & Hf' & Hwi' & Hpre').
    rewrite (assoc_L (++)). apply IH; try assumption.
    rewrite write_buffer_size, length_app. lia.
Qed.

(** X1. Starting from a new buffer of positive capacity, every sequence of
    writes leaves the backing store exactly as long as the capacity and the
    write cursor strictly below the capacity. *)
Theorem writes_keep_cursor_in_range sr dur (chunks : list (list A)) :
  0 < to_samples sr dur ->
  let b := AudioBuffer.writes (AudioBuffer.init zero sr dur) chunks in
  AudioBuffer.buffer_size b = to_samples sr dur
  /\ length (AudioBuffer.buffer b) = to_samples sr dur
  /\ AudioBuffer.write_index b < to_samples sr dur.
Proof.
  intros Hpos b.
  pose proof (ring_inv_writes zero chunks _ [] (ring_inv_init zero sr dur Hpos))
    as (Hlen & Hwi & _).
  fold b in Hlen, Hwi.
  assert (Hbs : AudioBuffer.buffer_size b = to_samples sr dur)
    by apply writes_buffer_size.
  rewrite Hbs in Hlen, Hwi. repeat split; assumption.
Qed.

(** X2. While fewer samples than the capacity have been written in all,
    [read_last_seconds] returns the most recent ones, oldest first: as many
    as the duration asks for, or everything written when that is less. *)
Theorem read_before_full sr dur (chunks : list (list A)) duration :
  length (AudioBuffer.written chunks) < to_samples sr dur ->
  let b := AudioBuffer.writes (AudioBuffer.init zero sr dur) chunks in
  let w := AudioBuffer.written chunks in
  AudioBuffer.read_last_seconds b duration
  = drop (length w - to_samples sr duration) w.
Proof.
  intros Htotal b w.
  destruct (partial_fill_writes chunks (AudioBuffer.init zero sr dur) [])
    as (Hlen & Hf & Hwi & Hpre); simpl;
    try reflexivity; try (rewrite ?length_replicate; lia).
  fold b in Hlen, Hf, Hwi, Hpre. simpl in Hwi, Hpre. fold w in Hwi, Hpre, Htotal.
  assert (Hbs : AudioBuffer.buffer_size b = to_samples sr dur)
    by apply writes_buffer_size.
  assert (Hsr : AudioBuffer.sample_rate b = sr) by apply writes_sample_rate.
  unfold AudioBuffer.read_last_seconds. rewrite Hf, Hsr, Hbs, Hwi.
  cbn [negb andb].
  set (n := to_samples sr duration).
  destruct (Nat.ltb_spec (length w) (n `min` to_samples sr dur)).
  - rewrite Hpre. replace (length w - n) with 0 by lia. reflexivity.
  - destruct (Nat.leb_spec (n `min` to_samples sr dur) (length w)); [|lia].
    rewrite Nat.min_l by lia.
    unfold slice. rewrite take_drop_commute.
    replace (length w - n + (length w - (length w - n))) with (length w) by lia.
    rewrite Hpre. reflexivity.
Qed.

End RingBufferReads.

(** The theorem on three samples in a buffer of eight, reading half a
    second at 4 Hz. *)
Lemma read_before_full_witness :
  AudioBuffer.read_last_seconds
    (AudioBuffer.writes (AudioBuffer.init 0%Z 4 2) [[1; 2]; [3]]%Z) (1 # 2)
  = [2; 3]%Z.
Proof.
  refine (eq_trans (read_before_full 0%Z 4 2 [[1; 2]; [3]]%Z (1 # 2) _) _).
  - vm_compute. lia.
  - reflexivity.
Defined.

(** The theorem on a buffer of four samples written twice over. *)
Lemma writes_keep_cursor_in_range_witness :
  AudioBuffer.write_index
    (AudioBuffer.writes (AudioBuffer.init 0%Z 4 1) [[1; 2; 3]; [4; 5; 6]]%Z) < 4.
Proof.
  refine (proj2 (proj2
    (writes_keep_cursor_in_range 0%Z 4 1 [[1; 2; 3]; [4; 5; 6]]%Z _))).
  vm_compute. lia.
Defined.

Section RingBufferFullReads.
Context {A : Type} (zero : A).

(** X3. Once a sequence of writes has left the buffer marked full,
    [read_last_seconds] of any duration returns the most recently written
    samples, oldest first: as many as the duration asks for, and at most
    the capacity. *)
Theorem read_when_full sr dur (chunks : list (list A)) duration :
  0 < to_samples sr dur ->
  let b := AudioBuffer.writes (AudioBuffer.init zero sr dur) chunks in
  let w := AudioBuffer.written chunks in
  AudioBuffer.is_full b = true ->
  AudioBuffer.read_last_seconds b duration
  = drop (length w - to_samples sr duration `min` to_samples sr dur) w.
Proof.
  intros Hpos b w Hf.
  pose proof (ring_inv_writes zero chunks _ [] (ring_inv_init zero sr dur Hpos))
    as (Hlen & Hwi & Hrot & Hfull & _).
  simpl in Hrot, Hfull. fold b in Hlen, Hwi, Hrot, Hfull. fold w in Hrot, Hfull.
  specialize (Hfull Hf).
  assert (Hbs : AudioBuffer.buffer_size b = to_samples sr dur)
    by apply writes_buffer_size.
  assert (Hsr : AudioBuffer.sample_rate b = sr) by apply writes_sample_rate.
  rewrite slice_last_app_ge in Hrot by lia.
  unfold slice_last in Hrot.
  destruct (Nat.eqb_spec (AudioBuffer.buffer_size b) 0) as [|_]; [lia|].
  unfold AudioBuffer.read_last_seconds. rewrite Hf, Hsr. cbn [negb andb].
  rewrite <- Hbs.
  set (bs := AudioBuffer.buffer_size b) in *.
  set (wi := AudioBuffer.write_index b) in *.
  set (buf := AudioBuffer.buffer b) in *.
  set (k := to_samples sr duration `min` bs).
  assert (Hk : k <= bs) by (unfold k; lia).
  replace (length w - k) with (length w - bs + (bs - k)) by lia.
  rewrite <- drop_drop, <- Hrot.
  destruct (Nat.leb_spec k wi).
  - unfold slice. rewrite drop_app_ge by (rewrite length_drop; lia).
    rewrite length_drop, take_drop_commute.
    replace (wi - k + (wi - (wi - k))) with wi by lia.
    f_equal. lia.
  - rewrite drop_app_le by (rewrite length_drop; lia).
    rewrite drop_drop. do 2 f_equal. lia.
Qed.

(** X4. After any sequence of writes, [read_last_seconds] never returns
    more samples than the duration asks for, nor more than the capacity. *)
Theorem read_length_bounded sr dur (chunks : list (list A)) duration :
  0 < to_samples sr dur ->
  let b := AudioBuffer.writes (AudioBuffer.init zero sr dur) chunks in
  length (AudioBuffer.read_last_seconds b duration)
  <= to_samples sr duration `min` to_samples sr dur.
Proof.
  intros Hpos b.
  pose proof (ring_inv_writes zero chunks _ [] (ring_inv_init zero sr dur Hpos))
    as (Hlen & Hwi & _).
  fold b in Hlen, Hwi.
  assert (Hbs : AudioBuffer.buffer_size b = to_samples sr dur)
    by apply writes_buffer_size.
  assert (Hsr : AudioBuffer.sample_rate b = sr) by apply writes_sample_rate.
  unfold AudioBuffer.read_last_seconds. rewrite Hsr, <- Hbs.
  set (k := to_samples sr duration `min` AudioBuffer.buffer_size b).
  assert (Hk : k <= AudioBuffer.buffer_size b) by (unfold k; lia).
  destruct (negb (AudioBuffer.is_full b)
            && (AudioBuffer.write_index b <? k)) eqn:Hshort.
  - apply andb_prop in Hshort as [_ Hlt]. apply Nat.ltb_lt in Hlt.
    rewrite length_take. lia.
  - destruct (Nat.leb_spec k (AudioBuffer.write_index b)).
    + unfold slice. rewrite length_take, length_drop. lia.
    + rewrite length_app, length_drop, length_take. lia.
Qed.

End RingBufferFullReads.

(** The theorem on a buffer of four samples after six were written,
    reading half a second at 4 Hz. *)
Lemma read_when_full_witness :
  AudioBuffer.read_last_seconds
    (AudioBuffer.writes (AudioBuffer.init 0%Z 4 1) [[1; 2; 3]; [4; 5; 6]]%Z)
    (1 # 2)
  = [5; 6]%Z.
Proof.
  refine (eq_trans
    (read_when_full 0%Z 4 1 [[1; 2; 3]; [4; 5; 6]]%Z (1 # 2) _ _) _).
  - vm_compute. lia.
  - reflexivity.
  - reflexivity.
Defined.

(** The theorem on the same buffer, asked for ten seconds. *)
Lemma read_length_bounded_witness :
  length (AudioBuffer.read_last_seconds
            (AudioBuffer.writes (AudioBuffer.init 0%Z 4 1)
               [[1; 2; 3]; [4; 5; 6]]%Z) 10) <= 4.
Proof.
  refine (read_length_bounded 0%Z 4 1 [[1; 2; 3]; [4; 5; 6]]%Z 10 _).
  vm_compute. lia.
Defined.

(** ** Little-endian fields and the container *)

Lemma le_digits_length (k : nat) (n : Z) : length (Wav.le_digits k n) = k.
Proof. revert n. induction k as [|k IH]; intros n; simpl; [|rewrite IH]; reflexivity. Qed.

Lemma le_digits_bytes (k : nat) (n : Z) :
  Forall (fun x => (0 <= x < 256)%Z) (Wav.le_digits k n).
Proof.
  revert n. induction k as [|k IH]; intros n; simpl; constructor.
  - apply Z.mod_pos_bound. lia.
  - apply IH.
Qed.

(** X5. [n.to_bytes(length, 'little')] answers exactly when
    [0 <= n < 256 ^ length], with [length] bytes, each below 256, that
    read back to [n]; otherwise it raises [OverflowError]. *)
Theorem to_bytes_round_trip (n : Z) (k : nat) :
  match Wav.to_bytes n k with
  | Ret b =>
      (0 <= n < 256 ^ Z.of_nat k)%Z
      /\ length b = k
      /\ Forall (fun x => (0 <= x < 256)%Z) b
      /\ Wav.from_bytes b = n
  | Raise e => e = OverflowError /\ (n < 0 \/ 256 ^ Z.of_nat k <= n)%Z
  end.
Proof.
  unfold Wav.to_bytes.
  destruct (Z.leb_spec 0 n); destruct (Z.ltb_spec n (256 ^ Z.of_nat k)); simpl.
  - split; [lia|]. split; [apply le_digits_length|].
    split; [apply le_digits_bytes|]. apply from_bytes_le_digits. lia.
  - split; [reflexivity|lia].
  - split; [reflexivity|lia].
  - split; [reflexivity|lia].
Qed.

(** X6. [_create_temp_wav_from_buffer] gives up, returning [None], exactly
    when the payload is too long for the 32-bit ChunkSize field, that is
    when its length plus 36 reaches [2 ^ 32]. *)
Theorem create_temp_wav_none_iff_overflow (audio_buffer : Wav.bytes) :
  Wav._create_temp_wav_from_buffer audio_buffer = None
  <-> (2 ^ 32 <= Z.of_nat (length audio_buffer) + 36)%Z.
Proof.
  unfold Wav._create_temp_wav_from_buffer.
  destruct (Z.lt_ge_cases (Z.of_nat (length audio_buffer) + 36) (2 ^ 32)) as [H|H].
  - rewrite write_wav_in_range by exact H. split; [discriminate|lia].
  - rewrite write_wav_overflow by exact H. split; [intros _; exact H|reflexivity].
Qed.

(** X7. The WebSocket transcriber sends the collaborator at most one file.
    With no client or an empty buffer it sends nothing and returns [None];
    a failure of the collaborator is absorbed as [None]; and a returned
    transcript is the stripped, non-empty answer of the collaborator to the
    container written for the buffer. *)
Theorem transcribe_audio_buffer_outcomes
    (client : option (Wav.bytes -> outcome str)) (audio_buffer : Wav.bytes) :
  let r := fst (Wav.transcribe_audio_buffer client audio_buffer) in
  let sent := snd (Wav.transcribe_audio_buffer client audio_buffer) in
  length sent <= 1
  /\ (client = None \/ audio_buffer = [] -> r = None /\ sent = [])
  /\ (forall create temp_file e,
        client = Some create -> sent = [temp_file] ->
        create temp_file = Raise e -> r = None)
  /\ (forall t, r = Some t ->
        exists create temp_file answer,
          client = Some create
          /\ Wav._create_temp_wav_from_buffer audio_buffer = Some temp_file
          /\ sent = [temp_file]
          /\ create temp_file = Ret answer
          /\ answer <> []
          /\ t = strip answer).
Proof.
  unfold Wav.transcribe_audio_buffer, Wav._create_temp_wav_from_buffer.
  destruct client as [create|].
  2: { simpl. repeat split; try lia; try discriminate. }
  destruct audio_buffer as [|b audio_buffer].
  { simpl. repeat split; try lia; try discriminate. }
  destruct (Wav.write_wav (b :: audio_buffer)) as [f|e0].
  2: { simpl. split; [lia|]. split; [intros [|]; discriminate|].
       split; discriminate. }
  destruct (create f) as [[|c transcript]|e0] eqn:Hc; simpl.
  - split; [lia|]. split; [intros [|]; discriminate|].
    split; [reflexivity|discriminate].
  - split; [lia|]. split; [intros [|]; discriminate|]. split.
    + intros create' f' e [= <-] [= <-] He. rewrite Hc in He. discriminate.
    + intros t [= <-]. exists create, f, (c :: transcript).
      repeat split; try assumption. discriminate.
  - split; [lia|]. split; [intros [|]; discriminate|].
    split; [reflexivity|discriminate].
Qed.

(** ** Audio frames of the ring-buffer service *)

Lemma frombuffer_cons4 b0 b1 b2 b3 (rest : Wav.bytes) :
  Realtime.frombuffer (b0 :: b1 :: b2 :: b3 :: rest)
  = match Realtime.frombuffer rest with
    | Ret samples => Ret (Wav.from_bytes [b0; b1; b2; b3] :: samples)
    | Raise e => Raise e
    end.
Proof. reflexivity. Qed.

Lemma frombuffer_spec (n : nat) (audio_data : Wav.bytes) :
  length audio_data <= n ->
  match Realtime.frombuffer audio_data with
  | Ret samples => length audio_data = 4 * length samples
  | Raise e => e = ValueError /\ length audio_data mod 4 <> 0
  end.
Proof.
  revert audio_data. induction n as [|n IH]; intros audio_data Hn.
  - destruct audio_data; [reflexivity|simpl in Hn; lia].
  - destruct audio_data as [|b0 [|b1 [|b2 [|b3 rest]]]];
      try (simpl; split; [reflexivity|discriminate]); [reflexivity|].
    rewrite frombuffer_cons4.
    specialize (IH rest ltac:(simpl in Hn; lia)).
    destruct (Realtime.frombuffer rest) as [samples|e].
    + simpl. lia.
    + destruct IH as [-> Hmod]. split; [reflexivity|].
      change (length (b0 :: b1 :: b2 :: b3 :: rest)) with (4 + length rest).
      replace (4 + length rest) with (length rest + 1 * 4) by lia.
      rewrite Nat.Div0.mod_add. exact Hmod.
Qed.

(** X8. A frame is read as float32 samples, four bytes each: a frame whose
    length is a multiple of four gives a quarter as many samples, and any
    other length raises [ValueError]; a recording session that is sent such
    a frame gets the error back as the answer and the service is left as it
    was. *)
Theorem frame_length_multiple_of_four
    (client : nat -> Realtime.Request -> outcome Realtime.Transcript)
    svc sid s (audio_data : Wav.bytes) now :
  match Realtime.frombuffer audio_data with
  | Ret samples =>
      length audio_data mod 4 = 0 /\ length samples = length audio_data / 4
  | Raise e =>
      e = ValueError
      /\ length audio_data mod 4 <> 0
      /\ (Realtime.sessions svc !! sid = Some s ->
          Realtime.is_recording s = true ->
          Realtime.process_audio_chunk client svc sid audio_data now
          = (Ret (Realtime.ChunkError ValueError), svc))
  end.
Proof.
  pose proof (frombuffer_spec (length audio_data) audio_data (Nat.le_refl _)) as H.
  destruct (Realtime.frombuffer audio_data) as [samples|e] eqn:Hfb.
  - rewrite H. split.
    + rewrite Nat.mul_comm. apply Nat.Div0.mod_mul.
    + rewrite Nat.mul_comm, Nat.div_mul; [reflexivity|discriminate].
  - destruct H as [-> Hmod]. split; [reflexivity|]. split; [exact Hmod|].
    intros Hs Hrec. unfold Realtime.process_audio_chunk. rewrite Hs, Hrec.
    cbn [negb]. unfold Realtime.process_audio_chunk_body. rewrite Hfb.
    reflexivity.
Qed.

(** ** What one call on the basic service touches *)

Section BasicCalls.
Variable client : nat -> Wav.bytes -> outcome Basic.Transcript.

Lemma transcribe_audio_file_shape svc sid audio_file now :
  let svc' := snd (Basic.transcribe_audio_file client svc sid audio_file now) in
  (exists extra,
      Basic.client_log svc' = Basic.client_log svc ++ extra /\ length extra <= 1)
  /\ (Basic.sessions svc' = Basic.sessions svc
      \/ (is_Some (Basic.sessions svc !! sid)
          /\ exists s', Basic.sessions svc' = <[sid := s']> (Basic.sessions svc))).
Proof.
  unfold Basic.transcribe_audio_file.
  destruct (Basic.sessions svc !! sid) as [s|] eqn:Hs; cbn [snd].
  { destruct (client _ _) as [transcript|e]; cbn [snd].
    - destruct (strip _); cbn [snd Basic.set_session Basic.sessions Basic.client_log].
      + split; [exists [audio_file]; split; [reflexivity|simpl; lia]|].
        left. reflexivity.
      + split; [exists [audio_file]; split; [reflexivity|simpl; lia]|].
        right. split; [eauto|]. eexists. reflexivity.
    - split; [exists [audio_file]; split; [reflexivity|simpl; lia]|].
      left. reflexivity. }
  split; [exists []; rewrite app_nil_r; split; [reflexivity|simpl; lia]|].
  left. reflexivity.
Qed.

Lemma process_audio_data_shape svc sid audio_data now :
  let svc' := snd (Basic.process_audio_data client svc sid audio_data now) in
  (exists extra,
      Basic.client_log svc' = Basic.client_log svc ++ extra /\ length extra <= 1)
  /\ (Basic.sessions svc' = Basic.sessions svc
      \/ (is_Some (Basic.sessions svc !! sid)
          /\ exists s', Basic.sessions svc' = <[sid := s']> (Basic.sessions svc))).
Proof.
  unfold Basic.process_audio_data.
  destruct (Basic.sessions svc !! sid) as [s|] eqn:Hs; cbn [snd].
  2: { split; [exists []; rewrite app_nil_r; split; [reflexivity|simpl; lia]|].
       left. reflexivity. }
  set (svc1 := Basic.set_session svc sid (Basic.add_audio_data s audio_data)).
  assert (Hbuffering :
    (exists extra,
        Basic.client_log svc1 = Basic.client_log svc ++ extra /\ length extra <= 1)
    /\ (Basic.sessions svc1 = Basic.sessions svc
        \/ (is_Some (Some s)
            /\ exists s', Basic.sessions svc1 = <[sid := s']> (Basic.sessions svc)))).
  { split; [exists []; rewrite app_nil_r; split; [reflexivity|simpl; lia]|].
    right. split; [eauto|]. eexists. reflexivity. }
  destruct (Qle_bool _ _); [|exact Hbuffering].
  destruct (Wav._create_temp_wav_from_buffer _) as [temp_file|]; [|exact Hbuffering].
  destruct (transcribe_audio_file_shape svc1 sid temp_file now)
    as [(extra & Hlog & Hlen) Hsess].
  destruct (Basic.transcribe_audio_file client svc1 sid temp_file now)
    as [[r|e] svc2]; cbn [snd] in *.
  - assert (Hs2 : exists s2, Basic.sessions svc2 = <[sid := s2]> (Basic.sessions svc)).
    { destruct Hsess as [->|(_ & s' & ->)].
      - eexists. reflexivity.
      - eexists. cbn [svc1 Basic.set_session Basic.sessions].
        apply insert_insert_eq. }
    destruct Hs2 as [s2 Hs2].
    unfold Basic.modify_session. rewrite Hs2, lookup_insert_eq.
    cbn [Basic.set_session Basic.sessions Basic.client_log].
    split; [exists extra; split; [exact Hlog|exact Hlen]|].
    right. split; [eauto|]. eexists. rewrite Hs2. apply insert_insert_eq.
  - split; [exists extra; split; [exact Hlog|exact Hlen]|].
    right. split; [eauto|].
    destruct Hsess as [->|(_ & s' & ->)]; eexists.
    + reflexivity.
    + cbn [svc1 Basic.set_session Basic.sessions]. apply insert_insert_eq.
Qed.

(** X9. A call on the basic service leaves every session other than the
    one it is about exactly as it was. *)
Theorem call_leaves_other_sessions svc now c other :
  other <> target c ->
  Basic.sessions (call client svc (now, c)) !! other
  = Basic.sessions svc !! other.
Proof.
  intros Hne.
  destruct c as [sid uuid|sid|sid|sid data|sid file|sid|sid|sid|sid];
    cbn [call target] in *.
  - apply lookup_insert_ne. congruence.
  - unfold Basic.start_recording.
    destruct (Basic.sessions svc !! sid); [|reflexivity].
    apply lookup_insert_ne. congruence.
  - unfold Basic.stop_recording.
    destruct (Basic.sessions svc !! sid); [|reflexivity].
    apply lookup_insert_ne. congruence.
  - destruct (process_audio_data_shape svc sid data now)
      as [_ [->|(_ & s' & ->)]]; [reflexivity|].
    apply lookup_insert_ne. congruence.
  - destruct (transcribe_audio_file_shape svc sid file now)
      as [_ [->|(_ & s' & ->)]]; [reflexivity|].
    apply lookup_insert_ne. congruence.
  - reflexivity.
  - unfold Basic.get_live_transcription.
    destruct (Basic.sessions svc !! sid); [|reflexivity].
    destruct (Basic.poll _). apply lookup_insert_ne. congruence.
  - reflexivity.
  - unfold Basic.cleanup_session.
    destruct (Basic.sessions svc !! sid); [|reflexivity].
    apply lookup_delete_ne. congruence.
Qed.

(** X10. One call on the basic service adds at most one request to those
    made to the collaborator, and none at all unless it is
    [process_audio_data] or [transcribe_audio_file]; requests already made
    stay on record. *)
Theorem call_makes_at_most_one_request svc now c :
  exists extra,
    Basic.client_log (call client svc (now, c)) = Basic.client_log svc ++ extra
    /\ length extra <= 1
    /\ match c with
       | ProcessAudioData _ _ | TranscribeAudioFile _ _ => True
       | _ => extra = []
       end.
Proof.
  destruct c as [sid uuid|sid|sid|sid data|sid file|sid|sid|sid|sid];
    cbn [call].
  4: { destruct (process_audio_data_shape svc sid data now)
         as [(extra & Hlog & Hlen) _]. exists extra. repeat split; assumption. }
  4: { destruct (transcribe_audio_file_shape svc sid file now)
         as [(extra & Hlog & Hlen) _]. exists extra. repeat split; assumption. }
  all: exists []; rewrite app_nil_r; split; [|split; [simpl; lia|reflexivity]].
  - reflexivity.
  - unfold Basic.start_recording. destruct (Basic.sessions svc !! sid); reflexivity.
  - unfold Basic.stop_recording. destruct (Basic.sessions svc !! sid); reflexivity.
  - reflexivity.
  - unfold Basic.get_live_transcription.
    destruct (Basic.sessions svc !! sid); [|reflexivity].
    destruct (Basic.poll _). reflexivity.
  - reflexivity.
  - unfold Basic.cleanup_session. destruct (Basic.sessions svc !! sid); reflexivity.
Qed.

End BasicCalls.

(** The theorem on a transcription for one of two sessions. *)
Lemma call_leaves_other_sessions_witness :
  let client := fun (_ : nat) (_ : Wav.bytes) =>
    Ret {| Basic.transcript_text := lit "hello";
           Basic.transcript_confidence := None |} in
  let svc :=
    run client Basic.new_service
      [(0%Q, CreateSession (Some "a") "u"); (1%Q, CreateSession (Some "b") "v")] in
  Basic.sessions (call client svc (2%Q, TranscribeAudioFile "a" [1; 2]%Z)) !! "b"
  = Some (Basic.new_session "b" 1%Q).
Proof.
  intros client svc.
  refine (eq_trans (call_leaves_other_sessions client svc 2%Q
                      (TranscribeAudioFile "a" [1; 2]%Z) "b" _) _).
  - cbn [target]. discriminate.
  - vm_compute. reflexivity.
Defined.

(** ** When the basic service transcribes *)

(** X11. [process_audio_data] on an existing session first appends the
    audio to the session's buffer. While the buffer holds fewer than 96000
    bytes (three seconds of 16 kHz 16-bit audio) it answers [buffering]
    with the buffer size, makes no request and keeps the audio. From 96000
    bytes on (and below the size a WAV header can describe) it makes
    exactly one request, whose file is the WAV container of the whole
    buffer, answers [processed] with the result of the transcription, and
    leaves the buffer empty whether the transcription succeeded or not. *)
Theorem process_audio_data_threshold
    (client : nat -> Wav.bytes -> outcome Basic.Transcript)
    svc sid s (audio_data : Wav.bytes) now :
  Basic.sessions svc !! sid = Some s ->
  let buffered := Basic.audio_buffer s ++ audio_data in
  let n := Z.of_nat (length buffered) in
  if (n <? 96000)%Z then
    Basic.process_audio_data client svc sid audio_data now
    = (Ret (Basic.Buffering (length buffered) (n # 32000)),
       Basic.set_session svc sid (Basic.add_audio_data s audio_data))
  else
    (n + 36 < 2 ^ 32)%Z ->
    exists temp_file r svc',
      Wav._create_temp_wav_from_buffer buffered = Some temp_file
      /\ Basic.process_audio_data client svc sid audio_data now
         = (Ret (Basic.Processed r), svc')
      /\ fst (Basic.transcribe_audio_file client
                (Basic.set_session svc sid (Basic.add_audio_data s audio_data))
                sid temp_file now) = Ret r
      /\ Basic.client_log svc' = Basic.client_log svc ++ [temp_file]
      /\ Basic.audio_buffer <$> Basic.sessions svc' !! sid = Some [].
Proof.
  intros Hs buffered n. unfold Basic.process_audio_data. rewrite Hs.
  change (Basic.get_audio_buffer_size (Basic.add_audio_data s audio_data))
    with (length buffered).
  change (Basic.audio_buffer (Basic.add_audio_data s audio_data)) with buffered.
  rewrite three_seconds_gate. fold n.
  destruct (Z.ltb_spec n 96000) as [Hlt|Hge].
  { destruct (Z.leb_spec 96000 n); [lia|]. reflexivity. }
  intros Hfit. destruct (Z.leb_spec 96000 n); [|lia].
  destruct (proj2 (create_temp_wav_is_Some buffered) Hfit) as [temp_file Hwav].
  rewrite Hwav. exists temp_file.
  set (svc1 := Basic.set_session svc sid (Basic.add_audio_data s audio_data)).
  unfold Basic.transcribe_audio_file.
  assert (Hs1 : Basic.sessions svc1 !! sid
                = Some (Basic.add_audio_data s audio_data))
    by apply lookup_insert_eq.
  rewrite Hs1.
  change (Basic.client_log svc1) with (Basic.client_log svc).
  destruct (client _ _) as [transcript|e].
  - destruct (strip (Basic.transcript_text transcript)) as [|c t].
    + eexists _, _. split; [reflexivity|]. split; [reflexivity|].
      split; [reflexivity|].
      unfold Basic.modify_session. cbn [Basic.sessions]. rewrite Hs1.
      cbn [Basic.set_session Basic.sessions Basic.client_log].
      split; [reflexivity|]. rewrite lookup_insert_eq. reflexivity.
    + eexists _, _. split; [reflexivity|]. split; [reflexivity|].
      split; [reflexivity|].
      unfold Basic.modify_session.
      cbn [Basic.set_session Basic.sessions Basic.client_log].
      rewrite lookup_insert_eq.
      cbn [Basic.set_session Basic.sessions Basic.client_log].
      split; [reflexivity|]. rewrite lookup_insert_eq. reflexivity.
  - eexists _, _. split; [reflexivity|]. split; [reflexivity|].
    split; [reflexivity|].
    unfold Basic.modify_session. cbn [Basic.sessions]. rewrite Hs1.
    cbn [Basic.set_session Basic.sessions Basic.client_log].
    split; [reflexivity|]. rewrite lookup_insert_eq. reflexivity.
Qed.

(** The theorem on a session sent two bytes. *)
Lemma process_audio_data_threshold_witness :
  let client := fun (_ : nat) (_ : Wav.bytes) => @Raise Basic.Transcript ApiError in
  let s := Basic.new_session "s" 0%Q in
  let svc := Basic.set_session Basic.new_service "s" s in
  Basic.process_audio_data client svc "s" [1; 2]%Z 1%Q
  = (Ret (Basic.Buffering 2 (2 # 32000)),
     Basic.set_session svc "s" (Basic.add_audio_data s [1; 2]%Z)).
Proof.
  intros client s svc.
  refine (process_audio_data_threshold client svc "s" s [1; 2]%Z 1%Q _).
  vm_compute. reflexivity.
Defined.

(** ** Sessions the basic service can reach *)

Section ReachableSessions.
Variable client : nat -> Wav.bytes -> outcome Basic.Transcript.

Lemma well_formed_new sid now : well_formed sid (Basic.new_session sid now).
Proof. split; [reflexivity|]. split; [exists []; reflexivity|constructor]. Qed.

Lemma well_formed_add sid s text confidence now :
  strip text <> [] ->
  well_formed sid s ->
  well_formed sid (Basic.add_transcription_segment s text confidence now).
Proof.
  intros Hne (Hid & (delivered & Hlog) & Hall). unfold well_formed; simpl.
  split; [exact Hid|]. split.
  - exists delivered. rewrite Hlog, <- (assoc_L (++)). reflexivity.
  - apply Forall_app. split; [exact Hall|].
    constructor; [|constructor]. simpl.
    split; [exact Hid|apply strip_solid, Hne].
Qed.

Lemma well_formed_poll sid s :
  well_formed sid s -> well_formed sid (snd (Basic.poll s)).
Proof.
  intros (Hid & _ & Hall). unfold Basic.poll. rewrite drain_spec. simpl.
  split; [exact Hid|]. split; [|exact Hall].
  exists (Basic.transcription_segments s). rewrite app_nil_r. reflexivity.
Qed.

Lemma well_formed_insert (m : gmap string Basic.BasicAudioSession) sid s :
  well_formed sid s ->
  map_Forall well_formed m -> map_Forall well_formed (<[sid := s]> m).
Proof. intros Hs Hm. apply map_Forall_insert_2; assumption. Qed.

Lemma transcribe_audio_file_well_formed svc sid audio_file now :
  map_Forall well_formed (Basic.sessions svc) ->
  map_Forall well_formed
    (Basic.sessions (snd (Basic.transcribe_audio_file client svc sid audio_file now))).
Proof.
  intros Hinv. unfold Basic.transcribe_audio_file.
  destruct (Basic.sessions svc !! sid) as [s|] eqn:Hs; [|exact Hinv].
  destruct (client _ _) as [transcript|e]; [|exact Hinv].
  destruct (strip (Basic.transcript_text transcript)) as [|c t] eqn:Ht;
    [exact Hinv|].
  cbn [snd Basic.set_session Basic.sessions].
  apply well_formed_insert; [|exact Hinv].
  apply well_formed_add.
  - rewrite <- Ht, strip_idempotent, Ht. discriminate.
  - exact (map_Forall_lookup_1 _ _ _ _ Hinv Hs).
Qed.

Lemma process_audio_data_well_formed svc sid audio_data now :
  map_Forall well_formed (Basic.sessions svc) ->
  map_Forall well_formed
    (Basic.sessions (snd (Basic.process_audio_data client svc sid audio_data now))).
Proof.
  intros Hinv. unfold Basic.process_audio_data.
  destruct (Basic.sessions svc !! sid) as [s|] eqn:Hs; [|exact Hinv].
  pose proof (map_Forall_lookup_1 _ _ _ _ Hinv Hs) as Hwf.
  set (svc1 := Basic.set_session svc sid (Basic.add_audio_data s audio_data)).
  assert (Hinv1 : map_Forall well_formed (Basic.sessions svc1))
    by (apply well_formed_insert; assumption).
  destruct (Qle_bool _ _); [|exact Hinv1].
  destruct (Wav._create_temp_wav_from_buffer _) as [temp_file|]; [|exact Hinv1].
  pose proof (transcribe_audio_file_well_formed svc1 sid temp_file now Hinv1)
    as Hinv2.
  destruct (Basic.transcribe_audio_file client svc1 sid temp_file now)
    as [[r|e] svc2]; cbn [snd] in *; [|exact Hinv2].
  unfold Basic.modify_session.
  destruct (Basic.sessions svc2 !! sid) as [s2|] eqn:Hs2; [|exact Hinv2].
  apply well_formed_insert; [|exact Hinv2].
  exact (map_Forall_lookup_1 _ _ _ _ Hinv2 Hs2).
Qed.

Lemma call_well_formed svc c :
  map_Forall well_formed (Basic.sessions svc) ->
  map_Forall well_formed (Basic.sessions (call client svc c)).
Proof.
  intros Hinv.
  destruct c as [now [sid uuid|sid|sid|sid data|sid file|sid|sid|sid|sid]];
    cbn [call].
  - apply well_formed_insert; [apply well_formed_new|exact Hinv].
  - unfold Basic.start_recording.
    destruct (Basic.sessions svc !! sid) as [s|] eqn:Hs; [|exact Hinv].
    apply well_formed_insert; [|exact Hinv].
    exact (map_Forall_lookup_1 _ _ _ _ Hinv Hs).
  - unfold Basic.stop_recording.
    destruct (Basic.sessions svc !! sid) as [s|] eqn:Hs; [|exact Hinv].
    apply well_formed_insert; [|exact Hinv].
    exact (map_Forall_lookup_1 _ _ _ _ Hinv Hs).
  - apply process_audio_data_well_formed, Hinv.
  - apply transcribe_audio_file_well_formed, Hinv.
  - exact Hinv.
  - unfold Basic.get_live_transcription.
    destruct (Basic.sessions svc !! sid) as [s|] eqn:Hs; [|exact Hinv].
    pose proof (well_formed_poll sid s (map_Forall_lookup_1 _ _ _ _ Hinv Hs)) as Hp.
    destruct (Basic.poll s) as [r s']. cbn [snd] in *.
    apply well_formed_insert; assumption.
  - exact Hinv.
  - unfold Basic.cleanup_session.
    destruct (Basic.sessions svc !! sid) as [s|] eqn:Hs; [|exact Hinv].
    apply map_Forall_delete, Hinv.
Qed.

Lemma run_well_formed calls svc :
  map_Forall well_formed (Basic.sessions svc) ->
  map_Forall well_formed (Basic.sessions (run client svc calls)).
Proof.
  unfold run. revert svc.
  induction calls as [|c calls IH]; intros svc Hsvc; simpl; [exact Hsvc|].
  apply IH, call_well_formed, Hsvc.
Qed.

(** X12. In every state the basic service reaches from its creation,
    whatever the collaborator answers, a session stored under an id
    carries that id; the segments waiting in its delivery queue are the
    latest entries of its segment log, in the same order; and every logged
    segment names that session and has a non-empty text with no whitespace
    at either end. *)
Theorem reachable_sessions_well_formed calls sid s :
  Basic.sessions (run client Basic.new_service calls) !! sid = Some s ->
  Basic.session_id s = sid
  /\ (exists delivered,
        Basic.transcription_segments s = delivered ++ Basic.transcription_queue s)
  /\ Forall (fun segment =>
               Basic.segment_session_id segment = sid
               /\ Basic.text segment <> []
               /\ strip (Basic.text segment) = Basic.text segment)
            (Basic.transcription_segments s).
Proof.
  intros Hs.
  pose proof (run_well_formed calls Basic.new_service (map_Forall_empty _)) as Hinv.
  destruct (map_Forall_lookup_1 _ _ _ _ Hinv Hs) as (Hid & Hq & Hall).
  split; [exact Hid|]. split; [exact Hq|].
  eapply Forall_impl; [exact Hall|].
  intros segment [Hsid Hsolid]. split; [exact Hsid|].
  split; [|apply solid_strip, Hsolid].
  destruct Hsolid as [Hh _]. destruct (Basic.text segment); [destruct Hh|discriminate].
Qed.

End ReachableSessions.

(** The theorem on a session with one delivered and one queued segment. *)
Lemma reachable_sessions_well_formed_witness :
  let client := fun (n : nat) (_ : Wav.bytes) =>
    Ret {| Basic.transcript_text :=
             if n =? 0 then lit " hello " else lit "world ";
           Basic.transcript_confidence := None |} in
  let calls :=
    [(0%Q, CreateSession (Some "s") "u");
     (1%Q, TranscribeAudioFile "s" [82; 73]%Z);
     (2%Q, GetLiveTranscription "s");
     (3%Q, TranscribeAudioFile "s" [70; 70]%Z)] in
  match Basic.sessions (run client Basic.new_service calls) !! "s" with
  | Some s => Basic.session_id s = "s"
  | None => False
  end.
Proof.
  intros client calls.
  destruct (Basic.sessions (run client Basic.new_service calls) !! "s")
    as [s|] eqn:Hs.
  - exact (proj1 (reachable_sessions_well_formed client calls "s" s Hs)).
  - vm_compute in Hs. discriminate Hs.
Defined.

(** ** The manager's set of active sessions *)

Section ManagerSessions.
Variable client : nat -> Wav.bytes -> outcome Basic.Transcript.

Lemma dom_same_or_insert (m m' : gmap string Basic.BasicAudioSession) sid :
  m' = m \/ (is_Some (m !! sid) /\ exists s', m' = <[sid := s']> m) ->
  dom m' = dom m.
Proof.
  intros [->|(Hin & s' & ->)]; [reflexivity|].
  apply dom_insert_lookup_L, Hin.
Qed.

Lemma start_recording_dom svc sid now :
  dom (Basic.sessions (snd (Basic.start_recording svc sid now)))
  = dom (Basic.sessions svc).
Proof.
  unfold Basic.start_recording.
  destruct (Basic.sessions svc !! sid) as [s|] eqn:Hs; [|reflexivity].
  apply dom_insert_lookup_L. rewrite Hs. eauto.
Qed.

Lemma stop_recording_dom svc sid now :
  dom (Basic.sessions (snd (Basic.stop_recording svc sid now)))
  = dom (Basic.sessions svc).
Proof.
  unfold Basic.stop_recording.
  destruct (Basic.sessions svc !! sid) as [s|] eqn:Hs; [|reflexivity].
  apply dom_insert_lookup_L. rewrite Hs. eauto.
Qed.

Lemma get_live_transcription_dom svc sid :
  dom (Basic.sessions (snd (Basic.get_live_transcription svc sid)))
  = dom (Basic.sessions svc).
Proof.
  unfold Basic.get_live_transcription.
  destruct (Basic.sessions svc !! sid) as [s|] eqn:Hs; [|reflexivity].
  destruct (Basic.poll s). apply dom_insert_lookup_L. rewrite Hs. eauto.
Qed.

Lemma manager_call_active (m : Basic.Manager) c :
  Basic.active_sessions m = dom (Basic.sessions (Basic.audio_service m)) ->
  Basic.active_sessions (manager_call client m c)
  = dom (Basic.sessions (Basic.audio_service (manager_call client m c))).
Proof.
  intros Hinv.
  destruct c as [now [uuid|sid|sid|sid data|sid file|sid|sid|sid]];
    cbn [manager_call].
  - unfold Basic.manager_create_session, Basic.create_session.
    cbn. rewrite dom_insert_L, Hinv. apply (comm_L (∪)).
  - unfold Basic.manager_start_recording.
    pose proof (start_recording_dom (Basic.audio_service m) sid now) as Hd.
    destruct (Basic.start_recording _ _ _) as [[] svc']; cbn in *; congruence.
  - unfold Basic.manager_stop_recording.
    pose proof (stop_recording_dom (Basic.audio_service m) sid now) as Hd.
    destruct (Basic.stop_recording _ _ _) as [[] svc']; cbn in *; congruence.
  - unfold Basic.manager_process_audio_data.
    pose proof (process_audio_data_shape client (Basic.audio_service m)
                  sid data now) as [_ Hd].
    apply dom_same_or_insert in Hd.
    destruct (Basic.process_audio_data _ _ _ _ _) as [r svc']; cbn in *.
    congruence.
  - unfold Basic.manager_transcribe_uploaded_audio.
    pose proof (transcribe_audio_file_shape client (Basic.audio_service m)
                  sid file now) as [_ Hd].
    apply dom_same_or_insert in Hd.
    destruct (Basic.transcribe_audio_file _ _ _ _ _) as [r svc']; cbn in *.
    congruence.
  - unfold Basic.manager_get_transcription_updates.
    pose proof (get_live_transcription_dom (Basic.audio_service m) sid) as Hd.
    destruct (Basic.get_live_transcription _ _) as [r svc']; cbn in *.
    congruence.
  - exact Hinv.
  - unfold Basic.manager_cleanup_session, Basic.cleanup_session.
    destruct (Basic.sessions (Basic.audio_service m) !! sid) as [s|] eqn:Hs;
      cbn [snd Basic.audio_service Basic.active_sessions Basic.sessions].
    + rewrite dom_delete_L, <- Hinv.
      destruct (decide (sid ∈ Basic.active_sessions m)) as [|Hout];
        [reflexivity|].
      exfalso. apply Hout. rewrite Hinv. apply elem_of_dom. rewrite Hs. eauto.
    + destruct (decide (sid ∈ Basic.active_sessions m)) as [Hin|];
        [|exact Hinv].
      exfalso. rewrite Hinv in Hin. apply elem_of_dom in Hin as [x Hx].
      rewrite Hs in Hx. discriminate Hx.
Qed.

(** X13. Through any sequence of calls on a new manager, the manager's set
    of active sessions is exactly the set of ids the service holds a
    session for, so [get_active_sessions] lists a session id if and only
    if the session exists. *)
Theorem active_sessions_are_the_sessions calls :
  let m := manager_run client Basic.new_manager calls in
  Basic.active_sessions m = dom (Basic.sessions (Basic.audio_service m))
  /\ forall sid,
      sid ∈ Basic.get_active_sessions m
      <-> is_Some (Basic.sessions (Basic.audio_service m) !! sid).
Proof.
  intros m.
  assert (Hinv : Basic.active_sessions m
                 = dom (Basic.sessions (Basic.audio_service m))).
  { unfold m, manager_run.
    assert (H0 : Basic.active_sessions Basic.new_manager
                 = dom (Basic.sessions (Basic.audio_service Basic.new_manager)))
      by (cbn; rewrite dom_empty_L; reflexivity).
    revert H0. generalize Basic.new_manager.
    induction calls as [|c calls IH]; intros m0 H0; simpl; [exact H0|].
    apply IH, manager_call_active, H0. }
  split; [exact Hinv|].
  intros sid. unfold Basic.get_active_sessions.
  rewrite elem_of_elements, Hinv. apply elem_of_dom.
Qed.

End ManagerSessions.

(** ** The reported recording duration *)

(** X14. The status of a session of the basic service reports a recording
    duration of 0 until the session is first started; once started at a
    time [t0] and never stopped, the clock reading minus [t0]; and once
    stopped at [t1], [t1 - t0] whatever the clock reads. [start] does not
    clear an earlier end time: a session started again after a stop at [e]
    reports [e - t0] until it is stopped again. (Times are non-zero clock
    readings, zero being read as "not set".) *)
Theorem recording_duration_reported svc sid s t0 t1 now :
  Basic.sessions svc !! sid = Some s ->
  Qeq_bool t0 0 = false ->
  Qeq_bool t1 0 = false ->
  let duration svc :=
    Basic.status_recording_duration <$> Basic.get_session_status svc sid now in
  let started := snd (Basic.start_recording svc sid t0) in
  let stopped := snd (Basic.stop_recording started sid t1) in
  (Basic.recording_start_time s = None -> duration svc = Some 0%Q)
  /\ (Basic.recording_end_time s = None ->
      duration started = Some (now - t0)%Q)
  /\ (forall e, Basic.recording_end_time s = Some e -> Qeq_bool e 0 = false ->
        duration started = Some (e - t0)%Q)
  /\ duration stopped = Some (t1 - t0)%Q.
Proof.
  intros Hs H0 H1 duration started stopped.
  subst duration stopped started. cbv beta.
  unfold Basic.get_session_status, Basic.stop_recording, Basic.start_recording.
  rewrite Hs. cbn [snd Basic.set_session Basic.sessions].
  rewrite !lookup_insert_eq. cbn [snd Basic.set_session Basic.sessions].
  rewrite !lookup_insert_eq.
  unfold Basic.get_status, Basic.get_recording_duration. cbn.
  rewrite H0, H1. repeat split.
  - intros ->. reflexivity.
  - intros ->. reflexivity.
  - intros e -> He. cbn. rewrite He. reflexivity.
Qed.

(** The theorem on a new session started at 5 and stopped at 8. *)
Lemma recording_duration_reported_witness :
  let svc := Basic.set_session Basic.new_service "s" (Basic.new_session "s" 1%Q) in
  Basic.status_recording_duration
    <$> Basic.get_session_status
          (snd (Basic.stop_recording (snd (Basic.start_recording svc "s" 5%Q))
                  "s" 8%Q)) "s" 20%Q
  = Some (8 - 5)%Q.
Proof.
  intros svc.
  refine (proj2 (proj2 (proj2
    (recording_duration_reported svc "s" (Basic.new_session "s" 1%Q)
       5%Q 8%Q 20%Q _ _ _)))); vm_compute; reflexivity.
Defined.

(** ** Sessions the ring-buffer service can reach *)

Lemma realtime_drain_spec (queue new : list Realtime.Segment) :
  Realtime.drain queue new = (new ++ queue, []).
Proof.
  revert new. induction queue as [|x queue IH]; intros new; simpl.
  - rewrite app_nil_r. reflexivity.
  - rewrite IH, <- (assoc_L (++)). reflexivity.
Qed.

(** A property of sessions that every change a call makes to a session
    preserves is an invariant of the service. *)
Section RealtimePreservation.
Variable client : nat -> Realtime.Request -> outcome Realtime.Transcript.
Variable P : Realtime.Session -> Prop.

Hypothesis P_new : forall now,
  P {| Realtime.created_at := now;
       Realtime.is_recording := false;
       Realtime.audio_buffer := AudioBuffer.init 0%Z 16000 30;
       Realtime.transcription_queue := [];
       Realtime.full_transcription := [];
       Realtime.transcription_segments := [];
       Realtime.last_transcription_time := 0%Q;
       Realtime.recording_start_time := None;
       Realtime.final_transcription := None |}.
Hypothesis P_flag : forall s b, P s -> P (Realtime.set_is_recording s b).
Hypothesis P_start : forall s t, P s -> P (Realtime.set_recording_start_time s t).
Hypothesis P_write : forall s d,
  P s ->
  P (Realtime.set_audio_buffer s (AudioBuffer.write (Realtime.audio_buffer s) d)).
Hypothesis P_last : forall s t,
  P s -> P (Realtime.set_last_transcription_time s t).
Hypothesis P_poll : forall s, P s -> P (Realtime.set_transcription_queue s []).
Hypothesis P_final : forall s n request transcript,
  P s -> client n request = Ret transcript ->
  strip (Realtime.transcript_text transcript) <> [] ->
  P (Realtime.set_final_transcription s
       (strip (Realtime.transcript_text transcript))).
Hypothesis P_segment : forall s n request transcript timestamp confidence duration,
  P s -> client n request = Ret transcript ->
  strip (Realtime.transcript_text transcript) <> [] ->
  P (Realtime.add_segment s
       {| Realtime.text := strip (Realtime.transcript_text transcript);
          Realtime.timestamp := timestamp;
          Realtime.confidence := confidence;
          Realtime.duration := duration |}).

Lemma inv_set_session svc sid s : P s -> sessions_satisfy P svc -> sessions_satisfy P (Realtime.set_session svc sid s).
Proof.
  intros Hs [Hcfg Hall]. split; [exact Hcfg|].
  apply map_Forall_insert_2; assumption.
Qed.

Lemma inv_log_request svc r : sessions_satisfy P svc -> sessions_satisfy P (Realtime.log_request svc r).
Proof. intros H. exact H. Qed.

Lemma inv_modify svc sid f :
  (forall s, P s -> P (f s)) -> sessions_satisfy P svc -> sessions_satisfy P (Realtime.modify_session svc sid f).
Proof.
  intros Hf Hinv. unfold Realtime.modify_session.
  destruct (Realtime.sessions svc !! sid) as [s|] eqn:Hs; [|exact Hinv].
  apply inv_set_session; [|exact Hinv].
  apply Hf. exact (map_Forall_lookup_1 _ _ _ _ (proj2 Hinv) Hs).
Qed.

Lemma inv_transcribe_audio_chunk svc sid now :
  sessions_satisfy P svc -> sessions_satisfy P (snd (Realtime._transcribe_audio_chunk client svc sid now)).
Proof.
  intros Hinv. unfold Realtime._transcribe_audio_chunk.
  destruct (Realtime.sessions svc !! sid) as [s|] eqn:Hs; [|exact Hinv].
  pose proof (map_Forall_lookup_1 _ _ _ _ (proj2 Hinv) Hs) as HP.
  unfold Realtime.transcribe_audio_chunk_body.
  destruct (Realtime.too_short _ _); [exact Hinv|].
  destruct (client _ _) as [transcript|e] eqn:Hc; [|exact Hinv].
  destruct (strip (Realtime.transcript_text transcript)) as [|c t] eqn:Ht;
    [exact Hinv|].
  cbn [snd]. apply inv_set_session; [|exact Hinv].
  rewrite <- Ht. eapply P_segment; [exact HP|exact Hc|].
  rewrite Ht. discriminate.
Qed.

Lemma inv_process_final_audio_chunk svc sid :
  sessions_satisfy P svc -> sessions_satisfy P (snd (Realtime._process_final_audio_chunk client svc sid)).
Proof.
  intros Hinv. unfold Realtime._process_final_audio_chunk.
  destruct (Realtime.sessions svc !! sid) as [s|] eqn:Hs; [|exact Hinv].
  pose proof (map_Forall_lookup_1 _ _ _ _ (proj2 Hinv) Hs) as HP.
  unfold Realtime.process_final_audio_chunk_body.
  destruct (Realtime.too_short _ _); [exact Hinv|].
  destruct (client _ _) as [transcript|e] eqn:Hc; [|exact Hinv].
  destruct (strip (Realtime.transcript_text transcript)) as [|c t] eqn:Ht;
    [exact Hinv|].
  cbn [snd]. apply inv_set_session; [|exact Hinv].
  rewrite <- Ht. eapply P_final; [exact HP|exact Hc|].
  rewrite Ht. discriminate.
Qed.

Lemma inv_process_audio_chunk svc sid audio_data now :
  sessions_satisfy P svc ->
  sessions_satisfy P (snd (Realtime.process_audio_chunk client svc sid audio_data now)).
Proof.
  intros Hinv. unfold Realtime.process_audio_chunk.
  destruct (Realtime.sessions svc !! sid) as [s|] eqn:Hs; [|exact Hinv].
  pose proof (map_Forall_lookup_1 _ _ _ _ (proj2 Hinv) Hs) as HP.
  destruct (negb (Realtime.is_recording s)); [exact Hinv|].
  unfold Realtime.process_audio_chunk_body.
  destruct (Realtime.frombuffer audio_data) as [audio_array|e]; [|exact Hinv].
  set (svc1 := Realtime.set_session svc sid _).
  assert (Hinv1 : sessions_satisfy P svc1) by (apply inv_set_session; [apply P_write, HP|exact Hinv]).
  destruct (Qle_bool _ _).
  - pose proof (inv_transcribe_audio_chunk svc1 sid now Hinv1) as Hinv2.
    destruct (Realtime._transcribe_audio_chunk client svc1 sid now)
      as [[u|e] svc2]; cbn [snd] in Hinv2.
    + assert (Hinv3 : sessions_satisfy P (Realtime.modify_session svc2 sid
                  (fun session => Realtime.set_last_transcription_time session now)))
        by (apply inv_modify; [intros; apply P_last; assumption|exact Hinv2]).
      destruct (Realtime._get_buffer_level _ _); exact Hinv3.
    + exact Hinv2.
  - destruct (Realtime._get_buffer_level _ _); exact Hinv1.
Qed.

Lemma inv_call svc c : sessions_satisfy P svc -> sessions_satisfy P (Realtime.call client svc c).
Proof.
  intros Hinv.
  destruct c as [now [sid uuid|sid|sid|sid data|sid|sid|sid|sid]];
    cbn [Realtime.call].
  - unfold Realtime.create_session. cbn [snd].
    apply inv_set_session; [|exact Hinv].
    destruct Hinv as [(-> & _ & ->) _]. apply P_new.
  - unfold Realtime.start_recording.
    destruct (Realtime.sessions svc !! sid) as [s|] eqn:Hs; [|exact Hinv].
    apply inv_set_session; [|exact Hinv].
    apply P_start, P_flag. exact (map_Forall_lookup_1 _ _ _ _ (proj2 Hinv) Hs).
  - unfold Realtime.stop_recording.
    destruct (Realtime.sessions svc !! sid) as [s|] eqn:Hs; [|exact Hinv].
    set (svc1 := Realtime.set_session svc sid _).
    assert (Hinv1 : sessions_satisfy P svc1).
    { apply inv_set_session; [|exact Hinv].
      apply P_flag. exact (map_Forall_lookup_1 _ _ _ _ (proj2 Hinv) Hs). }
    pose proof (inv_process_final_audio_chunk svc1 sid Hinv1) as Hinv2.
    destruct (Realtime._process_final_audio_chunk client svc1 sid)
      as [[u|e] svc2]; exact Hinv2.
  - apply inv_process_audio_chunk, Hinv.
  - unfold Realtime.get_live_transcription.
    destruct (Realtime.sessions svc !! sid) as [s|] eqn:Hs; [|exact Hinv].
    rewrite realtime_drain_spec.
    assert (Hinv1 : sessions_satisfy P (Realtime.set_session svc sid
                           (Realtime.set_transcription_queue s []))).
    { apply inv_set_session; [|exact Hinv].
      apply P_poll. exact (map_Forall_lookup_1 _ _ _ _ (proj2 Hinv) Hs). }
    destruct (Realtime._get_buffer_level _ _); exact Hinv1.
  - exact Hinv.
  - exact Hinv.
  - unfold Realtime.cleanup_session.
    destruct (Realtime.sessions svc !! sid) as [s|] eqn:Hs; [|exact Hinv].
    split; [exact (proj1 Hinv)|]. apply map_Forall_delete. exact (proj2 Hinv).
Qed.

Lemma realtime_reachable calls sid s :
  Realtime.sessions (Realtime.run client Realtime.new_service calls) !! sid = Some s ->
  P s /\ default_config (Realtime.run client Realtime.new_service calls).
Proof.
  assert (Hrun : forall svc, sessions_satisfy P svc -> sessions_satisfy P (Realtime.run client svc calls)).
  { unfold Realtime.run.
    induction calls as [|c calls' IH]; intros svc Hinv; simpl; [exact Hinv|].
    apply IH, inv_call, Hinv. }
  intros Hs.
  destruct (Hrun Realtime.new_service) as [Hcfg Hall].
  { split; [repeat split|apply map_Forall_empty]. }
  split; [|exact Hcfg].
  exact (map_Forall_lookup_1 _ _ _ _ Hall Hs).
Qed.

End RealtimePreservation.

(** X15. In every state the ring-buffer service reaches from its creation,
    whatever the collaborator answers, each session's stripped accumulated
    transcript (what status and poll report) is the texts of its segment
    log joined with single spaces; every logged text is non-empty with no
    whitespace at either end; and the segments waiting in the delivery
    queue are the latest entries of the log, in the same order. *)
Theorem realtime_transcript_is_joined_log
    (client : nat -> Realtime.Request -> outcome Realtime.Transcript)
    calls sid s :
  Realtime.sessions (Realtime.run client Realtime.new_service calls) !! sid
  = Some s ->
  strip (Realtime.full_transcription s)
  = join [SPACE] (map Realtime.text (Realtime.transcription_segments s))
  /\ Forall (fun segment => Realtime.text segment <> []
                            /\ strip (Realtime.text segment)
                               = Realtime.text segment)
            (Realtime.transcription_segments s)
  /\ exists delivered,
      Realtime.transcription_segments s
      = delivered ++ Realtime.transcription_queue s.
Proof.
  intros Hs.
  assert (Hinv : realtime_session_inv s);
    [refine (proj1 (realtime_reachable client realtime_session_inv
                      _ _ _ _ _ _ _ _ calls sid s Hs))
    |destruct Hinv as (Hfull & Hall & Hq)].
  - intros now. split; [reflexivity|]. split; [constructor|].
    exists []. reflexivity.
  - intros s0 b H. exact H.
  - intros s0 t H. exact H.
  - intros s0 d H. exact H.
  - intros s0 t H. exact H.
  - intros s0 (H1 & H2 & _). split; [exact H1|]. split; [exact H2|].
    exists (Realtime.transcription_segments s0). simpl. rewrite app_nil_r.
    reflexivity.
  - intros s0 n request transcript H _ _. exact H.
  - intros s0 n request transcript ts conf dur (H1 & H2 & (delivered & H3)) _ Hne.
    unfold realtime_session_inv.
    cbn [Realtime.add_segment Realtime.full_transcription
         Realtime.transcription_segments Realtime.transcription_queue
         Realtime.text].
    rewrite !map_app. cbn [map Realtime.text].
    rewrite spaced_snoc, H1. split; [reflexivity|]. split.
    + apply Forall_app. split; [exact H2|].
      constructor; [apply strip_solid, Hne|constructor].
    + exists delivered. rewrite H3, <- (assoc_L (++)). reflexivity.
  - split; [rewrite Hfull; apply strip_spaced, Hall|]. split; [|exact Hq].
    clear -Hall. induction (Realtime.transcription_segments s) as [|segment l IH];
      [constructor|].
    inversion Hall as [|? ? Hsolid Hrest]; subst.
    constructor; [|apply IH, Hrest].
    split; [|apply solid_strip, Hsolid].
    destruct Hsolid as [Hh _].
    destruct (Realtime.text segment); [destruct Hh|discriminate].
Qed.

(** The theorem on a recording session that is sent half a second of
    audio twice, four seconds apart, and polled in between: the
    collaborator answers both requests, so the log holds two segments, the
    first delivered and the second still queued. *)
Lemma realtime_transcript_is_joined_log_witness :
  let client := fun (_ : nat) (_ : Realtime.Request) =>
    Ret {| Realtime.transcript_text := lit " hello ";
           Realtime.transcript_confidence := None |} in
  let frame := replicate (Z.to_nat 32000) 0%Z in
  let calls :=
    [(0%Q, Realtime.CreateSession (Some "s") "u");
     (1%Q, Realtime.StartRecording "s");
     (5%Q, Realtime.ProcessAudioChunk "s" frame);
     (6%Q, Realtime.GetLiveTranscription "s");
     (9%Q, Realtime.ProcessAudioChunk "s" frame)] in
  match Realtime.sessions (Realtime.run client Realtime.new_service calls) !! "s"
  with
  | Some s =>
      map Realtime.text (Realtime.transcription_segments s)
      = [lit "hello"; lit "hello"]
      /\ map Realtime.text (Realtime.transcription_queue s) = [lit "hello"]
      /\ strip (Realtime.full_transcription s)
         = join [SPACE] (map Realtime.text (Realtime.transcription_segments s))
  | None => False
  end.
Proof.
  intros client frame calls.
  assert (Hlog :
    (fun s => (map Realtime.text (Realtime.transcription_segments s),
               map Realtime.text (Realtime.transcription_queue s)))
      <$> Realtime.sessions (Realtime.run client Realtime.new_service calls)
            !! "s"
    = Some ([lit "hello"; lit "hello"], [lit "hello"]))
    by (vm_compute; reflexivity).
  destruct (Realtime.sessions (Realtime.run client Realtime.new_service calls)
              !! "s") as [s|] eqn:Hs; [|discriminate Hlog].
  injection Hlog as Hsegs Hqueue.
  split; [exact Hsegs|]. split; [exact Hqueue|].
  exact (proj1 (realtime_transcript_is_joined_log client calls "s" s Hs)).
Defined.

(** ** The buffer level of the ring-buffer service *)

Lemma level_bounds (wi bs : nat) :
  wi < bs ->
  (0 <= inject_Z (Z.of_nat wi) / inject_Z (Z.of_nat bs)
   /\ inject_Z (Z.of_nat wi) / inject_Z (Z.of_nat bs) <= 1)%Q.
Proof.
  intros Hlt.
  assert (Hpos : (0 < inject_Z (Z.of_nat bs))%Q)
    by (change 0%Q with (inject_Z 0); rewrite <- Zlt_Qlt; lia).
  split.
  - apply Qle_shift_div_l; [exact Hpos|].
    rewrite Qmult_0_l. change 0%Q with (inject_Z 0). rewrite <- Zle_Qle. lia.
  - apply Qle_shift_div_r; [exact Hpos|].
    rewrite Qmult_1_l, <- Zle_Qle. lia.
Qed.

Lemma default_capacity_positive : 0 < to_samples 16000 30.
Proof.
  unfold to_samples.
  replace (Qfloor (inject_Z 16000 * 30)) with 480000%Z by (vm_compute; reflexivity).
  lia.
Qed.

(** X16. In every state the ring-buffer service reaches from its creation,
    each session's write cursor is below its buffer's capacity, so the
    buffer level is computed without error and lies between 0 and 1, and
    the status query and the transcription poll return an answer. *)
Theorem realtime_buffer_level_in_range
    (client : nat -> Realtime.Request -> outcome Realtime.Transcript)
    calls sid s now :
  let svc := Realtime.run client Realtime.new_service calls in
  Realtime.sessions svc !! sid = Some s ->
  AudioBuffer.write_index (Realtime.audio_buffer s)
    < AudioBuffer.buffer_size (Realtime.audio_buffer s)
  /\ (exists level,
         Realtime._get_buffer_level svc sid = Ret level
         /\ (0 <= level)%Q /\ (level <= 1)%Q
         /\ exists status,
             Realtime.get_session_status svc sid now = Ret (Some status)
             /\ Realtime.status_buffer_level status = level)
  /\ exists live, fst (Realtime.get_live_transcription svc sid) = Ret (Some live).
Proof.
  intros svc Hs.
  assert (Hinv : realtime_buffer_inv s).
  { refine (proj1 (realtime_reachable client realtime_buffer_inv
                     _ _ _ _ _ _ _ _ calls sid s Hs)).
    - intros t. exists []. apply ring_inv_init, default_capacity_positive.
    - intros s0 b H. exact H.
    - intros s0 t H. exact H.
    - intros s0 d [h H]. exists (h ++ d). apply ring_inv_write, H.
    - intros s0 t H. exact H.
    - intros s0 H. exact H.
    - intros s0 n request transcript H _ _. exact H.
    - intros s0 n request transcript ts conf dur H _ _. exact H. }
  destruct Hinv as (h & _ & Hwi & _).
  split; [exact Hwi|].
  assert (Hlevel : exists level,
             Realtime._get_buffer_level svc sid = Ret level
             /\ (0 <= level)%Q /\ (level <= 1)%Q).
  { unfold Realtime._get_buffer_level. rewrite Hs.
    destruct (AudioBuffer.is_full (Realtime.audio_buffer s)).
    - exists 1%Q. repeat split; discriminate.
    - destruct (Nat.eqb_spec
                  (AudioBuffer.buffer_size (Realtime.audio_buffer s)) 0);
        [unfold Realtime.Sample in *; lia|].
      eexists. split; [reflexivity|]. apply level_bounds, Hwi. }
  destruct Hlevel as (level & Hlevel & H0 & H1).
  split.
  - exists level. repeat split; try assumption.
    unfold Realtime.get_session_status. rewrite Hs, Hlevel.
    eexists. split; reflexivity.
  - unfold Realtime.get_live_transcription. rewrite Hs, realtime_drain_spec.
    set (svc1 := Realtime.set_session svc sid _).
    assert (Hsame : exists level', Realtime._get_buffer_level svc1 sid = Ret level').
    { unfold Realtime._get_buffer_level, svc1.
      cbn [Realtime.set_session Realtime.set_sessions Realtime.sessions].
      rewrite lookup_insert_eq.
      cbn [Realtime.set_transcription_queue Realtime.audio_buffer].
      destruct (AudioBuffer.is_full (Realtime.audio_buffer s)); [eauto|].
      destruct (Nat.eqb_spec
                  (AudioBuffer.buffer_size (Realtime.audio_buffer s)) 0);
        [unfold Realtime.Sample in *; lia|eauto]. }
    destruct Hsame as [level' ->]. eexists. reflexivity.
Qed.

(** The theorem on a recording session whose ring buffer has been written
    with half a second of audio: the cursor stands at 8000 of 480000. *)
Lemma realtime_buffer_level_in_range_witness :
  let client := fun (_ : nat) (_ : Realtime.Request) =>
    @Raise Realtime.Transcript ApiError in
  let calls :=
    [(0%Q, Realtime.CreateSession (Some "s") "u");
     (1%Q, Realtime.StartRecording "s");
     (5%Q, Realtime.ProcessAudioChunk "s" (replicate (Z.to_nat 32000) 0%Z))] in
  let svc := Realtime.run client Realtime.new_service calls in
  (fun s => Z.of_nat (AudioBuffer.write_index (Realtime.audio_buffer s)))
    <$> Realtime.sessions svc !! "s" = Some 8000%Z
  /\ exists level,
      Realtime._get_buffer_level svc "s" = Ret level
      /\ (0 <= level)%Q /\ (level <= 1)%Q.
Proof.
  intros client calls svc.
  assert (Hcursor :
    (fun s => Z.of_nat (AudioBuffer.write_index (Realtime.audio_buffer s)))
      <$> Realtime.sessions svc !! "s" = Some 8000%Z)
    by (vm_compute; reflexivity).
  split; [exact Hcursor|].
  destruct (Realtime.sessions svc !! "s") as [s|] eqn:Hs; [|discriminate Hcursor].
  destruct (realtime_buffer_level_in_range client calls "s" s 6%Q Hs)
    as (_ & (level & Hlevel & H0 & H1 & _) & _).
  exists level. repeat split; assumption.
Defined.

(** ** The ring-buffer service and a collaborator that always fails *)

(** X17. When the collaborator fails on every call, in every state the
    ring-buffer service reaches no session has any segment, queued segment,
    transcript or final transcript: the segment count polled is 0, audio
    sent to the session is answered without an exception, and the final
    transcription is the empty string, before and after [stop]. *)
Theorem realtime_failing_collaborator_is_absorbed
    (client : nat -> Realtime.Request -> outcome Realtime.Transcript)
    calls sid s audio_data now :
  always_fails client ->
  let svc := Realtime.run client Realtime.new_service calls in
  Realtime.sessions svc !! sid = Some s ->
  Realtime.transcription_segments s = []
  /\ Realtime.transcription_queue s = []
  /\ Realtime.get_final_transcription svc sid = Some []
  /\ (exists r svc',
         Realtime.process_audio_chunk client svc sid audio_data now = (Ret r, svc'))
  /\ fst (Realtime.manager_stop_recording client svc sid now)
     = Ret (Realtime.RecordingStopped sid (Some []) now).
Proof.
  intros Hfail svc Hs.
  assert (Hinv : realtime_silent s).
  { refine (proj1 (realtime_reachable client realtime_silent
                     _ _ _ _ _ _ _ _ calls sid s Hs)).
    - intros t. repeat split.
    - intros s0 b H. exact H.
    - intros s0 t H. exact H.
    - intros s0 d H. exact H.
    - intros s0 t H. exact H.
    - intros s0 (H1 & H2 & _ & H4). repeat split; assumption.
    - intros s0 n request transcript _ Hc _.
      destruct (Hfail n request) as [e He]. rewrite He in Hc. discriminate Hc.
    - intros s0 n request transcript ts conf dur _ Hc _.
      destruct (Hfail n request) as [e He]. rewrite He in Hc. discriminate Hc. }
  destruct Hinv as (Hsegs & Hfull & Hqueue & Hfinal).
  split; [exact Hsegs|]. split; [exact Hqueue|]. split.
  { unfold Realtime.get_final_transcription. rewrite Hs, Hfinal, Hfull.
    reflexivity. }
  split.
  { unfold Realtime.process_audio_chunk. rewrite Hs.
    destruct (negb (Realtime.is_recording s)); [eauto|].
    destruct (Realtime.process_audio_chunk_body _ _ _ _ _ _) as [[r|e] svc'];
      eauto. }
  destruct (final_pass_session client svc sid s Hs)
    as (svc' & s' & Hstop & Hs' & _ & Hcases).
  assert (Hstopped : s' = Realtime.set_is_recording s false).
  { destruct (Realtime.too_short _ _).
    - destruct Hcases as [_ ->]. reflexivity.
    - destruct Hcases as [_ ->].
      match goal with
      | |- context [client ?n ?request] => destruct (Hfail n request) as [e ->]
      end.
      reflexivity. }
  unfold Realtime.manager_stop_recording. rewrite Hstop. cbn [fst].
  unfold Realtime.get_final_transcription. rewrite Hs', Hstopped. cbn.
  rewrite Hfinal, Hfull. reflexivity.
Qed.

(** The theorem on a recording session that is sent half a second of
    audio: the collaborator is asked once and fails. *)
Lemma realtime_failing_collaborator_is_absorbed_witness :
  let client := fun (_ : nat) (_ : Realtime.Request) =>
    @Raise Realtime.Transcript ApiError in
  let calls :=
    [(0%Q, Realtime.CreateSession (Some "s") "u");
     (1%Q, Realtime.StartRecording "s");
     (5%Q, Realtime.ProcessAudioChunk "s" (replicate (Z.to_nat 32000) 0%Z))] in
  let svc := Realtime.run client Realtime.new_service calls in
  Z.of_nat (length (Realtime.client_log svc)) = 1%Z
  /\ Realtime.get_final_transcription svc "s" = Some []
  /\ fst (Realtime.manager_stop_recording client svc "s" 6%Q)
     = Ret (Realtime.RecordingStopped "s" (Some []) 6%Q).
Proof.
  intros client calls svc.
  split; [vm_compute; reflexivity|].
  assert (Hrec : Realtime.is_recording <$> Realtime.sessions svc !! "s"
                 = Some true) by (vm_compute; reflexivity).
  destruct (Realtime.sessions svc !! "s") as [s|] eqn:Hs; [|discriminate Hrec].
  assert (Hfail : always_fails client)
    by (intros n request; exists ApiError; reflexivity).
  destruct (realtime_failing_collaborator_is_absorbed client calls "s" s
              [0; 0; 0; 0]%Z 6%Q Hfail Hs) as (_ & _ & Hfinal & _ & Hstop).
  split; [exact Hfinal|exact Hstop].
Defined.

(** ** When the ring-buffer service transcribes *)

(** X18. A frame sent to a recording session of the ring-buffer service is
    written to the session's ring buffer. A request to the collaborator is
    made only if at least [chunk_duration] seconds have passed since the
    last transcription time and the window read back for [chunk_duration]
    seconds holds at least half a second of samples; it is then the only
    request, and it is over that window. Whenever the interval has passed
    the last transcription time becomes the time of the call, whether a
    request was made or not and whatever its result; otherwise it is left
    as it was. *)
Theorem transcription_gate
    (client : nat -> Realtime.Request -> outcome Realtime.Transcript)
    svc sid s (audio_data : Wav.bytes) audio_array now :
  Realtime.sessions svc !! sid = Some s ->
  Realtime.is_recording s = true ->
  Realtime.frombuffer audio_data = Ret audio_array ->
  let buffer' := AudioBuffer.write (Realtime.audio_buffer s) audio_array in
  let window := AudioBuffer.read_last_seconds buffer' (Realtime.chunk_duration svc) in
  let due :=
    Qle_bool (Realtime.chunk_duration svc)
             (now - Realtime.last_transcription_time s)%Q in
  exists r svc' s',
    Realtime.process_audio_chunk client svc sid audio_data now = (Ret r, svc')
    /\ Realtime.sessions svc' !! sid = Some s'
    /\ Realtime.audio_buffer s' = buffer'
    /\ Realtime.client_log svc'
       = Realtime.client_log svc
         ++ (if due && negb (Realtime.too_short svc window)
             then [Realtime.verbose_json window] else [])
    /\ Realtime.last_transcription_time s'
       = (if due then now else Realtime.last_transcription_time s).
Proof.
  intros Hs Hrec Hfb buffer' window due.
  unfold Realtime.process_audio_chunk. rewrite Hs, Hrec. cbn [negb].
  unfold Realtime.process_audio_chunk_body. rewrite Hfb.
  fold buffer'.
  set (s1 := Realtime.set_audio_buffer s buffer').
  set (svc1 := Realtime.set_session svc sid s1).
  change (Realtime.last_transcription_time s1)
    with (Realtime.last_transcription_time s).
  change (Realtime.chunk_duration svc1) with (Realtime.chunk_duration svc).
  fold due.
  assert (Hs1 : Realtime.sessions svc1 !! sid = Some s1) by apply lookup_insert_eq.
  destruct due.
  - unfold Realtime._transcribe_audio_chunk. rewrite Hs1.
    unfold Realtime.transcribe_audio_chunk_body.
    change (Realtime.audio_buffer s1) with buffer'.
    change (Realtime.chunk_duration svc1) with (Realtime.chunk_duration svc).
    fold window.
    change (Realtime.too_short svc1 window) with (Realtime.too_short svc window).
    change (Realtime.client_log svc1) with (Realtime.client_log svc).
    cbn [andb].
    destruct (Realtime.too_short svc window); cbn [negb].
    + unfold Realtime.modify_session. rewrite Hs1.
      destruct (Realtime._get_buffer_level _ _); eexists _, _, _;
        (split; [reflexivity|]);
        cbn [Realtime.set_session Realtime.set_sessions Realtime.sessions
             Realtime.client_log svc1];
        rewrite lookup_insert_eq, app_nil_r; repeat split.
    + destruct (client _ _) as [transcript|e].
      * destruct (strip (Realtime.transcript_text transcript)) as [|c t].
        -- unfold Realtime.modify_session.
           cbn [Realtime.log_request Realtime.sessions]. rewrite Hs1.
           destruct (Realtime._get_buffer_level _ _); eexists _, _, _;
             (split; [reflexivity|]);
             cbn [Realtime.set_session Realtime.set_sessions Realtime.sessions
                  Realtime.client_log svc1];
             rewrite lookup_insert_eq; repeat split.
        -- unfold Realtime.modify_session.
           cbn [Realtime.set_session Realtime.set_sessions Realtime.log_request
                Realtime.sessions].
           rewrite lookup_insert_eq.
           destruct (Realtime._get_buffer_level _ _); eexists _, _, _;
             (split; [reflexivity|]);
             cbn [Realtime.set_session Realtime.set_sessions Realtime.sessions
                  Realtime.client_log svc1];
             rewrite lookup_insert_eq; repeat split.
      * unfold Realtime.modify_session.
        cbn [Realtime.log_request Realtime.sessions]. rewrite Hs1.
        destruct (Realtime._get_buffer_level _ _); eexists _, _, _;
          (split; [reflexivity|]);
          cbn [Realtime.set_session Realtime.set_sessions Realtime.sessions
               Realtime.client_log svc1];
          rewrite lookup_insert_eq; repeat split.
  - cbn [andb].
    destruct (Realtime._get_buffer_level _ _); eexists _, _, _;
      (split; [reflexivity|]);
      rewrite Hs1, app_nil_r; repeat split.
Qed.

(** The theorem on a one-sample frame sent, at time 5, to a recording
    session of a service configured with a 4 Hz sample rate. *)
Lemma transcription_gate_witness :
  let client := fun (_ : nat) (_ : Realtime.Request) =>
    @Raise Realtime.Transcript ApiError in
  let s :=
    {| Realtime.created_at := 0%Q;
       Realtime.is_recording := true;
       Realtime.audio_buffer := AudioBuffer.init 0%Z 4 2;
       Realtime.transcription_queue := [];
       Realtime.full_transcription := [];
       Realtime.transcription_segments := [];
       Realtime.last_transcription_time := 0%Q;
       Realtime.recording_start_time := Some 1%Q;
       Realtime.final_transcription := None |} in
  let svc :=
    {| Realtime.sessions := {["s" := s]};
       Realtime.client_log := [];
       Realtime.sample_rate := 4;
       Realtime.chunk_duration := 1;
       Realtime.buffer_duration := 2 |} in
  exists r svc',
    Realtime.process_audio_chunk client svc "s" [0; 0; 128; 63]%Z 5%Q
    = (Ret r, svc')
    /\ Realtime.client_log svc' = [].
Proof.
  intros client s svc.
  destruct (transcription_gate client svc "s" s [0; 0; 128; 63]%Z
              [1065353216]%Z 5%Q)
    as (r & svc' & s' & Hr & _ & _ & Hlog & _); try (vm_compute; reflexivity).
  exists r, svc'. split; [exact Hr|]. rewrite Hlog. vm_compute. reflexivity.
Defined.

(** ** The recording duration of the ring-buffer service *)

(** X19. The ring-buffer service never records an end time: for a session
    started at a (non-zero) time [t0], the recording duration is the clock
    reading minus [t0] while it records, and still is after [stop], so the
    reported duration keeps growing after the recording has stopped. *)
Theorem realtime_duration_follows_clock
    (client : nat -> Realtime.Request -> outcome Realtime.Transcript)
    svc sid s t0 now :
  Realtime.sessions svc !! sid = Some s ->
  Qeq_bool t0 0 = false ->
  let started := snd (Realtime.start_recording svc sid t0) in
  let stopped := snd (Realtime.stop_recording client started sid) in
  Realtime._get_recording_duration started sid now = (now - t0)%Q
  /\ Realtime._get_recording_duration stopped sid now = (now - t0)%Q
  /\ Realtime.is_recording <$> Realtime.sessions stopped !! sid = Some false.
Proof.
  intros Hs H0 started stopped.
  set (s1 := Realtime.set_recording_start_time (Realtime.set_is_recording s true) t0).
  assert (Hs1 : Realtime.sessions started !! sid = Some s1).
  { unfold started, Realtime.start_recording. rewrite Hs. apply lookup_insert_eq. }
  split.
  { unfold Realtime._get_recording_duration. rewrite Hs1. cbn. rewrite H0.
    reflexivity. }
  destruct (final_pass_session client started sid s1 Hs1)
    as (svc' & s' & Hstop & Hs' & _ & Hcases).
  assert (Hfields : Realtime.recording_start_time s' = Some t0
                    /\ Realtime.is_recording s' = false).
  { destruct (Realtime.too_short _ _).
    - destruct Hcases as [_ ->]. split; reflexivity.
    - destruct Hcases as [_ ->].
      destruct (client _ _) as [transcript|e]; [|split; reflexivity].
      destruct (strip _); split; reflexivity. }
  destruct Hfields as [Hstart Hrec].
  unfold stopped. rewrite Hstop. cbn [snd].
  unfold Realtime._get_recording_duration. rewrite Hs', Hstart, Hrec. cbn.
  rewrite H0, Hrec. split; reflexivity.
Qed.

(** The theorem on a session started at 5 and stopped, asked at 20. *)
Lemma realtime_duration_follows_clock_witness :
  let client := fun (_ : nat) (_ : Realtime.Request) =>
    @Raise Realtime.Transcript ApiError in
  let s :=
    {| Realtime.created_at := 0%Q;
       Realtime.is_recording := false;
       Realtime.audio_buffer := AudioBuffer.init 0%Z 4 2;
       Realtime.transcription_queue := [];
       Realtime.full_transcription := [];
       Realtime.transcription_segments := [];
       Realtime.last_transcription_time := 0%Q;
       Realtime.recording_start_time := None;
       Realtime.final_transcription := None |} in
  let svc :=
    {| Realtime.sessions := {["s" := s]};
       Realtime.client_log := [];
       Realtime.sample_rate := 4;
       Realtime.chunk_duration := 1;
       Realtime.buffer_duration := 2 |} in
  Realtime._get_recording_duration
    (snd (Realtime.stop_recording client
            (snd (Realtime.start_recording svc "s" 5%Q)) "s")) "s" 20%Q
  = (20 - 5)%Q.
Proof.
  intros client s svc.
  refine (proj1 (proj2
    (realtime_duration_follows_clock client svc "s" s 5%Q 20%Q _ _)));
    vm_compute; reflexivity.
Defined.

(** ** The WebSocket transcriber *)

Lemma two_seconds_gate (n : nat) :
  Qle_bool Websocket.min_audio_length (Z.of_nat n # 32000)
  = (64000 <=? Z.of_nat n)%Z.
Proof. unfold Qle_bool. cbn [Qnum Qden Websocket.min_audio_length]. rewrite Z.mul_1_r. reflexivity. Qed.



Lemma process_websocket_message_buffer t message now :
  (Z.of_nat (length (Websocket.audio_buffer t)) < 64000)%Z ->
  let t' := snd (Websocket.process_websocket_message t message now) in
  (Z.of_nat (length (Websocket.audio_buffer t')) < 64000)%Z
  /\ Websocket.client t' = Websocket.client t
  /\ Websocket.session_id t' = Websocket.session_id t.
Proof.
  intros Hlt.
  destruct message as [| |[] audio_data];
    cbn [Websocket.process_websocket_message].
  - repeat split; assumption.
  - repeat split; assumption.
  - destruct audio_data as [audio_data|e]; [|repeat split; assumption].
    unfold Websocket.handle_audio_chunk.
    cbn [Websocket.set_audio_buffer Websocket.audio_buffer Websocket.client].
    rewrite two_seconds_gate.
    destruct (Z.leb_spec 64000
                (Z.of_nat (length (Websocket.audio_buffer t ++ audio_data))));
      cbn [snd Websocket.set_audio_buffer Websocket.audio_buffer Websocket.client
           Websocket.session_id length];
      repeat split; lia.
  - unfold Websocket.start_recording_session.
    cbn [snd Websocket.set_audio_buffer Websocket.audio_buffer Websocket.client
         Websocket.session_id length].
    split; [lia|split; reflexivity].
  - unfold Websocket.stop_recording_session.
    cbn [snd Websocket.set_audio_buffer Websocket.audio_buffer Websocket.client
         Websocket.session_id length].
    split; [lia|split; reflexivity].
  - unfold Websocket.get_current_transcription.
    destruct (Websocket.audio_buffer t) eqn:Hb;
      [cbn [snd]; rewrite Hb; split; [exact Hlt|split; reflexivity]|].
    destruct (fst (Wav.transcribe_audio_buffer _ _)) as [[|]|];
      cbn [snd]; rewrite Hb; (split; [exact Hlt|split; reflexivity]).
  - repeat split; assumption.
Qed.

(** X21. Whatever messages a connection brings to a transcriber whose
    buffer holds fewer than 64000 bytes (as a new one does), the buffer
    holds fewer than 64000 bytes after each of them (it is emptied when it
    reaches two seconds of audio, and on start and stop), and the
    transcriber's client and session id never change. *)
Theorem transcriber_buffer_bounded t0 messages :
  (Z.of_nat (length (Websocket.audio_buffer t0)) < 64000)%Z ->
  let t := snd (Websocket.run t0 messages) in
  (Z.of_nat (length (Websocket.audio_buffer t)) < 64000)%Z
  /\ Websocket.client t = Websocket.client t0
  /\ Websocket.session_id t = Websocket.session_id t0.
Proof.
  revert t0. induction messages as [|[now message] messages IH]; intros t0 H0.
  - repeat split; assumption.
  - cbn [Websocket.run].
    destruct (process_websocket_message_buffer t0 message now H0)
      as (H1 & Hc & Hi).
    destruct (Websocket.process_websocket_message t0 message now) as [sent t1].
    cbn [snd] in *.
    destruct (IH t1 H1) as (H2 & Hc2 & Hi2).
    destruct (Websocket.run t1 messages) as [sent' t2]. cbn [snd] in *.
    repeat split; congruence.
Qed.

(** The theorem on a new transcriber that receives three bytes of audio. *)
Lemma transcriber_buffer_bounded_witness :
  (Z.of_nat (length (Websocket.audio_buffer
     (snd (Websocket.run (Websocket.new_transcriber None)
             [(1%Q, Websocket.Object Websocket.audio_chunk
                      (Ret [1; 2; 3]%Z))])))) < 64000)%Z.
Proof.
  refine (proj1 (transcriber_buffer_bounded (Websocket.new_transcriber None)
                   [(1%Q, Websocket.Object Websocket.audio_chunk
                            (Ret [1; 2; 3]%Z))] _)).
  cbn. lia.
Defined.


(** ** The WebSocket session table *)

(** X23. In the table of WebSocket sessions: a created session is found
    under the returned id, with an empty audio buffer and an empty
    accumulated transcription; the count grows by one, unless a session
    with the same timestamp id exists, which the new one then replaces;
    closing a session removes it and it alone, lowers the count by one if
    it existed, and closing it again changes nothing. *)
Theorem session_table_round_trips
    (active_sessions : gmap string Websocket.Session) client stamp now sid :
  let created := Websocket.create_session active_sessions client stamp now in
  let closed := Websocket.close_session active_sessions sid in
  fst created = stamp
  /\ (exists s,
        Websocket.get_session (snd created) (fst created) = Some s
        /\ Websocket.audio_buffer (Websocket.transcriber s) = []
        /\ Websocket.accumulated_transcription s = [])
  /\ Websocket.get_active_sessions_count (snd created)
     = match Websocket.get_session active_sessions stamp with
       | Some _ => Websocket.get_active_sessions_count active_sessions
       | None => S (Websocket.get_active_sessions_count active_sessions)
       end
  /\ Websocket.get_session closed sid = None
  /\ (forall other, other <> sid ->
        Websocket.get_session closed other
        = Websocket.get_session active_sessions other)
  /\ Websocket.get_active_sessions_count closed
     = match Websocket.get_session active_sessions sid with
       | Some _ => pred (Websocket.get_active_sessions_count active_sessions)
       | None => Websocket.get_active_sessions_count active_sessions
       end
  /\ Websocket.close_session closed sid = closed.
Proof.
  intros created closed.
  unfold created, closed, Websocket.create_session, Websocket.close_session,
    Websocket.get_session, Websocket.get_active_sessions_count.
  cbn [fst snd].
  split; [reflexivity|]. split.
  { eexists. rewrite lookup_insert_eq. repeat split. }
  split.
  { rewrite map_size_insert. destruct (active_sessions !! stamp); reflexivity. }
  destruct (active_sessions !! sid) as [s|] eqn:Hs.
  - rewrite lookup_delete_eq. split; [reflexivity|]. split.
    + intros other Hne. apply lookup_delete_ne. congruence.
    + split; [|reflexivity]. rewrite map_size_delete, Hs. reflexivity.
  - rewrite Hs. repeat split.
Qed.

(** ** The HTTP and WebSocket interfaces *)

Lemma manager_eta (m : Basic.Manager) :
  {| Basic.audio_service := Basic.audio_service m;
     Basic.active_sessions := Basic.active_sessions m |} = m.
Proof. destruct m. reflexivity. Qed.

(** X24. Without a manager every audio endpoint answers with HTTP status
    500. With a manager, a request about an unknown session id is not an
    HTTP error: start and stop answer with status "error", the status and
    transcription queries answer "Session not found", and the manager is
    left exactly as it was. *)
Theorem endpoints_on_unknown_session (m : Basic.Manager) sid uuid now :
  Basic.sessions (Basic.audio_service m) !! sid = None ->
  Api.start_recording (Some m) sid now = (Ret Basic.StartFailed, Some m)
  /\ Api.stop_recording (Some m) sid now = (Ret Basic.StopFailed, Some m)
  /\ Api.get_session_status (Some m) sid now = Ret None
  /\ Api.get_transcription_updates (Some m) sid = (Ret None, Some m)
  /\ fst (Api.create_audio_session None uuid now) = Raise (HTTPException 500)
  /\ fst (Api.start_recording None sid now) = Raise (HTTPException 500)
  /\ fst (Api.stop_recording None sid now) = Raise (HTTPException 500)
  /\ Api.get_session_status None sid now = Raise (HTTPException 500)
  /\ fst (Api.get_transcription_updates None sid) = Raise (HTTPException 500).
Proof.
  intros Hs.
  unfold Api.start_recording, Api.stop_recording, Api.get_session_status,
    Api.get_transcription_updates,
    Basic.manager_start_recording, Basic.manager_stop_recording,
    Basic.manager_get_session_info, Basic.manager_get_transcription_updates,
    Basic.start_recording, Basic.stop_recording, Basic.get_session_status,
    Basic.get_live_transcription.
  rewrite Hs, manager_eta. repeat split.
Qed.

(** The theorem on a new manager. *)
Lemma endpoints_on_unknown_session_witness :
  Api.start_recording (Some Basic.new_manager) "s" 1%Q
  = (Ret Basic.StartFailed, Some Basic.new_manager).
Proof.
  refine (proj1 (endpoints_on_unknown_session Basic.new_manager "s" "u" 1%Q _)).
  reflexivity.
Defined.

(** ** One connection of the WebSocket endpoint *)

Section Connection.
Variable client : nat -> Wav.bytes -> outcome Basic.Transcript.
Variable b64decode : string -> outcome Wav.bytes.

Lemma process_audio_data_returns svc sid audio now :
  exists result,
    fst (Basic.process_audio_data client svc sid audio now) = Ret result.
Proof.
  unfold Basic.process_audio_data.
  destruct (Basic.sessions svc !! sid); [|eauto].
  destruct (Qle_bool _ _); [|eauto].
  destruct (Wav._create_temp_wav_from_buffer _); [|eauto].
  destruct (Basic.transcribe_audio_file _ _ _ _ _) as [[r|e] svc2]; eauto.
Qed.

Lemma transcribe_audio_file_session svc sid file now s :
  Basic.sessions svc !! sid = Some s ->
  exists s' added,
    Basic.sessions (snd (Basic.transcribe_audio_file client svc sid file now))
      !! sid = Some s'
    /\ Basic.transcription_segments s'
       = Basic.transcription_segments s ++ added
    /\ Basic.transcription_queue s' = Basic.transcription_queue s ++ added.
Proof.
  intros Hs. unfold Basic.transcribe_audio_file. rewrite Hs.
  destruct (client _ _) as [transcript|e]; cbn [snd Basic.sessions].
  - destruct (strip _) as [|c text] eqn:Htext; cbn [snd Basic.sessions].
    + exists s, []. rewrite !app_nil_r. auto.
    + eexists _, _. cbn [Basic.set_session Basic.sessions].
      rewrite lookup_insert_eq. split; [reflexivity|].
      cbn [Basic.add_transcription_segment Basic.transcription_segments
           Basic.transcription_queue]. split; reflexivity.
  - exists s, []. rewrite !app_nil_r. auto.
Qed.

Lemma process_audio_data_session svc sid audio now s :
  Basic.sessions svc !! sid = Some s ->
  exists s' added,
    Basic.sessions (snd (Basic.process_audio_data client svc sid audio now))
      !! sid = Some s'
    /\ Basic.transcription_segments s'
       = Basic.transcription_segments s ++ added
    /\ Basic.transcription_queue s' = Basic.transcription_queue s ++ added.
Proof.
  intros Hs. unfold Basic.process_audio_data. rewrite Hs.
  set (s1 := Basic.add_audio_data s audio).
  set (svc1 := Basic.set_session svc sid s1).
  assert (Hs1 : Basic.sessions svc1 !! sid = Some s1)
    by (cbn; apply lookup_insert_eq).
  assert (Hbuffering :
    exists s' added,
      Basic.sessions svc1 !! sid = Some s'
      /\ Basic.transcription_segments s'
         = Basic.transcription_segments s ++ added
      /\ Basic.transcription_queue s' = Basic.transcription_queue s ++ added).
  { exists s1, []. rewrite !app_nil_r. auto. }
  destruct (Qle_bool _ _); [|exact Hbuffering].
  destruct (Wav._create_temp_wav_from_buffer _) as [temp_file|];
    [|exact Hbuffering].
  destruct (transcribe_audio_file_session svc1 sid temp_file now s1 Hs1)
    as (s2 & added & Hs2 & Hsegs & Hq).
  destruct (Basic.transcribe_audio_file client svc1 sid temp_file now)
    as [[r|e] svc2]; cbn [snd] in *.
  - unfold Basic.modify_session. rewrite Hs2.
    cbn [Basic.set_session Basic.sessions]. rewrite lookup_insert_eq.
    eexists _, added. split; [reflexivity|]. split; assumption.
  - exists s2, added. auto.
Qed.

(** What one frame does to the session of the connection. *)
Lemma process_and_push_session m sid audio now on_error s :
  Basic.sessions (Basic.audio_service m) !! sid = Some s ->
  exists s' added,
    Basic.sessions (Basic.audio_service
      (snd (Api.process_and_push client m sid audio now on_error))) !! sid
    = Some s'
    /\ Basic.transcription_segments s'
       = Basic.transcription_segments s ++ added
    /\ Basic.transcription_queue s ++ added
       = pushed (fst (Api.process_and_push client m sid audio now on_error))
           ++ Basic.transcription_queue s'.
Proof.
  intros Hs. unfold Api.process_and_push, Basic.manager_process_audio_data.
  destruct (process_audio_data_returns (Basic.audio_service m) sid audio now)
    as [result Hresult].
  destruct (process_audio_data_session _ sid audio now s Hs)
    as (s1 & added & Hs1 & Hsegs & Hq).
  destruct (Basic.process_audio_data _ _ _ _ _) as [o svc1].
  cbn [fst snd] in *. subst o.
  unfold Basic.manager_get_transcription_updates, Basic.get_live_transcription.
  cbn [Basic.audio_service]. rewrite Hs1.
  destruct (poll_new_segments s1) as (Hnew & Hqueue & Hsegs1).
  destruct (Basic.poll s1) as [data s2]. cbn [fst snd] in *.
  exists s2, added.
  cbn [Basic.audio_service Basic.set_session Basic.sessions].
  rewrite lookup_insert_eq. split; [reflexivity|].
  split; [congruence|].
  rewrite Hqueue, app_nil_r, <- Hq, <- Hnew.
  destruct (Basic.new_segments data) as [|x l] eqn:Hdata; cbn.
  - reflexivity.
  - rewrite Hdata, app_nil_r. reflexivity.
Qed.

Lemma handle_frame_session m sid message now s :
  Basic.sessions (Basic.audio_service m) !! sid = Some s ->
  exists s' added,
    Basic.sessions (Basic.audio_service
      (snd (Api.handle_frame client b64decode m sid message now))) !! sid
    = Some s'
    /\ Basic.transcription_segments s'
       = Basic.transcription_segments s ++ added
    /\ Basic.transcription_queue s ++ added
       = pushed (fst (Api.handle_frame client b64decode m sid message now))
           ++ Basic.transcription_queue s'.
Proof.
  intros Hs.
  assert (Hsame : exists s' added,
    Basic.sessions (Basic.audio_service m) !! sid = Some s'
    /\ Basic.transcription_segments s'
       = Basic.transcription_segments s ++ added
    /\ Basic.transcription_queue s ++ added
       = [] ++ Basic.transcription_queue s').
  { exists s, []. rewrite !app_nil_r. auto. }
  destruct message as [audio| | |c|]; cbn [Api.handle_frame fst snd pushed flat_map].
  - apply process_and_push_session, Hs.
  - exact Hsame.
  - exact Hsame.
  - repeat case_decide.
    + unfold Basic.manager_start_recording, Basic.start_recording.
      rewrite Hs. cbn. rewrite lookup_insert_eq.
      eexists _, []. rewrite !app_nil_r. split; [reflexivity|]. split; reflexivity.
    + unfold Basic.manager_stop_recording, Basic.stop_recording.
      rewrite Hs. cbn. rewrite lookup_insert_eq.
      eexists _, []. rewrite !app_nil_r. split; [reflexivity|]. split; reflexivity.
    + exact Hsame.
    + destruct (Api.audio_data c) as [[|a d]|]; [exact Hsame| |exact Hsame].
      destruct (b64decode _) as [audio|e]; [|exact Hsame].
      apply process_and_push_session, Hs.
    + exact Hsame.
  - exact Hsame.
Qed.

(** X25. Over one WebSocket connection to an existing session, the
    [transcription_update] messages deliver each segment once and in
    order: what they carry, followed by what is still queued when the
    connection ends, is what was queued when it began followed by the
    segments transcribed during the connection. *)
Theorem connection_pushes_each_segment_once m sid frames s :
  Basic.sessions (Basic.audio_service m) !! sid = Some s ->
  exists s' added,
    Basic.sessions (Basic.audio_service
      (snd (Api.receive_loop client b64decode m sid frames))) !! sid = Some s'
    /\ Basic.transcription_segments s'
       = Basic.transcription_segments s ++ added
    /\ pushed (fst (Api.receive_loop client b64decode m sid frames))
         ++ Basic.transcription_queue s'
       = Basic.transcription_queue s ++ added.
Proof.
  revert m s. induction frames as [|[now message] frames IH]; intros m s Hs.
  - exists s, []. cbn. rewrite !app_nil_r. auto.
  - cbn [Api.receive_loop].
    destruct (handle_frame_session m sid message now s Hs)
      as (s1 & added1 & Hs1 & Hsegs1 & Hq1).
    destruct (Api.handle_frame client b64decode m sid message now)
      as [sent1 m1]. cbn [fst snd] in *.
    destruct (IH m1 s1 Hs1) as (s2 & added2 & Hs2 & Hsegs2 & Hq2).
    destruct (Api.receive_loop client b64decode m1 sid frames) as [sent2 m2].
    cbn [fst snd] in *.
    exists s2, (added1 ++ added2). split; [exact Hs2|].
    split; [rewrite Hsegs2, Hsegs1, (assoc_L (++)); reflexivity|].
    unfold pushed in *. rewrite flat_map_app, <- (assoc_L (++)), Hq2.
    rewrite !(assoc_L (++)), Hq1. reflexivity.
Qed.

End Connection.

(** The theorem on a connection that starts a recording and sends three
    seconds of audio in one binary frame: the audio is transcribed and the
    segment is pushed by the [transcription_update] that follows. *)
Lemma connection_pushes_each_segment_once_witness :
  let client := fun (_ : nat) (_ : Wav.bytes) =>
    Ret {| Basic.transcript_text := lit " hello ";
           Basic.transcript_confidence := None |} in
  let b64decode := fun _ : string => Ret ([] : Wav.bytes) in
  let m := snd (Basic.manager_create_session Basic.new_manager "s" 0%Q) in
  let start :=
    {| Api.action := Some "start_recording"%string; Api.type_ := None;
       Api.audio_data := None |} in
  let frames :=
    [(1%Q, Api.ControlFrame start);
     (2%Q, Api.BytesFrame (replicate (Z.to_nat 96000) 0%Z))] in
  map Basic.text (pushed (fst (Api.receive_loop client b64decode m "s" frames)))
  = [lit "hello"]
  /\ exists s' added,
      Basic.sessions (Basic.audio_service
        (snd (Api.receive_loop client b64decode m "s" frames))) !! "s" = Some s'
      /\ Basic.transcription_segments s' = [] ++ added
      /\ pushed (fst (Api.receive_loop client b64decode m "s" frames))
           ++ Basic.transcription_queue s'
         = [] ++ added.
Proof.
  intros client b64decode m start frames.
  split; [vm_compute; reflexivity|].
  apply (connection_pushes_each_segment_once client b64decode m "s" frames
           (Basic.new_session "s" 0%Q)).
  vm_compute. reflexivity.
Defined.

Section ConnectionFrames.
Variable client : nat -> Wav.bytes -> outcome Basic.Transcript.
Variable b64decode : string -> outcome Wav.bytes.

Lemma process_and_push_wording m sid audio now on_error on_error' :
  Api.process_and_push client m sid audio now on_error
  = Api.process_and_push client m sid audio now on_error'.
Proof.
  unfold Api.process_and_push, Basic.manager_process_audio_data.
  destruct (process_audio_data_returns client (Basic.audio_service m)
              sid audio now) as [result Hresult].
  destruct (Basic.process_audio_data _ _ _ _ _) as [o svc1].
  cbn [fst] in Hresult. subst o. reflexivity.
Qed.

(** X26. A binary frame is never answered with an error. The first reply
    is [audio_processed] with the result of [process_audio_data]. One
    [transcription_update] follows exactly when the session's delivery
    queue is not empty once the audio is processed; it carries the whole
    queue as [new_segments], with the session's stripped transcript and
    segment count, and the queue is empty afterwards. Nothing follows when
    the queue is empty or the session is unknown. An [audio_chunk] control
    message whose base64 text decodes is handled exactly like the binary
    frame of the decoded bytes. *)
Theorem audio_frame_replies m sid audio now :
  exists result svc1,
    Basic.process_audio_data client (Basic.audio_service m) sid audio now
    = (Ret result, svc1)
    /\ fst (Api.handle_frame client b64decode m sid (Api.BytesFrame audio) now)
       = Api.audio_processed result
         :: match Basic.sessions svc1 !! sid with
            | Some s1 =>
                match Basic.transcription_queue s1 with
                | [] => []
                | _ :: _ =>
                    [Api.transcription_update
                       {| Basic.live_session_id := Basic.session_id s1;
                          Basic.live_is_recording := Basic.is_recording s1;
                          Basic.new_segments := Basic.transcription_queue s1;
                          Basic.live_full_transcription :=
                            strip (Basic.full_transcription s1);
                          Basic.live_segment_count :=
                            length (Basic.transcription_segments s1) |}]
                end
            | None => []
            end
    /\ (forall s',
          Basic.sessions (Basic.audio_service
            (snd (Api.handle_frame client b64decode m sid
                    (Api.BytesFrame audio) now))) !! sid = Some s' ->
          Basic.transcription_queue s' = []
          /\ exists s1,
              Basic.sessions svc1 !! sid = Some s1
              /\ Basic.transcription_segments s'
                 = Basic.transcription_segments s1
              /\ Basic.audio_buffer s' = Basic.audio_buffer s1)
    /\ forall c d,
         Api.or_else (Api.action c) (Api.type_ c) = Some "audio_chunk"%string ->
         Api.audio_data c = Some d -> d <> EmptyString ->
         b64decode d = Ret audio ->
         Api.handle_frame client b64decode m sid (Api.ControlFrame c) now
         = Api.handle_frame client b64decode m sid (Api.BytesFrame audio) now.
Proof.
  cbn [Api.handle_frame].
  unfold Api.process_and_push at 1 2 3, Basic.manager_process_audio_data.
  destruct (process_audio_data_returns client (Basic.audio_service m)
              sid audio now) as [result Hresult].
  destruct (Basic.process_audio_data client _ _ _ _) as [o svc1] eqn:Hp.
  cbn [fst] in Hresult. subst o. exists result, svc1. split; [reflexivity|].
  unfold Basic.manager_get_transcription_updates, Basic.get_live_transcription.
  cbn [Basic.audio_service].
  split; [|split].
  - destruct (Basic.sessions svc1 !! sid) as [s1|]; [|reflexivity].
    unfold Basic.poll. rewrite drain_spec.
    cbn [fst app Basic.new_segments].
    destruct (Basic.transcription_queue s1); reflexivity.
  - intros s'.
    destruct (Basic.sessions svc1 !! sid) as [s1|] eqn:Hs1.
    + unfold Basic.poll. rewrite drain_spec.
      cbn [fst snd Basic.audio_service Basic.set_session Basic.sessions].
      rewrite lookup_insert_eq. intros [= <-].
      split; [reflexivity|]. exists s1. repeat split.
    + cbn [snd Basic.audio_service]. rewrite Hs1. discriminate.
  - intros c d Haction Hd Hne Hdecode. rewrite Haction.
    repeat (case_decide; [discriminate|]).
    case_decide; [|contradiction].
    rewrite Hd. destruct d as [|a d]; [contradiction|].
    rewrite Hdecode.
    apply process_and_push_wording.
Qed.

Lemma process_and_push_unknown m sid audio now on_error :
  Basic.sessions (Basic.audio_service m) !! sid = None ->
  Api.process_and_push client m sid audio now on_error
  = ([Api.audio_processed Basic.ProcessSessionNotFound], m).
Proof.
  intros Hs. destruct m as [svc active]. cbn [Basic.audio_service] in Hs.
  unfold Api.process_and_push, Basic.manager_process_audio_data,
    Basic.process_audio_data.
  cbn [Basic.audio_service Basic.active_sessions]. rewrite Hs.
  unfold Basic.manager_get_transcription_updates, Basic.get_live_transcription.
  cbn [Basic.audio_service Basic.active_sessions]. rewrite Hs. reflexivity.
Qed.

Lemma handle_frame_unknown m sid message now :
  Basic.sessions (Basic.audio_service m) !! sid = None ->
  snd (Api.handle_frame client b64decode m sid message now) = m
  /\ Forall session_not_found
       (fst (Api.handle_frame client b64decode m sid message now)).
Proof.
  intros Hs.
  assert (Herror : forall e, Forall session_not_found [Api.error e])
    by (intros e; repeat constructor).
  destruct message as [audio| | |c|]; cbn [Api.handle_frame fst snd]; auto.
  - rewrite process_and_push_unknown by exact Hs.
    split; [reflexivity|]. repeat constructor.
  - repeat case_decide.
    + unfold Basic.manager_start_recording, Basic.start_recording.
      rewrite Hs, manager_eta. split; [reflexivity|]. repeat constructor.
    + unfold Basic.manager_stop_recording, Basic.stop_recording.
      rewrite Hs, manager_eta. split; [reflexivity|]. repeat constructor.
    + unfold Basic.manager_get_session_info, Basic.get_session_status.
      rewrite Hs. split; [reflexivity|]. repeat constructor.
    + destruct (Api.audio_data c) as [[|a d]|]; cbn [fst snd]; auto.
      destruct (b64decode _) as [audio|e]; cbn [fst snd]; auto.
      rewrite process_and_push_unknown by exact Hs.
      split; [reflexivity|]. repeat constructor.
    + cbn [fst snd]. auto.
Qed.

(** X27. A connection for a session id the service does not hold never
    creates the session: whatever frames arrive, the manager is left
    exactly as it was (so no request reaches the collaborator), every
    reply says the session is unknown or is an error message, and no
    [transcription_update] is sent. *)
Theorem connection_to_unknown_session m sid frames :
  Basic.sessions (Basic.audio_service m) !! sid = None ->
  snd (Api.receive_loop client b64decode m sid frames) = m
  /\ Forall session_not_found
       (fst (Api.receive_loop client b64decode m sid frames))
  /\ pushed (fst (Api.receive_loop client b64decode m sid frames)) = [].
Proof.
  intros Hs.
  assert (Hpushed : forall sent, Forall session_not_found sent -> pushed sent = []).
  { intros sent Hall. induction Hall as [|o sent Ho _ IH]; [reflexivity|].
    unfold pushed in *. cbn [flat_map]. rewrite IH.
    destruct o; try reflexivity. destruct Ho. }
  enough (Hloop : snd (Api.receive_loop client b64decode m sid frames) = m
                  /\ Forall session_not_found
                       (fst (Api.receive_loop client b64decode m sid frames))).
  { destruct Hloop as [Hm Hall]. auto. }
  induction frames as [|[now message] frames IH]; cbn [Api.receive_loop].
  - split; [reflexivity|constructor].
  - destruct (handle_frame_unknown m sid message now Hs) as [Hm1 Hsent1].
    destruct (Api.handle_frame client b64decode m sid message now)
      as [sent1 m1]. cbn [fst snd] in *. subst m1.
    destruct IH as [Hm2 Hsent2].
    destruct (Api.receive_loop client b64decode m sid frames) as [sent2 m2].
    cbn [fst snd] in *. split; [exact Hm2|].
    apply Forall_app. split; assumption.
Qed.

Lemma process_and_push_elsewhere m sid audio now on_error other :
  other <> sid ->
  let m' := snd (Api.process_and_push client m sid audio now on_error) in
  Basic.sessions (Basic.audio_service m') !! other
  = Basic.sessions (Basic.audio_service m) !! other
  /\ Basic.active_sessions m' = Basic.active_sessions m.
Proof.
  intros Hne. unfold Api.process_and_push, Basic.manager_process_audio_data.
  pose proof (process_audio_data_shape client (Basic.audio_service m)
                sid audio now) as [_ Hshape].
  assert (Hother :
    Basic.sessions (snd (Basic.process_audio_data client
                           (Basic.audio_service m) sid audio now)) !! other
    = Basic.sessions (Basic.audio_service m) !! other).
  { destruct Hshape as [->|(_ & s' & ->)]; [reflexivity|].
    apply lookup_insert_ne. congruence. }
  clear Hshape.
  destruct (Basic.process_audio_data _ _ _ _ _) as [[result|e] svc1];
    cbn [snd] in *.
  - unfold Basic.manager_get_transcription_updates,
      Basic.get_live_transcription.
    cbn [Basic.audio_service Basic.active_sessions].
    destruct (Basic.sessions svc1 !! sid) as [s1|].
    + destruct (Basic.poll s1) as [data s2].
      cbn [snd Basic.audio_service Basic.active_sessions Basic.set_session
           Basic.sessions].
      rewrite lookup_insert_ne by congruence. auto.
    + cbn [snd Basic.audio_service Basic.active_sessions]. auto.
  - cbn [Basic.audio_service Basic.active_sessions]. auto.
Qed.

Lemma handle_frame_elsewhere m sid message now other :
  other <> sid ->
  let m' := snd (Api.handle_frame client b64decode m sid message now) in
  Basic.sessions (Basic.audio_service m') !! other
  = Basic.sessions (Basic.audio_service m) !! other
  /\ Basic.active_sessions m' = Basic.active_sessions m.
Proof.
  intros Hne.
  destruct message as [audio| | |c|]; cbn [Api.handle_frame snd]; auto.
  - apply process_and_push_elsewhere, Hne.
  - repeat case_decide; auto.
    + unfold Basic.manager_start_recording, Basic.start_recording.
      destruct (Basic.sessions (Basic.audio_service m) !! sid);
        cbn [snd Basic.audio_service Basic.active_sessions Basic.set_session
             Basic.sessions]; [|auto].
      rewrite lookup_insert_ne by congruence. auto.
    + unfold Basic.manager_stop_recording, Basic.stop_recording.
      destruct (Basic.sessions (Basic.audio_service m) !! sid);
        cbn [snd Basic.audio_service Basic.active_sessions Basic.set_session
             Basic.sessions]; [|auto].
      rewrite lookup_insert_ne by congruence. auto.
    + destruct (Api.audio_data c) as [[|a d]|]; auto.
      destruct (b64decode _) as [audio|e]; auto.
      apply process_and_push_elsewhere, Hne.
Qed.

Lemma receive_loop_elsewhere m sid frames other :
  other <> sid ->
  let m' := snd (Api.receive_loop client b64decode m sid frames) in
  Basic.sessions (Basic.audio_service m') !! other
  = Basic.sessions (Basic.audio_service m) !! other
  /\ Basic.active_sessions m' = Basic.active_sessions m.
Proof.
  intros Hne. revert m.
  induction frames as [|[now message] frames IH]; intros m;
    cbn [Api.receive_loop]; [cbn; auto|].
  destruct (handle_frame_elsewhere m sid message now other Hne) as [Hs1 Ha1].
  destruct (Api.handle_frame client b64decode m sid message now) as [sent1 m1].
  cbn [snd] in *.
  destruct (IH m1) as [Hs2 Ha2].
  destruct (Api.receive_loop client b64decode m1 sid frames) as [sent2 m2].
  cbn [snd] in *. split; congruence.
Qed.

(** X28. When a WebSocket connection ends, however it went, the session
    it was opened for is gone: the service holds no session under that id
    and the manager no longer lists it as active, even if the session was
    created and is still used over HTTP. Every other session, and its
    place in the active set, is exactly as before the connection. The
    first message sent is [connection_established]; without a manager the
    only message is the error. *)
Theorem websocket_teardown m sid opened frames :
  (exists sent m',
      Api.websocket_audio_stream client b64decode (Some m) sid opened frames
      = (Api.connection_established sid opened :: sent, Some m')
      /\ Basic.sessions (Basic.audio_service m') !! sid = None
      /\ (sid ∉ Basic.active_sessions m')
      /\ forall other, other <> sid ->
           Basic.sessions (Basic.audio_service m') !! other
           = Basic.sessions (Basic.audio_service m) !! other
           /\ (other ∈ Basic.active_sessions m'
               <-> other ∈ Basic.active_sessions m))
  /\ Api.websocket_audio_stream client b64decode None sid opened frames
     = ([Api.error Api.ServiceNotAvailable], None).
Proof.
  split; [|reflexivity].
  unfold Api.websocket_audio_stream.
  pose proof (receive_loop_elsewhere m sid frames) as Helse.
  destruct (Api.receive_loop client b64decode m sid frames) as [sent m1].
  cbn [snd] in Helse.
  eexists _, _. split; [reflexivity|].
  unfold Basic.manager_cleanup_session, Basic.cleanup_session.
  split; [|split].
  - destruct (Basic.sessions (Basic.audio_service m1) !! sid) eqn:Hs;
      cbn [snd Basic.audio_service Basic.sessions].
    + apply lookup_delete_eq.
    + exact Hs.
  - destruct (Basic.sessions (Basic.audio_service m1) !! sid);
      cbn [snd Basic.active_sessions];
      (destruct (decide (sid ∈ Basic.active_sessions m1)) as [Hin|Hout];
       [intros Hin'; apply elem_of_difference in Hin' as [_ Hnot];
        apply Hnot, elem_of_singleton; reflexivity
       |exact Hout]).
  - intros other Hne. destruct (Helse other Hne) as [Hs1 Ha1]. split.
    + rewrite <- Hs1.
      destruct (Basic.sessions (Basic.audio_service m1) !! sid);
        cbn [snd Basic.audio_service Basic.sessions]; [|reflexivity].
      apply lookup_delete_ne. congruence.
    + rewrite <- Ha1.
      destruct (Basic.sessions (Basic.audio_service m1) !! sid);
        cbn [snd Basic.active_sessions];
        (destruct (decide (sid ∈ Basic.active_sessions m1)); [|reflexivity];
         rewrite elem_of_difference, elem_of_singleton; tauto).
Qed.

End ConnectionFrames.

(** The theorem on a connection for an id that was never created. *)
Lemma connection_to_unknown_session_witness :
  let client := fun (_ : nat) (_ : Wav.bytes) =>
    Ret {| Basic.transcript_text := lit "hello";
           Basic.transcript_confidence := None |} in
  let b64decode := fun _ : string => Ret ([] : Wav.bytes) in
  let frames := [(1%Q, Api.BytesFrame [1; 2]%Z); (2%Q, Api.InvalidJsonFrame)] in
  snd (Api.receive_loop client b64decode Basic.new_manager "s" frames)
  = Basic.new_manager.
Proof.
  intros client b64decode frames.
  refine (proj1 (connection_to_unknown_session client b64decode
                   Basic.new_manager "s" frames _)).
  reflexivity.
Defined.
